(** * Route-Configuration-Manager: geometry codec, route registry and range
    remapper, embedded from the Streamlit pages of the repository.

    Python values are modelled as follows.
    - [str] is [string]; a character is a code point below 256.
    - [int] is [Z]; [f"{n}"] on an int is stdpp's [pretty].
    - [float] and the two builtins that touch its textual form
      ([float(s)] and [f"{x:.8f}"]) are parameters of the codec section; a
      bit-accurate binary64 instance is given in [Binary64].
    - a [dict] used as a map is a [gmap], a [set] is a [gset].
    - an uncaught exception is the [Raise] outcome of [result]. *)

From Stdlib Require Import ZArith List Ascii String Lia Bool.
From Stdlib Require Import SpecFloat.
From stdpp Require Import base decidable option list sorting strings pretty gmap.

Local Open Scope string_scope.
Local Open Scope Z_scope.
Local Open Scope list_scope.

(** ** Python [str] builtins used by the sources *)

Module Py.

(** [c.isspace()], also what [str.strip] removes and what [\s] matches. *)
Definition isspace (c : ascii) : bool :=
  let n := N_of_ascii c in
  ((9 <=? n) && (n <=? 13) || (28 <=? n) && (n <=? 32)
   || (n =? 133) || (n =? 160))%N.

(** The line boundaries of [str.splitlines]. *)
Definition islinebreak (c : ascii) : bool :=
  let n := N_of_ascii c in
  ((10 <=? n) && (n <=? 13) || (28 <=? n) && (n <=? 30) || (n =? 133))%N.

(** [\d] and [[A-Z]] of the [re] module, on code points below 256. *)
Definition isdigit (c : ascii) : bool :=
  let n := N_of_ascii c in ((48 <=? n) && (n <=? 57))%N.

Definition isAZ (c : ascii) : bool :=
  let n := N_of_ascii c in ((65 <=? n) && (n <=? 90))%N.

Definition CR : ascii := "013"%char.
Definition LF : ascii := "010"%char.

Definition is_empty (s : string) : bool :=
  match s with EmptyString => true | _ => false end.

Fixpoint lstrip (s : string) : string :=
  match s with
  | String c s' => if isspace c then lstrip s' else s
  | EmptyString => EmptyString
  end.

Fixpoint rstrip (s : string) : string :=
  match s with
  | String c s' =>
      match rstrip s' with
      | EmptyString => if isspace c then EmptyString else String c EmptyString
      | r => String c r
      end
  | EmptyString => EmptyString
  end.

(** [s.strip()] *)
Definition strip (s : string) : string := rstrip (lstrip s).

(** [s.split(sep)] for a one-character [sep], and [re.split] on a character
    class: the pieces between the separators, empty pieces included. *)
Fixpoint split_on (p : ascii -> bool) (s : string) : list string :=
  match s with
  | EmptyString => [EmptyString]
  | String c s' =>
      if p c then EmptyString :: split_on p s'
      else match split_on p s' with
           | w :: ws => String c w :: ws
           | [] => [String c EmptyString]
           end
  end.

(** [sep.join(l)] *)
Fixpoint join (sep : string) (l : list string) : string :=
  match l with
  | [] => EmptyString
  | [x] => x
  | x :: l' => x +:+ sep +:+ join sep l'
  end.

Definition starts_with_LF (s : string) : bool :=
  match s with String c _ => Ascii.eqb c LF | EmptyString => false end.

(** [s.splitlines()]: a CR directly before an LF belongs to that LF; no
    empty last line after a final boundary. *)
Fixpoint splitlines (s : string) : list string :=
  match s with
  | EmptyString => []
  | String c s' =>
      if Ascii.eqb c CR && starts_with_LF s' then splitlines s'
      else if islinebreak c then EmptyString :: splitlines s'
      else match splitlines s' with
           | l :: ls => String c l :: ls
           | [] => [String c EmptyString]
           end
  end.

(** [s.startswith(p)], with the rest of [s] when it does. *)
Fixpoint strip_prefix (p s : string) : option string :=
  match p with
  | EmptyString => Some s
  | String a p' =>
      match s with
      | String b s' => if Ascii.eqb a b then strip_prefix p' s' else None
      | EmptyString => None
      end
  end.

(** The longest prefix of [s] whose characters satisfy [p], and the rest. *)
Fixpoint span (p : ascii -> bool) (s : string) : string * string :=
  match s with
  | String c s' =>
      if p c then let '(a, b) := span p s' in (String c a, b)
      else (EmptyString, s)
  | EmptyString => (EmptyString, EmptyString)
  end.

(** [int(s)] on a string of ASCII digits. *)
Definition digit_val (c : ascii) : Z := Z.of_N (N_of_ascii c) - 48.

Fixpoint digits_val (s : string) (acc : Z) : Z :=
  match s with
  | String c s' => digits_val s' (10 * acc + digit_val c)
  | EmptyString => acc
  end.

(** Every character of [s] satisfies [p]. *)
Fixpoint all_chars (p : ascii -> bool) (s : string) : bool :=
  match s with
  | String c s' => p c && all_chars p s'
  | EmptyString => true
  end.

End Py.

(** ** The blank-line separator of the coordinate text

    [re.split(r"\r?\n\s*\r?\n", text)]: a match starts at an LF (or at the CR
    before it), runs over the white space that follows and ends after the
    last LF of that run; a run without an LF gives no match. *)

Module Re.

(** Length of the longest prefix of [s] made of white space that ends in an
    LF (zero when the white-space run that starts [s] has no LF). *)
Fixpoint ws_to_last_LF (s : string) : nat :=
  match s with
  | String c s' =>
      if Py.isspace c then
        match ws_to_last_LF s' with
        | O => if Ascii.eqb c Py.LF then 1%nat else O
        | S n => S (S n)
        end
      else O
  | EmptyString => O
  end.

(** Length of the match of the separator at the start of [s], if any. *)
Definition blank_match (s : string) : option nat :=
  match s with
  | String c s' =>
      if Ascii.eqb c Py.LF then
        match ws_to_last_LF s' with O => None | S n => Some (S (S n)) end
      else if Ascii.eqb c Py.CR && Py.starts_with_LF s' then
        match s' with
        | String _ s'' =>
            match ws_to_last_LF s'' with
            | O => None
            | S n => Some (S (S (S n)))
            end
        | EmptyString => None
        end
      else None
  | EmptyString => None
  end.

(** The split proper: scan from the left; at a match close the current piece
    and skip the match. [skip] counts the characters of a match still to be
    passed over. *)
Fixpoint split_go (s : string) (skip : nat) : list string :=
  match s with
  | EmptyString => [EmptyString]
  | String c s' =>
      match skip with
      | S k => split_go s' k
      | O =>
          match blank_match s with
          | Some n => EmptyString :: split_go s' (Nat.pred n)
          | None =>
              match split_go s' O with
              | w :: ws => String c w :: ws
              | [] => [String c EmptyString]
              end
          end
      end
  end.

Definition split_blank (s : string) : list string := split_go s O.

End Re.

(** ** Geometry values of the geometry library

    The sources only build polygons from a shell, read [exterior.coords] and
    [geoms], and test the class of a value; the library's constructors are
    modelled as containers. [float] is the coordinate type. *)

Module Geometry.
Section Geometry.
Context {float : Type} {float_eq : EqDecision float}.

(** A coordinate pair as the library yields it: (x, y) = (lon, lat). *)
Definition point : Type := float * float.

Record polygon : Type := mk_polygon
  { exterior : list point; interiors : list (list point) }.

#[local] Set Warnings "-register-all".
Inductive geometry : Type :=
| GPoint (p : point)
| GLineString (ps : list point)
| GPolygon (p : polygon)
| GMultiPoint (ps : list point)
| GMultiLineString (ls : list (list point))
| GMultiPolygon (parts : list polygon)
| GeometryCollection (members : list geometry).

(** A ring as a container of its points, closed: the first point is
    repeated at the end unless it is there already. The library closes a
    ring by comparing coordinates as numbers, pads a ring of three
    coordinates and can raise; that constructor is [Shapely.Polygon], and
    [CodecMore.container_polygon_exact] says where the two agree. *)
Definition close_ring (coords : list point) : list point :=
  match coords, last coords with
  | first :: _, Some l =>
      if decide (first = l) then coords else coords ++ [first]
  | _, _ => coords
  end.

(** [Polygon(coords)] as a container: a shell and no holes. *)
Definition Polygon (coords : list point) : polygon :=
  {| exterior := close_ring coords; interiors := [] |}.

(** [getattr(geom, "geoms", [])], each member as a geometry. *)
Definition geoms (g : geometry) : list geometry :=
  match g with
  | GMultiPoint ps => map GPoint ps
  | GMultiLineString ls => map GLineString ls
  | GMultiPolygon parts => map GPolygon parts
  | GeometryCollection ms => ms
  | _ => []
  end.

(** [geom.is_empty], which is what [bool(geom)] negates. *)
Fixpoint is_empty (g : geometry) : bool :=
  match g with
  | GPoint _ => false
  | GLineString ps => bool_decide (ps = [])
  | GPolygon p => bool_decide (exterior p = [])
  | GMultiPoint ps => bool_decide (ps = [])
  | GMultiLineString ls => forallb (fun l => bool_decide (l = [])) ls
  | GMultiPolygon ps => forallb (fun p => bool_decide (exterior p = [])) ps
  | GeometryCollection ms => forallb is_empty ms
  end.

(** The rings of the data model: one per polygon part, its shell. *)
Definition rings (g : geometry) : list (list point) :=
  match g with
  | GPolygon p => [exterior p]
  | GMultiPolygon parts => map exterior parts
  | _ => []
  end.




End Geometry.
Arguments point : clear implicits.
Arguments polygon : clear implicits.
Arguments geometry : clear implicits.
End Geometry.


(** ** Python [float]: IEEE binary64

    The instance of the codec's parameters used on concrete inputs. A float
    is a [spec_float] of precision 53; [fmt_fixed d] is [f"{x:.{d}f}"] (the
    exact binary value rounded to [d] decimals, ties to even); [float_of_str]
    is [float(s)] on ASCII literals, correctly rounded, with single
    underscores between digits; [eqb] is [x == y]. Digits outside ASCII are
    not part of this instance (they read as [None]). *)

Module Binary64.

Definition float : Type := spec_float.
Definition prec : Z := 53.
Definition emax : Z := 1024.

Global Instance float_eq : EqDecision float.
Proof. solve_decision. Defined.

Definition sign_str (s : bool) : string := if s then "-" else "".

Fixpoint zeros (n : nat) : string :=
  match n with O => "" | S n' => String "0" (zeros n') end.

Definition zero_pad (width : nat) (s : string) : string :=
  zeros (width - String.length s) +:+ s.

(** A non-negative integer [n] standing for [n / 10^d], as fixed-point text. *)
Definition fixed_digits (d : nat) (n : Z) : string :=
  let scale := 10 ^ Z.of_nat d in
  match d with
  | O => pretty n
  | _ => pretty (n / scale) +:+ "." +:+ zero_pad d (pretty (n mod scale))
  end.

(** [num / den] rounded to the nearest integer, ties to even. *)
Definition round_half_even (num den : Z) : Z :=
  let q := num / den in
  let r := num mod den in
  match 2 * r ?= den with
  | Lt => q
  | Gt => q + 1
  | Eq => if Z.even q then q else q + 1
  end.

Definition fmt_fixed (d : nat) (x : float) : string :=
  match x with
  | S754_zero s => sign_str s +:+ fixed_digits d 0
  | S754_infinity s => sign_str s +:+ "inf"
  | S754_nan => "nan"
  | S754_finite s m e =>
      let num := Z.pos m * 10 ^ Z.of_nat d * 2 ^ Z.max e 0 in
      let den := 2 ^ Z.max (- e) 0 in
      sign_str s +:+ fixed_digits d (round_half_even num den)
  end.

Definition fmt8 : float -> string := fmt_fixed 8.
Definition fmt12 : float -> string := fmt_fixed 12.

Definition lower (c : ascii) : ascii :=
  if Py.isAZ c then ascii_of_N (N_of_ascii c + 32) else c.

Fixpoint lower_str (s : string) : string :=
  match s with
  | String c s' => String (lower c) (lower_str s')
  | EmptyString => EmptyString
  end.

Definition split_sign (s : string) : bool * string :=
  match s with
  | String "-" s' => (true, s')
  | String "+" s' => (false, s')
  | _ => (false, s)
  end.

(** The longest run of digits at the start of [s] in which single
    underscores stand between digits, without the underscores, and the
    rest. *)
Fixpoint span_grouped (s : string) : string * string :=
  match s with
  | String c s' =>
      if Py.isdigit c then
        match s' with
        | String u (String d _ as s'') =>
            if Ascii.eqb u "_" && Py.isdigit d then
              let '(a, b) := span_grouped s'' in (String c a, b)
            else
              let '(a, b) := span_grouped s' in (String c a, b)
        | _ => let '(a, b) := span_grouped s' in (String c a, b)
        end
      else (EmptyString, s)
  | EmptyString => (EmptyString, EmptyString)
  end.

(** The decimal exponent after the mantissa: [Some 0] when there is none. *)
Definition parse_exponent (s : string) : option Z :=
  match s with
  | EmptyString => Some 0
  | String c s' =>
      if Ascii.eqb (lower c) "e" then
        let '(neg, ds) := split_sign s' in
        let '(d, rest) := span_grouped ds in
        if Py.is_empty d || negb (Py.is_empty rest) then None
        else Some (if neg then - Py.digits_val d 0 else Py.digits_val d 0)
      else None
  end.

(** [n * 10^e] for [n > 0], rounded to the nearest float, ties to even. *)
Definition of_decimal (neg : bool) (n e : Z) : float :=
  if n =? 0 then S754_zero neg
  else if 0 <=? e then
    binary_normalize prec emax ((if neg then - n else n) * 10 ^ e) 0 neg
  else
    match n, 10 ^ (- e) with
    | Z.pos pn, Z.pos pd =>
        SFdiv prec emax (S754_finite neg pn 0) (S754_finite false pd 0)
    | _, _ => S754_nan
    end.

Definition float_of_str (s : string) : option float :=
  let '(neg, body) := split_sign (Py.strip s) in
  let low := lower_str body in
  if String.eqb low "inf" || String.eqb low "infinity" then
    Some (S754_infinity neg)
  else if String.eqb low "nan" then Some S754_nan
  else
    let '(ip, rest1) := span_grouped body in
    let '(fp, rest2) :=
      match rest1 with
      | String "." r => span_grouped r
      | _ => (EmptyString, rest1)
      end in
    if Py.is_empty ip && Py.is_empty fp then None
    else
      match parse_exponent rest2 with
      | None => None
      | Some ex =>
          Some (of_decimal neg (Py.digits_val (ip +:+ fp) 0)
                           (ex - Z.of_nat (String.length fp)))
      end.

(** [x == y]: a NaN differs from everything, itself included, and the two
    zeros are equal. *)
Definition eqb (x y : float) : bool := SFeqb x y.

End Binary64.

(** ** The configuration document (JSON)

    The fields the pages read or write; a field of a JSON object that these
    pages only pass through is left out. *)

Module Document.

(** The [representative] field: a route name in one flavour of the document,
    a boolean in the other; [RepNone] is an absent key or [null]. *)
Inductive rep_value : Type :=
| RepName (s : string)
| RepFlag (b : bool)
| RepNone.

Record zone : Type := mk_zone
  { zone_id : string;
    zone_name : string;
    polygonCoordinates : string;
    zone_routingParameterId : string }.

Record preference : Type := mk_preference
  { pref_id : string;
    routingParameterVehicleId : string;
    zip : string;
    tag : string;
    inPolygon : bool;
    routingParameterUiPolygonDTO : option zone;
    value : string;
    orderRank : Z }.

Record route : Type := mk_route
  { id : string;
    routingParameterId : option string;
    name : string;
    adjacentRoutes : string;
    representative : rep_value;
    excludedRoutes : string;
    routingParameterUiVehiclePreferenceDTOs : list preference }.

Record node : Type := mk_node
  { node_id : Z; label : string }.

Record document : Type := mk_document
  { doc_id : string;
    admissibleRoutePatterns : string;
    routeNumberGap : option Z;
    routingParameterUiVehicleDTOs : list route;
    routingParameterNodeDTOs : option (list node) }.

Global Instance rep_value_eq : EqDecision rep_value.
Proof. solve_decision. Defined.
Global Instance zone_eq : EqDecision zone.
Proof. solve_decision. Defined.
Global Instance preference_eq : EqDecision preference.
Proof. solve_decision. Defined.
Global Instance route_eq : EqDecision route.
Proof. solve_decision. Defined.

Definition set_name (r : route) (n : string) : route :=
  mk_route (id r) (routingParameterId r) n (adjacentRoutes r)
           (representative r) (excludedRoutes r)
           (routingParameterUiVehiclePreferenceDTOs r).

Definition set_adjacentRoutes (r : route) (a : string) : route :=
  mk_route (id r) (routingParameterId r) (name r) a
           (representative r) (excludedRoutes r)
           (routingParameterUiVehiclePreferenceDTOs r).

Definition set_representative (r : route) (v : rep_value) : route :=
  mk_route (id r) (routingParameterId r) (name r) (adjacentRoutes r)
           v (excludedRoutes r)
           (routingParameterUiVehiclePreferenceDTOs r).

Definition set_prefs (r : route) (ps : list preference) : route :=
  mk_route (id r) (routingParameterId r) (name r) (adjacentRoutes r)
           (representative r) (excludedRoutes r) ps.

Definition set_routes (d : document) (rs : list route) : document :=
  mk_document (doc_id d) (admissibleRoutePatterns d) (routeNumberGap d) rs
              (routingParameterNodeDTOs d).

(** What a page run ends in: a value, [st.stop()] after an error message,
    or an exception nobody catches. *)
Inductive exn : Type := AttributeError | TypeError | ValueError.

(** [Loops] is a [while] loop that never ends. *)
Inductive outcome (A : Type) : Type :=
| Done (a : A)
| Stopped
| Raised (e : exn)
| Loops.
Arguments Done {A} a.
Arguments Stopped {A}.
Arguments Raised {A} e.
Arguments Loops {A}.

Global Instance exn_eq : EqDecision exn.
Proof. solve_decision. Defined.
Global Instance outcome_eq {A : Type} `{EqDecision A} : EqDecision (outcome A).
Proof. solve_decision. Defined.

Definition bind {A B : Type} (x : outcome A) (f : A -> outcome B) : outcome B :=
  match x with
  | Done a => f a
  | Stopped => Stopped
  | Raised e => Raised e
  | Loops => Loops
  end.

(** A [for] loop whose body may raise: the first exception ends it. *)
Fixpoint for_each {A B : Type} (f : A -> outcome B) (l : list A)
  : outcome (list B) :=
  match l with
  | [] => Done []
  | x :: rest =>
      bind (f x) (fun y => bind (for_each f rest) (fun ys => Done (y :: ys)))
  end.

(** [re.match(r"([A-Z]+)\|(\d+)\|(\d+)", s)] and the [int] of groups 2, 3. *)
Definition parse_pattern (s : string) : option (string * Z * Z) :=
  let '(prefix, r1) := Py.span Py.isAZ s in
  match r1 with
  | String "|" r2 =>
      let '(lo, r3) := Py.span Py.isdigit r2 in
      match r3 with
      | String "|" r4 =>
          let '(hi, _) := Py.span Py.isdigit r4 in
          if Py.is_empty prefix || Py.is_empty lo || Py.is_empty hi then None
          else Some (prefix, Py.digits_val lo 0, Py.digits_val hi 0)
      | _ => None
      end
  | _ => None
  end.

End Document.



(** ** Home.py: the geometry codec and the edit form *)

Module Home.
Import Geometry Document.
Section Codec.
Context {float : Type} {float_eq : EqDecision float}.
(** [float(s)]; [None] stands for [ValueError]. *)
Variable float_of_str : string -> option float.
(** [f"{x:.8f}"] *)
Variable fmt8 : float -> string.

Definition format_point (c : point float) : string :=
  fmt8 (fst c) +:+ "," +:+ fmt8 (snd c) +:+ ",0".

Definition CRLF : string := String Py.CR (String Py.LF EmptyString).

Definition format_ring (coords : list (point float)) : string :=
  Py.join CRLF (map format_point coords).

Definition polygon_to_text (geom : geometry float) : string :=
  let parts :=
    match geom with
    | GPolygon p => [format_ring (exterior p)]
    | GMultiPolygon ps => map (fun p => format_ring (exterior p)) ps
    | _ => []
    end in
  Py.join (CRLF +:+ CRLF) parts.

(** [[f.strip() for f in line.split(",") if f.strip()]] *)
Definition fields_of (line : string) : list string :=
  filter (fun f => negb (Py.is_empty f))
         (map Py.strip (Py.split_on (Ascii.eqb ",") line)).

(** One pass of the inner loop body: the (lon, lat) pair of a line, or
    [None] when the line is skipped by [continue]. *)
Definition parse_line (line : string) : option (point float) :=
  let fields := fields_of line in
  if (length fields <? 2)%nat then None
  else
    match float_of_str (nth 0 fields EmptyString) with
    | None => None
    | Some lon =>
        match float_of_str (nth 1 fields EmptyString) with
        | None => None
        | Some lat => Some (lon, lat)
        end
    end.

(** The inner [for line in lines] loop with its two accumulators. *)
Fixpoint scan_lines (lines : list string)
  (coords_latlon coords_lonlat : list (point float))
  : list (point float) * list (point float) :=
  match lines with
  | [] => (coords_latlon, coords_lonlat)
  | line :: rest =>
      match parse_line line with
      | None => scan_lines rest coords_latlon coords_lonlat
      | Some (lon, lat) =>
          scan_lines rest (coords_latlon ++ [(lat, lon)])
                          (coords_lonlat ++ [(lon, lat)])
      end
  end.

(** [[ln.strip() for ln in part.splitlines() if ln.strip()]] *)
Definition lines_of (part : string) : list string :=
  filter (fun ln => negb (Py.is_empty ln)) (map Py.strip (Py.splitlines part)).

(** The outer [for part in parts_raw] loop. *)
Fixpoint scan_parts (parts_raw : list string)
  (parts_latlon : list (list (point float))) (shapely_parts : list (polygon float))
  : list (list (point float)) * list (polygon float) :=
  match parts_raw with
  | [] => (parts_latlon, shapely_parts)
  | part :: rest =>
      let '(coords_latlon, coords_lonlat) := scan_lines (lines_of part) [] [] in
      if (3 <=? length coords_lonlat)%nat
      then scan_parts rest (parts_latlon ++ [coords_latlon])
                           (shapely_parts ++ [Polygon coords_lonlat])
      else scan_parts rest parts_latlon shapely_parts
  end.

Record parsed : Type := mk_parsed
  { parts_latlon : list (list (point float)); shapely : geometry float }.

Definition parse_polygon_text (coords_text : string) : option parsed :=
  if Py.is_empty coords_text || Py.is_empty (Py.strip coords_text) then None
  else
    let parts_raw := Re.split_blank (Py.strip coords_text) in
    let '(parts_latlon, shapely_parts) := scan_parts parts_raw [] [] in
    match shapely_parts with
    | [] => None
    | [p] => Some (mk_parsed parts_latlon (GPolygon p))
    | _ => Some (mk_parsed parts_latlon (GMultiPolygon shapely_parts))
    end.

(** The loop of [normalize_geom] over the members of a collection. *)
Fixpoint collect_polys (members : list (geometry float))
  (polys : list (polygon float)) : list (polygon float) :=
  match members with
  | [] => polys
  | GPolygon p :: rest => collect_polys rest (polys ++ [p])
  | GMultiPolygon ps :: rest => collect_polys rest (polys ++ ps)
  | _ :: rest => collect_polys rest polys
  end.

Definition normalize_geom (geom : option (geometry float))
  : option (geometry float) :=
  match geom with
  | None => None
  | Some (GPolygon p) => Some (GPolygon p)
  | Some (GMultiPolygon ps) => Some (GMultiPolygon ps)
  | Some g =>
      match collect_polys (geoms g) [] with
      | [] => None
      | [p] => Some (GPolygon p)
      | polys => Some (GMultiPolygon polys)
      end
  end.

End Codec.

Section Registry.
Context {float : Type} {float_eq : EqDecision float}.
Variable float_of_str : string -> option float.
Variable fmt8 : float -> string.
(** [str.upper] *)
Variable upper : string -> string.
(** [gdf[gdf["CFSAUID"].isin(zips)].unary_union]; [None] when no row of the
    boundary table matches ([zip_geoms.empty]). *)
Variable unary_union : list string -> option (geometry float).
(** The range read from [admissibleRoutePatterns] when the page loads. *)
Variable prefix : string.
Variable min_route max_route : Z.

(** An entry of [polygons]; the route and the preference it refers to are
    given by their positions in the document. *)
Record entry : Type := mk_entry
  { route_obj : nat;
    pref_obj : nat;
    route_name : string;
    entry_zone_name : string;
    entry_zip : string;
    parts : list (list (point float));
    entry_shapely : geometry float }.

Definition entries_of_route (i : nat) (route : route) : list entry :=
  omap (fun '(k, pref) =>
          match routingParameterUiPolygonDTO pref with
          | None => None
          | Some poly_data =>
              match parse_polygon_text float_of_str (polygonCoordinates poly_data) with
              | None => None
              | Some parsed =>
                  Some (mk_entry i k (name route) (zone_name poly_data) (zip pref)
                                 (parts_latlon parsed) (shapely parsed))
              end
          end)
       (imap pair (routingParameterUiVehiclePreferenceDTOs route)).

Definition build_polygons_from_data (data : document) : list entry :=
  concat (imap entries_of_route (routingParameterUiVehicleDTOs data)).

(** [[z.strip().upper() for z in s.split(",") if z.strip()]] *)
Definition zips_of (s : string) : list string :=
  map (fun z => upper (Py.strip z))
      (filter (fun z => Py.strip z <> EmptyString)
              (Py.split_on (Ascii.eqb ",") s)).

(** [sorted(l)] on strings. *)
Definition sorted (l : list string) : list string := merge_sort String.le l.

(** [re.match(rf"^{prefix}(\d+)$", s)] and [int(match.group(1))]: the digits
    run to the end of [s], or to a line feed that ends [s]. *)
Definition match_route_name (s : string) : option Z :=
  match Py.strip_prefix prefix s with
  | None => None
  | Some rest =>
      let '(digits, tail) := Py.span Py.isdigit rest in
      if Py.is_empty digits then None
      else if String.eqb tail EmptyString
              || String.eqb tail (String Py.LF EmptyString)
      then Some (Py.digits_val digits 0)
      else None
  end.

(** The merged and normalised geometry of a set of postal codes, as text;
    [None] when no row matches or nothing polygonal is left. *)
Definition merged_text (zips : list string) : option string :=
  match unary_union zips with
  | None => None
  | Some merged =>
      match normalize_geom (Some merged) with
      | Some merged_norm =>
          if Geometry.is_empty merged_norm then None
          else Some (polygon_to_text fmt8 merged_norm)
      | None => None
      end
  end.

Definition set_zone_name (pref : preference) (n : string) : preference :=
  match routingParameterUiPolygonDTO pref with
  | Some z =>
      mk_preference (pref_id pref) (routingParameterVehicleId pref) (zip pref)
        (tag pref) (inPolygon pref)
        (Some (mk_zone (zone_id z) n (polygonCoordinates z) (zone_routingParameterId z)))
        (value pref) (orderRank pref)
  | None => pref
  end.

Definition set_zip (pref : preference) (z : string) : preference :=
  mk_preference (pref_id pref) (routingParameterVehicleId pref) z
    (tag pref) (inPolygon pref) (routingParameterUiPolygonDTO pref)
    (value pref) (orderRank pref).

Definition set_polygonCoordinates (pref : preference) (text : string)
  : preference :=
  match routingParameterUiPolygonDTO pref with
  | Some z =>
      mk_preference (pref_id pref) (routingParameterVehicleId pref) (zip pref)
        (tag pref) (inPolygon pref)
        (Some (mk_zone (zone_id z) (zone_name z) text (zone_routingParameterId z)))
        (value pref) (orderRank pref)
  | None => pref
  end.

(** The branch "Suppression ZIP" on the preference at position [k]. When
    no code is left, [prefs_list.remove(found["pref_obj"])] takes away the
    first preference equal to the clicked one; that is the one at position
    [k] unless an equal preference stands before it. *)
Definition remove_zips (zip_to_remove : string) (k : nat) (route : route)
  : Document.route :=
  if Py.is_empty zip_to_remove then route
  else
    match routingParameterUiVehiclePreferenceDTOs route !! k with
    | None => route
    | Some pref =>
        let to_remove : gset string := list_to_set (zips_of zip_to_remove) in
        let curr_pref_zips : gset string := list_to_set (zips_of (zip pref)) in
        let remaining := curr_pref_zips ∖ to_remove in
        if decide (remaining = ∅) then
          set_prefs route (delete k (routingParameterUiVehiclePreferenceDTOs route))
        else
          let pref1 := set_zip pref (Py.join "," (sorted (elements remaining))) in
          let pref2 :=
            match merged_text (sorted (elements remaining)) with
            | Some text => set_polygonCoordinates pref1 text
            | None => pref1
            end in
          set_prefs route (<[k := pref2]> (routingParameterUiVehiclePreferenceDTOs route))
    end.

(** [p.get("routingParameterUiPolygonDTO", {}).get("name", "")] for each
    preference of the route. [None] is a preference without the key, which
    gives the empty name; a preference whose value under the key is [null]
    makes the source raise [AttributeError] here, and the document type
    has no such value: results about "Ajouter ZIP" that depend on this list
    are stated for routes whose preferences all hold a polygon object. *)
Definition existing_names_of (route : route) : list string :=
  map (fun p => match routingParameterUiPolygonDTO p with
                | Some z => zone_name z
                | None => EmptyString
                end)
      (routingParameterUiVehiclePreferenceDTOs route).

(** [while f"{base_zone_name}{i}" in existing_names: i += 1] *)
Fixpoint next_suffix (fuel : nat) (base_zone_name : string)
  (existing_names : list string) (i : Z) : option Z :=
  match fuel with
  | O => None
  | S fuel' =>
      if bool_decide ((base_zone_name +:+ pretty i) ∈ existing_names)
      then next_suffix fuel' base_zone_name existing_names (i + 1)
      else Some i
  end.

(** The name of the new zone; [None] only if the loop never ended. *)
Definition new_zone_name_unique (base_zone_name : string)
  (existing_names : list string) : option string :=
  if bool_decide (base_zone_name ∈ existing_names) then
    match next_suffix (S (length existing_names)) base_zone_name existing_names 2 with
    | Some i => Some (base_zone_name +:+ pretty i)
    | None => None
    end
  else Some base_zone_name.

(** The branch "Ajout ZIP". [new_ids] are the two identifiers drawn from
    [uuid4] for the preference and its zone. *)
Definition add_zips (data : document) (found_zone_name : string)
  (zips_in_route : list string) (zip_to_add : string)
  (new_ids : string * string) (route : route) : outcome Document.route :=
  if Py.is_empty zip_to_add then Done route
  else
    let to_add := zips_of zip_to_add in
    let to_create := filter (fun z => z ∉ zips_in_route) to_add in
    match to_create with
    | [] => Done route
    | _ =>
        match merged_text to_create with
        | None => Done route
        | Some poly_text =>
            let base_zone_name := Py.strip found_zone_name in
            let existing_names := existing_names_of route in
            match new_zone_name_unique base_zone_name existing_names with
            | None => Loops
            | Some unique =>
                let new_pref :=
                  mk_preference (fst new_ids) (id route)
                    (Py.join "," (sorted to_create)) EmptyString true
                    (Some (mk_zone (snd new_ids) unique poly_text
                             (default (doc_id data) (routingParameterId route))))
                    "1.0" 1 in
                Done (set_prefs route
                        (routingParameterUiVehiclePreferenceDTOs route ++ [new_pref]))
            end
        end
    end.

(** All postal codes of the route, as shown under the form. *)
Definition zips_in_route_of (route : route) : list string :=
  concat (map (fun p => zips_of (zip p))
              (routingParameterUiVehiclePreferenceDTOs route)).

Record form : Type := mk_form
  { new_route_name : string;
    new_zone_name : string;
    zip_to_add : string;
    zip_to_remove : string;
    new_adj : string }.

(** "Appliquer les changements" on the entry [found]. [Stopped] stands for
    the three refusals, each of which leaves the document as it was. *)
Definition apply_changes (data : document) (found : entry) (f : form)
  (new_ids : string * string) : outcome document :=
  let all_route_names := map route_name (build_polygons_from_data data) in
  match match_route_name (new_route_name f) with
  | None => Stopped
  | Some route_num =>
      if negb ((min_route <=? route_num) && (route_num <=? max_route)) then Stopped
      else if negb (String.eqb (new_route_name f) (route_name found))
              && bool_decide (new_route_name f ∈ all_route_names) then Stopped
      else
        match routingParameterUiVehicleDTOs data !! route_obj found with
        | None => Done data
        | Some route0 =>
            let zips_in_route := zips_in_route_of route0 in
            let route1 := set_name route0 (new_route_name f) in
            let route2 :=
              set_prefs route1
                (alter (fun p => set_zone_name p (new_zone_name f)) (pref_obj found)
                       (routingParameterUiVehiclePreferenceDTOs route1)) in
            let route3 := set_adjacentRoutes route2 (new_adj f) in
            let route4 := remove_zips (zip_to_remove f) (pref_obj found) route3 in
            bind (add_zips data (entry_zone_name found) zips_in_route
                           (zip_to_add f) new_ids route4)
                 (fun route5 =>
                    Done (set_routes data
                            (<[route_obj found := route5]>
                               (routingParameterUiVehicleDTOs data))))
        end
  end.

End Registry.
End Home.

(** ** pages/ Restructuration par FSA.py *)

Module Restructuration.
Import Geometry.
Section Codec.
Context {float : Type}.

(** This page's own [normalize_geom]. *)
Definition normalize_geom (geom : option (geometry float))
  : option (geometry float) :=
  match geom with
  | Some (GPolygon p) => Some (GPolygon p)
  | Some (GMultiPolygon ps) => Some (GMultiPolygon ps)
  | _ => None
  end.

End Codec.
End Restructuration.

(** ** pages/Creation configuration.py: the manual creator *)

Module Creation.
Import Geometry Document.
Section Creation.
Context {float : Type} {float_eq : EqDecision float}.
Variable fmt8 : float -> string.
(** [gdf[gdf["CFSAUID"].isin(fsas)].unary_union]; [None] when no row matches. *)
Variable unary_union : list string -> option (geometry float).
(** The identifiers drawn from [uuid4], by position. *)
Variable fresh_id : nat -> string.

(** A route of the form: its name and its postal codes. *)
Definition draft : Type := string * list string.

(** The body of [for i, route in enumerate(routes, start=1)]; [None] is the
    [continue] taken when no postal code is found. *)
Definition route_obj (i : nat) (d : draft) : option route :=
  let '(route_name, fsas) := d in
  match unary_union fsas with
  | None => None
  | Some merged_geom =>
      let poly_text := Home.polygon_to_text fmt8 merged_geom in
      Some (mk_route (fresh_id (3 * i)) None route_name EmptyString
              (RepFlag (Nat.eqb i 1)) EmptyString
              [mk_preference (fresh_id (3 * i + 1)) EmptyString
                 (Py.join "," fsas) EmptyString true
                 (Some (mk_zone (fresh_id (3 * i + 2)) (route_name +:+ "_ZONE")
                          poly_text EmptyString))
                 "1.0" 1])
  end.

Definition generate (prefix : string) (min_route max_route : Z)
  (routes : list draft) : document :=
  mk_document (fresh_id 0)
    (prefix +:+ "|" +:+ pretty min_route +:+ "|" +:+ pretty max_route)
    None
    (omap (fun '(i, d) => route_obj (S i) d) (imap pair routes))
    None.

End Creation.
End Creation.

(** ** app9.py and test_creatiob_from_scratch.py: routes from scratch *)

Module App9.
Import Geometry Document.
Section App9.
Context {float : Type} {float_eq : EqDecision float}.
(** [f"{x:.12f}"] *)
Variable fmt12 : float -> string.
(** [unary_union(gdf[gdf[fsa_col].isin(fsas)].geometry)] *)
Variable unary_union : list string -> geometry float.
(** [a.area < b.area] *)
Variable area_lt : polygon float -> polygon float -> bool.
Variable network_id : string.

(** [prefix, start_num, end_num = ("MONT", 1000, 1499)] *)
Definition prefix : string := "MONT".
Definition start_num : Z := 1000.

(** [max(parts, key=lambda g: g.area)]: the first part of greatest area. *)
Fixpoint max_by_area (best : polygon float) (parts : list (polygon float))
  : polygon float :=
  match parts with
  | [] => best
  | g :: rest => max_by_area (if area_lt best g then g else best) rest
  end.

Definition union_to_polygon (geom : geometry float) : outcome (geometry float) :=
  match geom with
  | GMultiPolygon [] => Raised ValueError
  | GMultiPolygon (g :: rest) => Done (GPolygon (max_by_area g rest))
  | _ => Done geom
  end.

Definition format_point12 (c : point float) : string :=
  fmt12 (fst c) +:+ "," +:+ fmt12 (snd c) +:+ ",0".

(** [geom.exterior] exists on a polygon only. *)
Definition polygon_to_str (geom : geometry float) : outcome string :=
  match geom with
  | GPolygon p =>
      Done (Py.join Home.CRLF (map format_point12 (exterior p)) +:+ Home.CRLF)
  | _ => Raised AttributeError
  end.

(** [st.session_state] *)
Record session : Type := mk_session
  { routes : list route; used_nums : list Z }.

Definition initial : session := mk_session [] [].

(** [while num in used_nums: num += route_number_gap] *)
Fixpoint next_num (fuel : nat) (num route_number_gap : Z) (used : list Z)
  : option Z :=
  match fuel with
  | O => None
  | S fuel' =>
      if bool_decide (num ∈ used)
      then next_num fuel' (num + route_number_gap) route_number_gap used
      else Some num
  end.

(** One press of the button. *)
Record press : Type := mk_press
  { selected_fsas : list string;
    route_number_gap : Z;
    uid : Z; poly_id : Z; pref_id : Z }.

(** The session after the press, and the route number it drew. The number
    is appended to [used_nums] before the text of the polygon is made, so an
    exception there leaves the number used. *)
Definition add_route (p : press) (st : session) : session * outcome Z :=
  match selected_fsas p with
  | [] => (st, Stopped)
  | _ =>
      match union_to_polygon (unary_union (selected_fsas p)) with
      | Done geom_union =>
          match next_num (S (length (used_nums st))) start_num
                         (route_number_gap p) (used_nums st) with
          | None => (st, Loops)
          | Some num =>
              let used := used_nums st ++ [num] in
              let route_name := prefix +:+ pretty num in
              match polygon_to_str geom_union with
              | Done polygon_coords =>
                  let route :=
                    mk_route (pretty (uid p)) (Some network_id) route_name
                      EmptyString (RepName EmptyString) EmptyString
                      [mk_preference (pretty (pref_id p)) (pretty (uid p))
                         (Py.join "," (selected_fsas p)) EmptyString true
                         (Some (mk_zone (pretty (poly_id p)) route_name
                                  polygon_coords network_id))
                         "1.0" 1] in
                  (mk_session (routes st ++ [route]) used, Done num)
              | Raised e => (mk_session (routes st) used, Raised e)
              | Stopped => (mk_session (routes st) used, Stopped)
              | Loops => (mk_session (routes st) used, Loops)
              end
          end
      | Raised e => (st, Raised e)
      | Stopped => (st, Stopped)
      | Loops => (st, Loops)
      end
  end.

(** A run of presses, with the number each one drew. *)
Fixpoint add_routes (ps : list press) (st : session)
  : session * list (outcome Z) :=
  match ps with
  | [] => (st, [])
  | p :: rest =>
      let '(st1, o) := add_route p st in
      let '(st2, os) := add_routes rest st1 in
      (st2, o :: os)
  end.

End App9.
End App9.

(** ** pages/Modifier plage routes bulk.py: the range remapper *)

Module Bulk.
Import Document.

(** [re.match(rf"{prefix}\d+", old_name)] *)
Definition matches_prefix (prefix old_name : string) : bool :=
  match Py.strip_prefix prefix old_name with
  | Some (String c _) => Py.isdigit c
  | _ => false
  end.

(** The separators of [re.split(r"[;,]", s)]. *)
Definition is_sep (c : ascii) : bool := Ascii.eqb c ";" || Ascii.eqb c ",".

(** [name_mapping.get(a, a)] *)
Definition remap (name_mapping : gmap string string) (a : string) : string :=
  default a (name_mapping !! a).

(** Step 2: the loop that fills [name_mapping]. *)
Fixpoint build_mapping (prefix : string) (route_gap : Z) (routes : list route)
  (name_mapping : gmap string string) (current_num : Z) : gmap string string :=
  match routes with
  | [] => name_mapping
  | route :: rest =>
      let old_name := name route in
      if matches_prefix prefix old_name then
        let new_name := prefix +:+ pretty current_num in
        build_mapping prefix route_gap rest
                      (<[old_name := new_name]> name_mapping)
                      (current_num + route_gap)
      else build_mapping prefix route_gap rest name_mapping current_num
  end.

(** Step 3: one pass of the renaming loop. *)
Definition rename_route (name_mapping : gmap string string) (route : route)
  : Document.route :=
  match name_mapping !! name route with
  | Some new_name =>
      if decide (new_name = name route) then route else set_name route new_name
  | None => route
  end.

(** Step 4, first half: the tokens of [adjacentRoutes], each remapped. *)
Definition adj_tokens (s : string) : list string :=
  filter (fun a => a <> EmptyString) (map Py.strip (Py.split_on is_sep s)).

Definition rewrite_adjacent (name_mapping : gmap string string) (route : route)
  : Document.route :=
  if Py.is_empty (adjacentRoutes route) then route
  else set_adjacentRoutes route
         (Py.join "," (map (remap name_mapping) (adj_tokens (adjacentRoutes route)))).

(** Step 4, second half: [route["representative"].strip()] is a method of
    [str]; on [True] the attribute lookup raises. *)
Definition rewrite_representative (name_mapping : gmap string string)
  (route : route) : outcome Document.route :=
  match representative route with
  | RepName s =>
      if Py.is_empty s then Done route
      else
        match name_mapping !! Py.strip s with
        | Some new_rep => Done (set_representative route (RepName new_rep))
        | None => Done route
        end
  | RepFlag true => Raised AttributeError
  | RepFlag false => Done route
  | RepNone => Done route
  end.

(** Step 5: a node label, split and joined again. *)
Definition rewrite_label (name_mapping : gmap string string) (n : node) : node :=
  if Py.is_empty (label n) then n
  else mk_node (node_id n)
         (Py.join "," (map (fun p => remap name_mapping (Py.strip p))
                           (Py.split_on is_sep (label n)))).

(** Step 7: the references of one field that name no route. *)
Definition broken_tokens (all_names : gset string) (field : string)
  : gset string :=
  list_to_set
    (filter (fun ref => ref <> EmptyString /\ ref ∉ all_names)
            (map Py.strip (Py.split_on is_sep field))).

(** [re.split] on the [representative] field: it wants a [str]. *)
Definition broken_representative (all_names : gset string) (v : rep_value)
  : outcome (gset string) :=
  match v with
  | RepName s =>
      if Py.is_empty s then Done ∅ else Done (broken_tokens all_names s)
  | RepFlag true => Raised TypeError
  | RepFlag false => Done ∅
  | RepNone => Done ∅
  end.

Definition broken_of_route (all_names : gset string) (route : route)
  : outcome (gset string) :=
  let adj :=
    if Py.is_empty (adjacentRoutes route) then ∅
    else broken_tokens all_names (adjacentRoutes route) in
  bind (broken_representative all_names (representative route))
       (fun rep => Done (adj ∪ rep)).

Definition broken_refs_of (data : document) : outcome (gset string) :=
  let all_names : gset string :=
    list_to_set (map name (routingParameterUiVehicleDTOs data)) in
  bind (for_each (broken_of_route all_names) (routingParameterUiVehicleDTOs data))
       (fun per_route =>
          let from_nodes :=
            match routingParameterNodeDTOs data with
            | Some nodes => map (fun n => broken_tokens all_names (label n)) nodes
            | None => []
            end in
          Done (⋃ per_route ∪ ⋃ from_nodes)).

Record report : Type := mk_report
  { data_out : document;
    updated_routes : list (string * string);
    broken_refs : gset string }.

(** The validity of the new range as the page checks it. *)
Definition valid_range (new_min new_max : Z) : bool :=
  if new_max <=? new_min then false
  else if (new_min <? 0) || (new_max <? 0) then false
  else true.

(** The whole of "Appliquer les changements". *)
Definition apply_changes (data : document) (new_min new_max : Z) (adjust : bool)
  : outcome report :=
  match parse_pattern (admissibleRoutePatterns data) with
  | None => Stopped
  | Some (prefix, _, _) =>
      if negb (valid_range new_min new_max) then Stopped
      else
        let route_gap := default 1 (routeNumberGap data) in
        let routes0 := routingParameterUiVehicleDTOs data in
        let pattern := prefix +:+ "|" +:+ pretty new_min +:+ "|" +:+ pretty new_max in
        let name_mapping := build_mapping prefix route_gap routes0 ∅ new_min in
        let routes1 := map (rename_route name_mapping) routes0 in
        let updated :=
          omap (fun r =>
                  match name_mapping !! name r with
                  | Some n => if decide (n = name r) then None else Some (name r, n)
                  | None => None
                  end) routes0 in
        bind (if adjust
              then for_each (fun r => rewrite_representative name_mapping
                                        (rewrite_adjacent name_mapping r)) routes1
              else Done routes1)
          (fun routes2 =>
             let nodes2 :=
               if adjust
               then option_map (map (rewrite_label name_mapping))
                               (routingParameterNodeDTOs data)
               else routingParameterNodeDTOs data in
             let data2 :=
               mk_document (doc_id data) pattern (routeNumberGap data) routes2 nodes2 in
             bind (broken_refs_of data2)
                  (fun broken => Done (mk_report data2 updated broken)))
  end.

End Bulk.

(** ** The geometry library's polygon constructor

    [Polygon(coords)] builds the shell with [shapely.linearrings]: a ring of
    three coordinates gets its first coordinate appended, a longer one gets
    it when the first and the last coordinate differ as numbers; fewer than
    four coordinates after that is a [ValueError], and a ring that GEOS does
    not find closed (its first coordinate holds a NaN, which differs from
    itself) is a [GEOSException]. *)

Module Shapely.
Import Geometry.
Section Constructor.
Context {float : Type}.
(** [a == b] on coordinates: IEEE equality. *)
Variable feq : float -> float -> bool.

Inductive error : Type := ValueError | GEOSException.

Definition same_xy (a b : point float) : bool :=
  feq (fst a) (fst b) && feq (snd a) (snd b).

Definition linearrings (coords : list (point float))
  : error + list (point float) :=
  match coords, last coords with
  | first :: _, Some l =>
      let ring_closure :=
        (length coords =? 3)%nat || negb (same_xy first l) in
      let ring := if ring_closure then coords ++ [first] else coords in
      if (length ring <? 4)%nat then inl ValueError
      else if same_xy first (if ring_closure then first else l) then inr ring
      else inl GEOSException
  | _, _ => inr []
  end.

(** [Polygon(coords)]: the shell and no holes, or the exception. *)
Definition Polygon (coords : list (point float)) : error + polygon float :=
  match linearrings coords with
  | inl e => inl e
  | inr ring => inr (mk_polygon ring [])
  end.

End Constructor.
End Shapely.

(** ** Home.py: [parse_polygon_text] with the library's constructor

    The loops are those of [Home.parse_polygon_text]; the call of
    [Polygon] in the outer loop is the library's, so the function can
    raise. *)

Module Decoder.
Import Geometry.
Section Codec.
Context {float : Type}.
Variable float_of_str : string -> option float.
Variable feq : float -> float -> bool.

(** The outer [for part in parts_raw] loop. *)
Fixpoint scan_parts (parts_raw : list string)
  (parts_latlon : list (list (point float))) (shapely_parts : list (polygon float))
  : Shapely.error + (list (list (point float)) * list (polygon float)) :=
  match parts_raw with
  | [] => inr (parts_latlon, shapely_parts)
  | part :: rest =>
      let '(coords_latlon, coords_lonlat) :=
        Home.scan_lines float_of_str (Home.lines_of part) [] [] in
      if (3 <=? length coords_lonlat)%nat then
        match Shapely.Polygon feq coords_lonlat with
        | inl e => inl e
        | inr p =>
            scan_parts rest (parts_latlon ++ [coords_latlon])
                            (shapely_parts ++ [p])
        end
      else scan_parts rest parts_latlon shapely_parts
  end.

Definition parse_polygon_text (coords_text : string)
  : Shapely.error + option (Home.parsed (float := float)) :=
  if Py.is_empty coords_text || Py.is_empty (Py.strip coords_text) then inr None
  else
    let parts_raw := Re.split_blank (Py.strip coords_text) in
    match scan_parts parts_raw [] [] with
    | inl e => inl e
    | inr (parts_latlon, shapely_parts) =>
        inr (match shapely_parts with
             | [] => None
             | [p] => Some (Home.mk_parsed parts_latlon (GPolygon p))
             | _ => Some (Home.mk_parsed parts_latlon (GMultiPolygon shapely_parts))
             end)
    end.

End Codec.
End Decoder.

(** ** pages/Creation configuration.py: the form that adds a route *)

Module CreationForm.
Import Document.
Section Form.
(** [str.upper] *)
Variable upper : string -> string.
(** [re.match(pattern, s) is not None]; [None] when the pattern does not
    compile. The page builds the pattern from what was typed as prefix. *)
Variable re_match : string -> string -> option bool.

(** [rf"^{prefix}(\d+)$"] *)
Definition name_pattern (prefix : string) : string :=
  "^" +:+ prefix +:+ "(\d+)$".

(** [re.findall(r"\d+", s)]'s first element: the first run of digits of
    [s], if it has a digit. *)
Definition first_digits (s : string) : option string :=
  let '(_, rest) := Py.span (fun c => negb (Py.isdigit c)) s in
  let '(digits, _) := Py.span Py.isdigit rest in
  if Py.is_empty digits then None else Some digits.

(** What the general parameters hold when the form is sent. *)
Record settings : Type := mk_settings
  { prefix_typed : string; min_route : Z; max_route : Z }.

(** The five error messages, and the two ways the script can break. *)
Inductive verdict : Type :=
| Added (routes : list Creation.draft)
| NameMissing
| NameMalformed
| NumberOutOfRange
| NameTaken
| NoFsa
| PatternError
| IndexError.

(** "Ajouter la route" with [name_typed] in the text field and
    [selected_fsas] chosen. *)
Definition add_route (s : settings) (name_typed : string)
  (selected_fsas : list string) (routes : list Creation.draft) : verdict :=
  let prefix := upper (Py.strip (prefix_typed s)) in
  let new_route_name := upper (Py.strip name_typed) in
  if Py.is_empty new_route_name then NameMissing
  else
    match re_match (name_pattern prefix) new_route_name with
    | None => PatternError
    | Some false => NameMalformed
    | Some true =>
        match first_digits new_route_name with
        | None => IndexError
        | Some digits =>
            let route_num := Py.digits_val digits 0 in
            if negb ((min_route s <=? route_num) && (route_num <=? max_route s))
            then NumberOutOfRange
            else if bool_decide (new_route_name ∈ map fst routes) then NameTaken
            else
              match selected_fsas with
              | [] => NoFsa
              | _ => Added (routes ++ [(new_route_name, selected_fsas)])
              end
        end
    end.

(** What the user does to the list of routes: send the form, or press
    "Réinitialiser toutes les routes". *)
Inductive action : Type :=
| Send (s : settings) (name_typed : string) (selected_fsas : list string)
| ResetAll.

(** [st.session_state.routes] after the action; a refused form and a
    script that breaks leave it as it was. *)
Definition act (a : action) (routes : list Creation.draft)
  : list Creation.draft :=
  match a with
  | Send s name_typed selected_fsas =>
      match add_route s name_typed selected_fsas routes with
      | Added routes' => routes'
      | _ => routes
      end
  | ResetAll => []
  end.

Definition run (actions : list action) : list Creation.draft :=
  fold_left (fun routes a => act a routes) actions [].

End Form.
End CreationForm.

(** ** app9.py and test_creatiob_from_scratch.py: relations and the final
    document *)

Module Relations.
Import Geometry Document.

(** [int(s)] in base ten: white space around, a sign, digits with single
    underscores between them. [None] stands for [ValueError]. *)
Fixpoint grouped_digits (s : string) (after_digit : bool) : bool :=
  match s with
  | EmptyString => after_digit
  | String c s' =>
      if Py.isdigit c then grouped_digits s' true
      else if Ascii.eqb c "_" then after_digit && grouped_digits s' false
      else false
  end.

Fixpoint drop_underscores (s : string) : string :=
  match s with
  | EmptyString => EmptyString
  | String c s' =>
      if Ascii.eqb c "_" then drop_underscores s'
      else String c (drop_underscores s')
  end.

Definition int_of_str (s : string) : option Z :=
  let '(neg, body) := Binary64.split_sign (Py.strip s) in
  if grouped_digits body false then
    let n := Py.digits_val (drop_underscores body) 0 in
    Some (if neg then - n else n)
  else None.

Section Relations.
Context {float : Type}.
(** [r["_geom"].contains(depot_point)] *)
Variable contains_depot : geometry float -> bool.
(** [distance_to_depot(a, depot_point) < distance_to_depot(b, depot_point)] *)
Variable nearer : geometry float -> geometry float -> bool.

(** A route of [st.session_state.routes]: the fields that are written to
    the document, and the entry [_geom], absent once it was popped. *)
Record staged : Type := mk_staged
  { staged_route : route; _geom : option (geometry float) }.

Inductive failure : Type :=
| KeyError (key : string)
| IndexError
| ValueError.

(** [min(l, key=...)]: the first element with the least key. *)
Fixpoint min_by {A : Type} (key : A -> geometry float) (best : A) (rest : list A)
  : A :=
  match rest with
  | [] => best
  | x :: rest' =>
      min_by key (if nearer (key x) (key best) then x else best) rest'
  end.

(** [sorted(l, key=...)]: stable, so an element goes behind those that are
    not farther than it is. *)
Fixpoint insert_by {A : Type} (key : A -> geometry float) (x : A) (l : list A)
  : list A :=
  match l with
  | [] => [x]
  | y :: l' =>
      if nearer (key x) (key y) then x :: l else y :: insert_by key x l'
  end.

Definition sorted_by {A : Type} (key : A -> geometry float) (l : list A)
  : list A :=
  fold_left (fun acc x => insert_by key x acc) l [].

(** One pass of [for i, r in enumerate(ordered)]. The routes are the
    objects of the session list, named here by their positions in it;
    [prev] is the position of [ordered[i - 1]]. *)
Definition relate (rep_name adjacent : string) (s : staged) : staged :=
  mk_staged
    (set_adjacentRoutes (set_representative (staged_route s) (RepName rep_name))
                        adjacent)
    None.

Fixpoint assign (rep_name : string) (ordered : list nat) (prev : option nat)
  (routes : list staged) : list staged :=
  match ordered with
  | [] => routes
  | i :: rest =>
      let adjacent :=
        match prev with
        | None => EmptyString
        | Some j => default EmptyString (name ∘ staged_route <$> routes !! j)
        end in
      assign rep_name rest (Some i) (alter (relate rep_name adjacent) i routes)
  end.

(** [compute_relations(routes, depot_point)] on a list that is not empty:
    the session list after it, or the exception it raises. *)
Definition compute_relations (routes : list staged) : failure + list staged :=
  match mapM _geom routes with
  | None => inl (KeyError "_geom")
  | Some geoms =>
      let keyed := zip_with pair routes geoms in
      let containing := filter (fun rg => contains_depot rg.2) keyed in
      let rep_name :=
        match containing, keyed with
        | rg :: _, _ => name (staged_route rg.1)
        | [], first :: rest => name (staged_route (min_by snd first rest).1)
        | [], [] => EmptyString
        end in
      let ordered := map fst (sorted_by snd (imap pair geoms)) in
      inr (assign rep_name ordered None routes)
  end.

(** The document "Générer la structure JSON complète" shows and offers for
    download: the fields of [document], and the derived lists. *)
Record network : Type := mk_network
  { net_document : document;
    routingParameterUiPolygonDTOs : list zone;
    routingParameterEdgeDTOs : list (Z * Z);
    nbVehicle : nat }.

(** [r["routingParameterUiVehiclePreferenceDTOs"][0]["routingParameterUiPolygonDTO"]] *)
Definition first_polygon (r : route) : failure + zone :=
  match routingParameterUiVehiclePreferenceDTOs r with
  | [] => inl IndexError
  | pref :: _ =>
      match routingParameterUiPolygonDTO pref with
      | Some z => inr z
      | None => inl (KeyError "routingParameterUiPolygonDTO")
      end
  end.

(** A comprehension whose element may raise. *)
Fixpoint collect {A B : Type} (f : A -> failure + B) (l : list A)
  : failure + list B :=
  match l with
  | [] => inr []
  | x :: rest =>
      match f x with
      | inl e => inl e
      | inr y =>
          match collect f rest with
          | inl e => inl e
          | inr ys => inr (y :: ys)
          end
      end
  end.

Definition node_of (r : route) : failure + node :=
  match int_of_str (id r) with
  | Some n => inr (mk_node n (name r))
  | None => inl ValueError
  end.

(** [{r["name"]: int(r["id"]) for r in routes}], given the nodes. *)
Definition name_to_id (nodes : list node) : gmap string Z :=
  fold_left (fun m n => <[label n := node_id n]> m) nodes ∅.

(** The edge a route contributes, if any. *)
Definition edge_of (name_to_id : gmap string Z) (r : route) (n : node)
  : option (Z * Z) :=
  if Py.is_empty (adjacentRoutes r) then None
  else (fun target => (node_id n, target)) <$> name_to_id !! adjacentRoutes r.

(** The press of the button: a warning and nothing else on an empty list;
    otherwise the session list after it and the document, or the session
    list as the exception leaves it. *)
Inductive generated : Type :=
| Warned
| Built (net : network)
| Broke (e : failure).

Definition generate (network_id admissible_patterns : string)
  (route_number_gap : Z) (routes : list staged) : list staged * generated :=
  match routes with
  | [] => (routes, Warned)
  | _ =>
      match compute_relations routes with
      | inl e => (routes, Broke e)
      | inr routes' =>
          let rs := map staged_route routes' in
          match collect first_polygon rs with
          | inl e => (routes', Broke e)
          | inr polygons =>
              match collect node_of rs with
              | inl e => (routes', Broke e)
              | inr nodes =>
                  let ids := name_to_id nodes in
                  let edges := omap (fun '(r, n) => edge_of ids r n) (zip_with pair rs nodes) in
                  (routes',
                   Built (mk_network
                            (mk_document network_id admissible_patterns
                               (Some route_number_gap) rs (Some nodes))
                            polygons edges (length rs)))
              end
          end
      end
  end.

End Relations.
Arguments staged : clear implicits.
Arguments network : clear implicits.
Arguments generated : clear implicits.

Section Session.
Context {float : Type} {float_eq : EqDecision float}.
Variable fmt12 : float -> string.
Variable unary_union : list string -> geometry float.
Variable area_lt : polygon float -> polygon float -> bool.
Variable network_id : string.

(** The session with the [_geom] entries of its routes, route by route. *)
Definition stage : Type := App9.session * list (option (geometry float)).

(** A press of "Ajouter la route": the new route carries its geometry. *)
Definition add_route (p : App9.press) (st : stage) : stage * outcome Z :=
  let '(session, geoms) := st in
  let '(session', o) :=
    App9.add_route fmt12 unary_union area_lt network_id p session in
  match o, App9.union_to_polygon area_lt (unary_union (App9.selected_fsas p)) with
  | Done _, Done geom_union => ((session', geoms ++ [Some geom_union]), o)
  | _, _ => ((session', geoms), o)
  end.

Definition staged_routes (st : stage) : list (staged float) :=
  zip_with mk_staged (App9.routes st.1) st.2.

(** The session list put back after the button mutated its routes. *)
Definition restage (st : stage) (routes : list (staged float)) : stage :=
  (App9.mk_session (map staged_route routes) (App9.used_nums st.1),
   map _geom routes).

End Session.
Arguments stage : clear implicits.
End Relations.

(** ** pages/ Restructuration par FSA.py: the recalculation of the zones *)

Module Reshape.
Import Geometry Document.

(** The value under [routingParameterUiPolygonDTO]: the key may be missing,
    and a value that is no object cannot take an item. An object is given by
    its fields, all of them text. *)
Inductive dto : Type :=
| Absent
| NotObject
| Object (fields : gmap string string).

(** A preference as this page sees it: [str(pref.get("zip", ""))] and the
    polygon object. *)
Record pref : Type := mk_pref { pref_zip : string; pref_dto : dto }.

Record route : Type := mk_route { route_name : string; route_prefs : list pref }.

Global Instance dto_eq : EqDecision dto.
Proof. solve_decision. Defined.
Global Instance pref_eq : EqDecision pref.
Proof. solve_decision. Defined.
Global Instance reshape_route_eq : EqDecision route.
Proof. solve_decision. Defined.

(** The view of a preference of the configuration document. *)
Definition of_zone (z : zone) : gmap string string :=
  {[ "id" := zone_id z; "name" := zone_name z;
     "polygonCoordinates" := polygonCoordinates z;
     "routingParameterId" := zone_routingParameterId z ]}.

Definition of_preference (p : preference) : pref :=
  mk_pref (zip p)
    (match routingParameterUiPolygonDTO p with
     | Some z => Object (of_zone z)
     | None => Absent
     end).

Definition of_route (r : Document.route) : route :=
  mk_route (name r) (map of_preference (routingParameterUiVehiclePreferenceDTOs r)).

Section Reshape.
Context {float : Type}.
Variable fmt8 : float -> string.
Variable upper : string -> string.
(** [gdf[gdf["CFSAUID"].isin(zips)].geometry.union_all()]; [None] when no
    row matches ([fsa_match.empty]). *)
Variable union_all : list string -> option (geometry float).

(** What the loop body does with one preference. *)
Inductive step : Type :=
| Skipped
| Errored
| Rewritten (poly_text : string) (merged_norm : geometry float).

Definition recalculate (p : pref) : step :=
  match Home.zips_of upper (pref_zip p) with
  | [] => Skipped
  | zips =>
      match union_all zips with
      | None => Errored
      | Some merged_geom =>
          match Restructuration.normalize_geom (Some merged_geom) with
          | None => Errored
          | Some merged_norm =>
              if Geometry.is_empty merged_norm then Errored
              else Rewritten (Home.polygon_to_text fmt8 merged_norm) merged_norm
          end
      end
  end.

(** [pref.setdefault("routingParameterUiPolygonDTO", {})] and the item
    assignment; [None] stands for the [TypeError] of a value that is no
    object. *)
Definition write_coordinates (p : pref) (poly_text : string) : option pref :=
  match pref_dto p with
  | Absent =>
      Some (mk_pref (pref_zip p) (Object {[ "polygonCoordinates" := poly_text ]}))
  | Object fields =>
      Some (mk_pref (pref_zip p)
                    (Object (<["polygonCoordinates" := poly_text]> fields)))
  | NotObject => None
  end.

(** The counters and the list the loop fills. *)
Record tally : Type := mk_tally
  { new_polygons : list (string * geometry float);
    updated : nat;
    errors : nat }.

Definition no_tally : tally := mk_tally [] 0 0.

(** The inner loop over the preferences of the route named [rname]. *)
Fixpoint reshape_prefs (rname : string) (prefs : list pref) (t : tally)
  : outcome (list pref * tally) :=
  match prefs with
  | [] => Done ([], t)
  | p :: rest =>
      match recalculate p with
      | Skipped =>
          bind (reshape_prefs rname rest t)
               (fun '(rest', t') => Done (p :: rest', t'))
      | Errored =>
          bind (reshape_prefs rname rest
                  (mk_tally (new_polygons t) (updated t) (S (errors t))))
               (fun '(rest', t') => Done (p :: rest', t'))
      | Rewritten poly_text merged_norm =>
          match write_coordinates p poly_text with
          | None => Raised TypeError
          | Some p' =>
              bind (reshape_prefs rname rest
                      (mk_tally (new_polygons t ++ [(rname, merged_norm)])
                                (S (updated t)) (errors t)))
                   (fun '(rest', t') => Done (p' :: rest', t'))
          end
      end
  end.

(** The outer loop over the routes. *)
Fixpoint reshape_routes (routes : list route) (t : tally)
  : outcome (list route * tally) :=
  match routes with
  | [] => Done ([], t)
  | r :: rest =>
      bind (reshape_prefs (route_name r) (route_prefs r) t)
           (fun '(prefs', t1) =>
              bind (reshape_routes rest t1)
                   (fun '(rest', t2) =>
                      Done (mk_route (route_name r) prefs' :: rest', t2)))
  end.

(** "Recalculer les zones et afficher la carte": the modified copy of the
    document and what is stored in the session. *)
Definition reshape (routes : list route) : outcome (list route * tally) :=
  reshape_routes routes no_tally.


End Reshape.
End Reshape.

(** ** Concrete inputs *)

Module Samples.
Import Geometry Document.

(** [float(s)] of a literal. *)
Definition fl (s : string) : Binary64.float :=
  default S754_nan (Binary64.float_of_str s).

Definition pt (x y : string) : point Binary64.float := (fl x, fl y).

(** The unit square with its corner at the origin, as a shell. *)
Definition unit_square : polygon Binary64.float :=
  Polygon [pt "0" "0"; pt "1" "0"; pt "1" "1"; pt "0" "1"].

(** A boundary table in which every postal code is the unit square. *)
Definition square_table (zips : list string) : option (geometry Binary64.float) :=
  match zips with [] => None | _ => Some (GPolygon unit_square) end.

(** A document of the manual creator: two routes, one postal code each. *)
Definition manual_config : document :=
  Creation.generate Binary64.fmt8 square_table pretty "MONT" 1500 1520
    [("MONT1500", ["H9S"]); ("MONT1501", ["H9T"])].

Definition bare_route (n adj : string) (rep : rep_value) : route :=
  mk_route n None n adj rep EmptyString [].

(** Routes 1500, 1505, 1510 under the pattern MONT|1500|1999 with gap 5,
    each adjacent to the one before it, all represented by the first. *)
Definition three_routes : document :=
  mk_document "4485" "MONT|1500|1999" (Some 5)
    [bare_route "MONT1500" "" (RepName "MONT1500");
     bare_route "MONT1505" "MONT1500" (RepName "MONT1500");
     bare_route "MONT1510" "MONT1505" (RepName "MONT1500")]
    (Some [mk_node 1 "MONT1500"; mk_node 2 "MONT1505"; mk_node 3 "MONT1510"]).

(** Two routes that carry the same name. *)
Definition twin_routes : document :=
  mk_document "4485" "MONT|1500|1999" (Some 5)
    [bare_route "MONT1500" "" (RepName "MONT1500");
     bare_route "MONT1500" "" (RepName "MONT1500")]
    None.

(** One route whose adjacency names a route that does not exist. *)
Definition dangling_2000 : document :=
  mk_document "4485" "MONT|1500|1999" (Some 5)
    [bare_route "MONT1500" "MONT2000" (RepName "MONT1500")]
    None.

Definition dangling_9999 : document :=
  mk_document "4485" "MONT|1500|1999" (Some 5)
    [bare_route "MONT1500" "MONT9999" (RepName "MONT1500")]
    None.

(** [str.upper] on ASCII text. *)
Fixpoint upper_ascii (s : string) : string :=
  match s with
  | String c s' =>
      let n := N_of_ascii c in
      String (if ((97 <=? n) && (n <=? 122))%N then ascii_of_N (n - 32) else c)
             (upper_ascii s')
  | EmptyString => EmptyString
  end.

Definition square_text : string :=
  Home.polygon_to_text Binary64.fmt8 (GPolygon unit_square).

Definition zoned_route (rid n adj zone zips : string) : route :=
  mk_route rid (Some "4485") n adj (RepName "MONT1500") EmptyString
    [mk_preference (rid +:+ "1") rid zips EmptyString true
       (Some (mk_zone (rid +:+ "2") zone square_text "4485")) "1.0" 1].

(** Two routes with one zone each, as the editor loads them. *)
Definition loaded : document :=
  mk_document "4485" "MONT|1500|1999" (Some 5)
    [zoned_route "152400" "MONT1500" "" "Zone A" "H9S";
     zoned_route "152405" "MONT1505" "MONT1500" "Zone B" "H9T"]
    None.

Definition loaded_polygons : list (Home.entry (float := Binary64.float)) :=
  Home.build_polygons_from_data Binary64.float_of_str loaded.

(** The entry a click on the first zone finds. *)
Definition first_zone : Home.entry (float := Binary64.float) :=
  match loaded_polygons with
  | e :: _ => e
  | [] => Home.mk_entry 0 0 "" "" "" [] (GPolygon unit_square)
  end.

End Samples.

(** ** The definitions at work *)

Module Behaviour.
Import Geometry Document.

Definition LF : string := String Py.LF EmptyString.
Definition CRLF : string := Home.CRLF.

Example strip_both_ends : Py.strip "  a b  " = "a b".
Proof. reflexivity. Qed.

Example split_keeps_empty_pieces :
  Py.split_on (Ascii.eqb ",") "1,,2," = ["1"; ""; "2"; ""].
Proof. reflexivity. Qed.

Example splitlines_no_last_empty_line :
  Py.splitlines ("a" +:+ CRLF +:+ LF +:+ "b" +:+ LF) = ["a"; ""; "b"].
Proof. reflexivity. Qed.

Example blank_line_with_spaces_separates :
  Re.split_blank ("a" +:+ CRLF +:+ "  " +:+ CRLF +:+ LF +:+ "b" +:+ LF +:+ "c")
  = ["a"; "b" +:+ LF +:+ "c"].
Proof. reflexivity. Qed.

Example match_stops_at_last_line_feed :
  Re.split_blank ("a" +:+ LF +:+ LF +:+ " b") = ["a"; " b"].
Proof. reflexivity. Qed.

Example eight_decimals :
  map (fun s => Binary64.fmt8 (Samples.fl s))
      ["0.123456789"; "-73.5673"; "0.001953125"; "-1e-10"; "1e400"]
  = ["0.12345679"; "-73.56730000"; "0.00195312"; "-0.00000000"; "inf"].
Proof. vm_compute. reflexivity. Qed.

Example twelve_decimals :
  Binary64.fmt12 (Samples.fl "45.50270149065861") = "45.502701490659".
Proof. vm_compute. reflexivity. Qed.

Example not_numbers :
  map Binary64.float_of_str ["abc"; "1.5x"; "."; "1e"; ""] = [None; None; None; None; None].
Proof. vm_compute. reflexivity. Qed.

(** Single underscores between digits are read through; any other
    underscore makes the text no number. *)
Example grouped_digits_read :
  map Binary64.float_of_str ["1_0"; "1_0.2_5e0_1"]
  = map Binary64.float_of_str ["10"; "10.25e1"]
  /\ map Binary64.float_of_str ["1__0"; "_1"; "1_"; "1_.5"; "1._5"; "1e_5"]
     = [None; None; None; None; None; None].
Proof. split; vm_compute; reflexivity. Qed.

(** [x == y] on a NaN and on the two zeros. *)
Example nan_differs_from_itself :
  Binary64.eqb (Samples.fl "nan") (Samples.fl "nan") = false
  /\ Binary64.eqb (Samples.fl "-0.0") (Samples.fl "0") = true.
Proof. split; vm_compute; reflexivity. Qed.

(** A part with a word, a line of one field and a line whose latitude is
    no number, between three good lines. *)
Example malformed_lines_are_skipped :
  option_map (fun r => rings (Home.shapely r))
    (Home.parse_polygon_text Binary64.float_of_str
       ("0,0" +:+ CRLF +:+ "bad" +:+ CRLF +:+ "1,0,5" +:+ CRLF +:+ "7"
        +:+ CRLF +:+ "1,x" +:+ CRLF +:+ " 1 , 1 "))
  = Some [[Samples.pt "0" "0"; Samples.pt "1" "0"; Samples.pt "1" "1";
           Samples.pt "0" "0"]].
Proof. vm_compute. reflexivity. Qed.

(** A part of two points before a part of three. *)
Example short_part_is_dropped :
  option_map (fun r => rings (Home.shapely r))
    (Home.parse_polygon_text Binary64.float_of_str
       ("0,0" +:+ LF +:+ "5,5" +:+ LF +:+ LF
        +:+ "0,0" +:+ LF +:+ "1,0" +:+ LF +:+ "1,1"))
  = Some [[Samples.pt "0" "0"; Samples.pt "1" "0"; Samples.pt "1" "1";
           Samples.pt "0" "0"]].
Proof. vm_compute. reflexivity. Qed.

Example nothing_survives :
  Home.parse_polygon_text Binary64.float_of_str ("0,0" +:+ LF +:+ "5,5") = None.
Proof. vm_compute. reflexivity. Qed.

Example pattern_read :
  parse_pattern "MONT|1500|1999" = Some ("MONT", 1500, 1999).
Proof. reflexivity. Qed.

(** The pattern MONT|1500|1999 refuses the name MONT2000. *)
Example name_out_of_range :
  Home.apply_changes Binary64.float_of_str Binary64.fmt8 Samples.upper_ascii
    Samples.square_table "MONT" 1500 1999 Samples.loaded Samples.first_zone
    (Home.mk_form "MONT2000" "Zone A" "" "" "") ("900", "901")
  = Stopped.
Proof. vm_compute. reflexivity. Qed.

End Behaviour.

(** * Properties *)

(** ** Text: splitting, joining and stripping *)

Module Text.
Import Py.

Lemma sapp_cons c s t : String c s +:+ t = String c (s +:+ t).
Proof. reflexivity. Qed.

Lemma sapp_nil_l t : EmptyString +:+ t = t.
Proof. reflexivity. Qed.

Lemma all_chars_app p s t :
  all_chars p (s +:+ t) = all_chars p s && all_chars p t.
Proof.
  induction s as [|c s IH]; [done|]. rewrite sapp_cons. simpl.
  by rewrite IH, andb_assoc.
Qed.

Lemma all_chars_impl (p q : ascii -> bool) s :
  (forall c, p c = true -> q c = true) ->
  all_chars p s = true -> all_chars q s = true.
Proof.
  intros Hpq. induction s as [|c s IH]; [done|]. simpl.
  intros [Hc Hs]%andb_true_iff. by rewrite (Hpq c Hc), IH.
Qed.

Lemma is_empty_true s : is_empty s = true -> s = EmptyString.
Proof. by destruct s. Qed.

(** Characters by class: a fact about every character is checked on the
    256 of them. *)
Ltac each_char c := destruct c as [[] [] [] [] [] [] [] []]; by vm_compute.


Lemma digit_not_space c : isdigit c = true -> isspace c = false.
Proof. each_char c. Qed.

Lemma AZ_not_space c : isAZ c = true -> isspace c = false.
Proof. each_char c. Qed.






(** *** [split] and [join] *)

(** Splitting always yields a piece. *)
Lemma split_on_nonempty p s : split_on p s <> [].
Proof. induction s as [|c s IH]; simpl; [done|]. by repeat case_match. Qed.

Lemma split_on_none p s :
  all_chars (fun c => negb (p c)) s = true -> split_on p s = [s].
Proof.
  induction s as [|c s IH]; [done|]. simpl.
  intros [Hc Hs]%andb_true_iff. apply negb_true_iff in Hc.
  by rewrite Hc, IH.
Qed.

Lemma split_on_app_sep p s c t :
  all_chars (fun c => negb (p c)) s = true -> p c = true ->
  split_on p (s +:+ String c t) = s :: split_on p t.
Proof.
  intros Hs Hc. induction s as [|a s IH]; simpl.
  - by rewrite Hc.
  - simpl in Hs. apply andb_true_iff in Hs as [Ha Hs].
    apply negb_true_iff in Ha. rewrite ?sapp_cons. simpl.
    by rewrite Ha, IH.
Qed.

(** No piece holds a separator. *)
Lemma split_on_pieces p s :
  Forall (fun w => all_chars (fun c => negb (p c)) w = true) (split_on p s).
Proof.
  induction s as [|c s IH]; simpl; [by repeat constructor|].
  destruct (p c) eqn:Hc; [by constructor|].
  destruct (split_on p s) as [|w ws]; [by repeat constructor; simpl; rewrite Hc|].
  apply Forall_cons in IH as [Hw Hws]. constructor; [|done].
  simpl. by rewrite Hc, Hw.
Qed.

(** Joining with a separator character and splitting on it undo each
    other, as long as no piece holds a separator. *)
Lemma split_on_join p c l :
  p c = true -> l <> [] ->
  Forall (fun w => all_chars (fun c => negb (p c)) w = true) l ->
  split_on p (join (String c EmptyString) l) = l.
Proof.
  intros Hc Hne Hl. induction Hl as [|w l Hw Hl IH]; [done|].
  destruct l as [|w' l'].
  - simpl. by apply split_on_none.
  - change (join (String c EmptyString) (w :: w' :: l'))
      with (w +:+ String c EmptyString +:+ join (String c EmptyString) (w' :: l')).
    rewrite sapp_cons, sapp_nil_l, split_on_app_sep by done.
    f_equal. by apply IH.
Qed.

(** *** [strip] *)

Lemma lstrip_head c s : isspace c = false -> lstrip (String c s) = String c s.
Proof. intros H. simpl. by rewrite H. Qed.

Lemma rstrip_idem s : rstrip (rstrip s) = rstrip s.
Proof.
  induction s as [|c s IH]; [done|]. simpl.
  destruct (rstrip s) as [|d r] eqn:E.
  - destruct (isspace c) eqn:Hc; [done|]. simpl. by rewrite Hc.
  - simpl. simpl in IH. by rewrite IH.
Qed.



(** A string without white space is its own strip. *)
Lemma rstrip_no_space s :
  all_chars (fun c => negb (isspace c)) s = true -> rstrip s = s.
Proof.
  induction s as [|c s IH]; [done|]. simpl.
  intros [Hc Hs]%andb_true_iff. apply negb_true_iff in Hc.
  rewrite IH by done. destruct s; [by rewrite Hc|done].
Qed.

Lemma strip_no_space s :
  all_chars (fun c => negb (isspace c)) s = true -> strip s = s.
Proof.
  intros H. unfold strip. destruct s as [|c s]; [done|].
  pose proof H as H'. simpl in H'. apply andb_true_iff in H' as [Hc _].
  apply negb_true_iff in Hc. rewrite lstrip_head by done.
  by apply rstrip_no_space.
Qed.

(** What [lstrip] leaves is empty or starts with a character that is
    not white space. *)
Lemma lstrip_starts s :
  lstrip s = EmptyString
  \/ exists c s', lstrip s = String c s' /\ isspace c = false.
Proof.
  induction s as [|c s IH]; [by left|]. simpl.
  destruct (isspace c) eqn:Hc; [done|]. right. by exists c, s.
Qed.

Lemma rstrip_starts c s :
  isspace c = false -> exists s', rstrip (String c s) = String c s'.
Proof.
  intros Hc. simpl. destruct (rstrip s); [|by eexists].
  rewrite Hc. by eexists.
Qed.

Lemma strip_idem s : strip (strip s) = strip s.
Proof.
  unfold strip. destruct (lstrip_starts s) as [->|(c & s' & -> & Hc)]; [done|].
  destruct (rstrip_starts c s' Hc) as [s'' E]. rewrite E.
  rewrite lstrip_head by done. rewrite <- E. apply rstrip_idem.
Qed.

Lemma all_chars_lstrip p s : all_chars p s = true -> all_chars p (lstrip s) = true.
Proof.
  induction s as [|c s IH]; [done|]. simpl.
  intros [Hc Hs]%andb_true_iff. destruct (isspace c); [by apply IH|].
  simpl. by rewrite Hc, Hs.
Qed.

Lemma all_chars_rstrip p s : all_chars p s = true -> all_chars p (rstrip s) = true.
Proof.
  induction s as [|c s IH]; [done|]. simpl.
  intros [Hc Hs]%andb_true_iff. specialize (IH Hs).
  destruct (rstrip s); [destruct (isspace c); simpl; by rewrite ?Hc|].
  simpl. simpl in IH. by rewrite Hc, IH.
Qed.

Lemma all_chars_strip p s : all_chars p s = true -> all_chars p (strip s) = true.
Proof. intros H. by apply all_chars_rstrip, all_chars_lstrip. Qed.

(** *** The text of an integer *)

Lemma pretty_N_char_digit x : isdigit (pretty_N_char x) = true.
Proof. unfold pretty_N_char. by repeat case_match. Qed.

Lemma pretty_N_go_chars p x s :
  (forall c, isdigit c = true -> p c = true) ->
  all_chars p s = true -> all_chars p (pretty_N_go x s) = true.
Proof.
  intros Hp. revert s. induction (N.lt_wf_0 x) as [x _ IH]. intros s Hs.
  destruct (decide (0 < x)%N) as [Hx|Hx].
  - rewrite pretty_N_go_step by done. apply IH; [by apply N.div_lt|].
    simpl. by rewrite Hp, Hs by apply pretty_N_char_digit.
  - assert (x = 0%N) as -> by lia. by rewrite pretty_N_go_0.
Qed.

Lemma pretty_N_chars p (x : N) :
  (forall c, isdigit c = true -> p c = true) -> all_chars p (pretty x) = true.
Proof.
  intros Hp. unfold pretty, pretty_N. case_decide.
  - simpl. by rewrite Hp.
  - by apply pretty_N_go_chars.
Qed.

Lemma pretty_Z_chars p (x : Z) :
  (forall c, isdigit c = true -> p c = true) -> p "-"%char = true ->
  all_chars p (pretty x) = true.
Proof.
  intros Hp Hm. unfold pretty, pretty_Z. destruct x as [|x|x].
  - simpl. by rewrite Hp.
  - by apply (pretty_N_chars p (N.pos x)).
  - rewrite sapp_cons, sapp_nil_l. simpl. rewrite Hm. simpl.
    by apply (pretty_N_chars p (N.pos x)).
Qed.

Lemma pretty_N_go_nonempty x s : s <> EmptyString -> pretty_N_go x s <> EmptyString.
Proof.
  revert s. induction (N.lt_wf_0 x) as [x _ IH]. intros s Hs.
  destruct (decide (0 < x)%N) as [Hx|Hx].
  - rewrite pretty_N_go_step by done. apply IH; [by apply N.div_lt|done].
  - assert (x = 0%N) as -> by lia. by rewrite pretty_N_go_0.
Qed.

Lemma pretty_Z_nonempty (x : Z) : pretty x <> EmptyString.
Proof.
  unfold pretty, pretty_Z. destruct x as [|x|x]; [done| |done].
  unfold pretty, pretty_positive, pretty, pretty_N. case_decide; [done|].
  rewrite pretty_N_go_step by lia. by apply pretty_N_go_nonempty.
Qed.

(** *** [span] *)

Lemma span_all p s a b : span p s = (a, b) -> all_chars p a = true.
Proof.
  revert a b. induction s as [|c s IH]; intros a b H; simpl in H.
  - by simplify_eq.
  - destruct (p c) eqn:Hc; [|by simplify_eq].
    destruct (span p s) as [a' b'] eqn:E. simplify_eq. simpl.
    rewrite Hc. by eapply IH.
Qed.

End Text.

(** ** Searching the first free candidate *)

Module Search.

(** A list cannot hold more distinct candidates than it has elements. *)
Lemma pigeonhole {A : Type} (cand : nat -> A) (used : list A) :
  Inj (=) (=) cand ->
  ~ (forall j, (j < S (length used))%nat -> cand j ∈ used).
Proof.
  intros Hinj Hall.
  assert (Hsub : (cand <$> seq 0 (S (length used))) ⊆+ used).
  { apply NoDup_submseteq.
    - apply NoDup_fmap_2; [done|]. apply NoDup_seq.
    - intros x Hx. apply list_elem_of_fmap in Hx as (j & -> & Hj).
      apply elem_of_seq in Hj. apply Hall. lia. }
  apply submseteq_length in Hsub.
  rewrite length_fmap, length_seq in Hsub. lia.
Qed.

End Search.

(** ** Normalisation of a merge result *)

Module NormalizeProps.
Import Geometry.
Section NormalizeProps.
Context {float : Type} {float_eq : EqDecision float}.

(** The polygons a member of a collection contributes. *)
Definition polygonal (g : geometry float) : list (polygon float) :=
  match g with
  | GPolygon p => [p]
  | GMultiPolygon ps => ps
  | _ => []
  end.

(** One polygon stays a polygon, several become a multi-polygon, none is
    no geometry. *)
Definition rewrap (polys : list (polygon float)) : option (geometry float) :=
  match polys with
  | [] => None
  | [p] => Some (GPolygon p)
  | _ => Some (GMultiPolygon polys)
  end.

Lemma collect_polys_app (members : list (geometry float)) polys :
  Home.collect_polys members polys = polys ++ flat_map polygonal members.
Proof.
  revert polys. induction members as [|g rest IH]; intros polys; simpl.
  - by rewrite app_nil_r.
  - destruct g; simpl; rewrite IH; try done; by rewrite <- app_assoc.
Qed.

(** Home.py's [normalize_geom]: polygons and multi-polygons pass through;
    of anything else only the polygonal members are kept, nested
    multi-polygons flattened. *)
Lemma home_normalize_geom_spec (g : geometry float) :
  Home.normalize_geom (Some g) =
  match g with
  | GPolygon _ | GMultiPolygon _ => Some g
  | _ => rewrap (flat_map polygonal (geoms g))
  end.
Proof.
  destruct g; simpl; try done; rewrite collect_polys_app; simpl;
    by repeat case_match.
Qed.

Lemma home_normalize_geom_idempotent (g : option (geometry float)) :
  Home.normalize_geom (Home.normalize_geom g) = Home.normalize_geom g.
Proof.
  destruct g as [g|]; [|done]. rewrite home_normalize_geom_spec.
  destruct g; simpl; try done;
    destruct (flat_map _ _) as [|p [|q l]]; done.
Qed.

(** C3: normalize passes polygons and multi-polygons through and, on a
    collection, keeps exactly the polygonal members. Home.py does this; the
    copy in "Restructuration par FSA.py" answers [None] on every collection.
    The two are run here on a collection made of one polygon and one point. *)
Theorem normalize_geom_collection_dropped (p : polygon float) (pt : point float) :
  let g := GeometryCollection [GPolygon p; GPoint pt] in
  Home.normalize_geom (Some g) = Some (GPolygon p)
  /\ Restructuration.normalize_geom (Some g) = None.
Proof. split; reflexivity. Qed.

End NormalizeProps.
End NormalizeProps.

(** ** The coordinate text *)

Module CodecProps.
Import Py Text Geometry Home.

(** *** Lines and parts of an encoded geometry *)


(** Lines without white space, each but the last ended by CR LF: the shape
    of an encoded ring. *)
Inductive tight : string -> Prop :=
| tight_last c :
    isspace c = false -> tight (String c EmptyString)
| tight_more c s :
    isspace c = false -> tight s -> tight (String c s)
| tight_break c s :
    isspace c = false -> tight s ->
    tight (String c (String CR (String LF s))).



Lemma tight_nonempty s : tight s -> s <> EmptyString.
Proof. by destruct 1. Qed.







(** *** [splitlines] on an encoded ring *)





(** *** The blank-line split on an encoded geometry *)














Section Codec.
Context {float : Type} {float_eq : EqDecision float}.
Variable float_of_str : string -> option float.
Variable fmt8 : float -> string.

Local Abbreviation decode := (parse_polygon_text float_of_str).
Local Abbreviation encode := (polygon_to_text fmt8).
Local Abbreviation line_point := (parse_line float_of_str).

(** *** Lenient decoding *)

Definition swap (c : point float) : point float := (snd c, fst c).

(** The points of a part: those of its lines that read as a point, in
    order. *)
Definition valid_points (part : string) : list (point float) :=
  omap line_point (lines_of part).

(** The parts that give at least three points. *)
Definition surviving (coords_text : string) : list (list (point float)) :=
  filter (fun pts => (3 <= length pts)%nat)
         (map valid_points (Re.split_blank (strip coords_text))).

Lemma scan_lines_spec lines a b :
  scan_lines float_of_str lines a b
  = (a ++ map swap (omap line_point lines), b ++ omap line_point lines).
Proof.
  revert a b. induction lines as [|l ls IH]; intros a b; simpl.
  - by rewrite !app_nil_r.
  - destruct (line_point l) as [[lon lat]|]; [|done].
    rewrite IH. simpl. by rewrite <- !app_assoc.
Qed.

Lemma scan_parts_spec parts_raw pl sp :
  scan_parts float_of_str parts_raw pl sp
  = (pl ++ map (map swap)
             (filter (fun pts => (3 <= length pts)%nat)
                     (map valid_points parts_raw)),
     sp ++ map Polygon
             (filter (fun pts => (3 <= length pts)%nat)
                     (map valid_points parts_raw))).
Proof.
  revert pl sp. induction parts_raw as [|p ps IH]; intros pl sp; simpl.
  - by rewrite !app_nil_r.
  - rewrite scan_lines_spec. simpl. fold (valid_points p).
    rewrite filter_cons.
    destruct (length (valid_points p)) as [|[|[|n]]] eqn:E.
    1-3: by rewrite decide_False by lia; rewrite IH.
    rewrite decide_True by lia. rewrite IH. simpl. by rewrite <- !app_assoc.
Qed.

(** The decoder, read as a filter over the parts of the text. *)
Lemma decode_surviving coords_text :
  decode coords_text
  = match surviving coords_text with
    | [] => None
    | [pts] => Some (mk_parsed [map swap pts] (GPolygon (Polygon pts)))
    | parts =>
        Some (mk_parsed (map (map swap) parts)
                        (GMultiPolygon (map Polygon parts)))
    end.
Proof.
  unfold parse_polygon_text, surviving.
  destruct (Py.is_empty coords_text || Py.is_empty (strip coords_text)) eqn:E.
  - assert (Hs : strip coords_text = EmptyString).
    { apply orb_true_iff in E as [E|E]; apply is_empty_true in E;
        [by rewrite E|done]. }
    by rewrite Hs.
  - rewrite scan_parts_spec. simpl.
    by destruct (filter _ _) as [|p [|q l]].
Qed.

(** The decoder with the shell taken as a container is lenient: a line is
    skipped exactly when it has fewer than two fields between commas that
    are not blank, or when the first or the second of them is no number; a
    skipped line costs the part nothing but itself; a part with fewer than
    three points is dropped; one surviving part gives a polygon, several
    give a multi-polygon of all of them, none gives [None]. With the
    library's constructor the decoder can raise: see
    [CodecMore.decode_raises_on_nan]. *)
Theorem decode_lenient :
  (forall line,
     line_point line = None
     <-> (length (fields_of line) < 2)%nat
         \/ float_of_str (nth 0 (fields_of line) EmptyString) = None
         \/ float_of_str (nth 1 (fields_of line) EmptyString) = None)
  /\ (forall line lon lat,
        line_point line = Some (lon, lat)
        <-> (2 <= length (fields_of line))%nat
            /\ float_of_str (nth 0 (fields_of line) EmptyString) = Some lon
            /\ float_of_str (nth 1 (fields_of line) EmptyString) = Some lat)
  /\ (forall before bad after,
        line_point bad = None ->
        scan_lines float_of_str (before ++ bad :: after) [] []
        = scan_lines float_of_str (before ++ after) [] [])
  /\ (forall lines,
        scan_lines float_of_str lines [] []
        = (map swap (omap line_point lines), omap line_point lines))
  /\ (forall coords_text,
        decode coords_text
        = match surviving coords_text with
          | [] => None
          | [pts] => Some (mk_parsed [map swap pts] (GPolygon (Polygon pts)))
          | parts =>
              Some (mk_parsed (map (map swap) parts)
                              (GMultiPolygon (map Polygon parts)))
          end).
Proof.
  split; [|split; [|split; [|split]]].
  - intros line. unfold parse_line.
    destruct (length (fields_of line) <? 2)%nat eqn:E.
    + apply Nat.ltb_lt in E. by split; [left|].
    + apply Nat.ltb_ge in E.
      destruct (float_of_str (nth 0 _ _)), (float_of_str (nth 1 _ _));
        split; try done; try (intros [?|[?|?]]; done || lia); by eauto.
  - intros line lon lat. unfold parse_line.
    destruct (length (fields_of line) <? 2)%nat eqn:E.
    + apply Nat.ltb_lt in E. split; [done|]. intros [? _]. lia.
    + apply Nat.ltb_ge in E.
      destruct (float_of_str (nth 0 _ _)), (float_of_str (nth 1 _ _));
        split; try done; try (by intros (_ & ? & ?)).
      * by intros [= -> ->].
      * by intros (_ & [= ->] & [= ->]).
  - intros before bad after Hbad. rewrite !scan_lines_spec.
    rewrite !omap_app. simpl. by rewrite Hbad.
  - intros lines. by rewrite scan_lines_spec.
  - apply decode_surviving.
Qed.

(** *** Round trip *)

(** The text of a number: not empty, no white space, no comma. *)
Definition plain (s : string) : Prop :=
  s <> EmptyString
  /\ all_chars (fun c => negb (isspace c) && negb (Ascii.eqb c ",")) s = true.




















End Codec.

(** *** On binary64 coordinates *)

Definition decode64 := parse_polygon_text Binary64.float_of_str.
Definition encode64 := polygon_to_text Binary64.fmt8.


(** A triangle with a corner at longitude 0.123456789, and the
    multi-polygon without parts. *)
Definition fine_triangle : geometry Binary64.float :=
  GPolygon (Polygon [Samples.pt "0.123456789" "0"; Samples.pt "1" "0";
                     Samples.pt "1" "1"]).

Example fine_triangle_text :
  encode64 fine_triangle
  = join CRLF ["0.12345679,0.00000000,0"; "1.00000000,0.00000000,0";
               "1.00000000,1.00000000,0"; "0.12345679,0.00000000,0"].
Proof. vm_compute. reflexivity. Qed.


End CodecProps.

(** ** The edit form of Home.py *)

Module HomeProps.
Import Geometry Document Home.

Lemma next_suffix_None fuel base existing i :
  next_suffix fuel base existing i = None ->
  forall j, (j < fuel)%nat -> (base +:+ pretty (i + Z.of_nat j)) ∈ existing.
Proof.
  revert i. induction fuel as [|fuel IH]; intros i H j Hj; [lia|].
  simpl in H. case_bool_decide as Hin; [|done].
  destruct j as [|j].
  - by replace (i + Z.of_nat 0) with i by lia.
  - replace (i + Z.of_nat (S j)) with (i + 1 + Z.of_nat j) by lia.
    apply IH; [done|lia].
Qed.

Lemma next_suffix_Some fuel base existing i n :
  next_suffix fuel base existing i = Some n ->
  i <= n
  /\ ((base +:+ pretty n) ∉ existing)
  /\ forall j, i <= j < n -> (base +:+ pretty j) ∈ existing.
Proof.
  revert i. induction fuel as [|fuel IH]; intros i H; [done|].
  simpl in H. case_bool_decide as Hin.
  - apply IH in H as (Hle & Hn & Hbefore).
    split; [lia|]. split; [done|]. intros j Hj.
    destruct (decide (j = i)) as [->|Hne]; [done|]. apply Hbefore. lia.
  - injection H as <-. split; [lia|]. split; [done|]. intros j Hj. lia.
Qed.

(** The suffix loop ends: the candidate names are pairwise distinct. *)
Lemma next_suffix_total base existing i :
  is_Some (next_suffix (S (length existing)) base existing i).
Proof.
  destruct (next_suffix _ _ _ _) as [n|] eqn:E; [by eexists|].
  exfalso.
  apply (Search.pigeonhole (fun j => base +:+ pretty (i + Z.of_nat j)) existing).
  - intros j1 j2 Hj. simpl in Hj. apply (inj (String.app base)) in Hj.
    apply (inj pretty) in Hj. lia.
  - intros j Hj. by apply (next_suffix_None _ _ _ _ E).
Qed.

(** The name given to a new zone: the base name when it is free, otherwise
    the base name followed by the least number from 2 on that makes it free. *)
Definition deduplicated (base : string) (existing : list string)
  (unique : string) : Prop :=
  (unique ∉ existing)
  /\ (((base ∉ existing) /\ unique = base)
      \/ (base ∈ existing
          /\ exists i, 2 <= i /\ unique = base +:+ pretty i
               /\ forall j, 2 <= j < i -> (base +:+ pretty j) ∈ existing)).

Lemma new_zone_name_unique_spec base existing :
  exists unique,
    new_zone_name_unique base existing = Some unique
    /\ deduplicated base existing unique.
Proof.
  unfold new_zone_name_unique, deduplicated. case_bool_decide as Hb.
  - destruct (next_suffix_total base existing 2) as [i Hi]. rewrite Hi.
    apply next_suffix_Some in Hi as (Hle & Hfree & Hbefore).
    eexists. split; [done|]. split; [done|]. right. split; [done|].
    by exists i.
  - eexists. split; [done|]. split; [done|]. by left.
Qed.

(** The zone names of the preferences of a route. *)
Definition zone_names (route : route) : list string :=
  omap (fun p => zone_name <$> routingParameterUiPolygonDTO p)
       (routingParameterUiVehiclePreferenceDTOs route).





Lemma set_zone_name_same p z :
  routingParameterUiPolygonDTO p = Some z -> set_zone_name p (zone_name z) = p.
Proof. intros H. unfold set_zone_name. rewrite H. destruct p, z. by simplify_eq/=. Qed.

Lemma alter_fixed {A} (f : A -> A) (l : list A) i x :
  l !! i = Some x -> f x = x -> alter f i l = l.
Proof.
  intros Hi Hx. apply list_eq. intros j.
  destruct (decide (i = j)) as [<-|Hne].
  - by rewrite list_lookup_alter_eq, Hi; simpl; rewrite Hx.
  - by rewrite list_lookup_alter_ne.
Qed.

Section Registry.
Context {float : Type} {float_eq : EqDecision float}.
Variable float_of_str : string -> option float.
Variable fmt8 : float -> string.
Variable upper : string -> string.
Variable unary_union : list string -> option (geometry float).
Variable prefix : string.
Variable min_route max_route : Z.

Local Abbreviation polygons_of := (build_polygons_from_data float_of_str).
Local Abbreviation add := (add_zips fmt8 upper unary_union).
Local Abbreviation apply_form :=
  (apply_changes float_of_str fmt8 upper unary_union prefix min_route max_route).

(** An entry of [polygons] points at a preference of a route of the
    document and carries their names. *)
Lemma found_in_polygons data (found : entry) :
  found ∈ polygons_of data ->
  exists route pref z,
    routingParameterUiVehicleDTOs data !! route_obj found = Some route
    /\ routingParameterUiVehiclePreferenceDTOs route !! pref_obj found = Some pref
    /\ routingParameterUiPolygonDTO pref = Some z
    /\ route_name found = name route
    /\ entry_zone_name found = zone_name z.
Proof.
  unfold build_polygons_from_data. intros H.
  apply list_elem_of_In, in_concat in H as (es & Hes & Hin).
  apply list_elem_of_In, elem_of_lookup_imap in Hes as (i & route & -> & Hi).
  apply list_elem_of_In in Hin. unfold entries_of_route in Hin.
  apply list_elem_of_omap in Hin as ([k pref] & Hk & Hf).
  apply elem_of_lookup_imap in Hk as (k' & pref' & [= <- <-] & Hk).
  destruct (routingParameterUiPolygonDTO pref) as [z|] eqn:Hz; [|done].
  destruct (parse_polygon_text _ _); [|done]. simplify_eq/=.
  by exists route, pref, z.
Qed.

(** What "Ajout ZIP" does to a route: nothing, or one more preference whose
    zone name is the de-duplicated base name. It never loops. *)
Lemma add_zips_spec data zn zir zta ids route :
  exists route',
    add data zn zir zta ids route = Done route'
    /\ name route' = name route
    /\ adjacentRoutes route' = adjacentRoutes route
    /\ representative route' = representative route
    /\ (route' = route
        \/ exists unique,
             deduplicated (Py.strip zn) (existing_names_of route) unique
             /\ zone_names route' = zone_names route ++ [unique]).
Proof.
  unfold add_zips. destruct (Py.is_empty zta); [by eauto 10|].
  destruct (filter _ _) as [|c cs] eqn:Hc; [by eauto 10|].
  destruct (merged_text _ _ _) as [text|]; [|by eauto 10].
  destruct (new_zone_name_unique_spec (Py.strip zn) (existing_names_of route))
    as (unique & -> & Hu).
  eexists. split; [done|]. simpl. do 3 (split; [done|]). right.
  exists unique. split; [done|]. unfold zone_names. simpl.
  by rewrite omap_app.
Qed.


(** [addPreference] of the specification: a click that finds the entry at
    position [click] of [polygons], the form left as it shows, and postal
    codes typed into "Ajouter ZIP". A click that finds nothing changes
    nothing. *)
Definition add_preference (data : document) (click : nat) (zips : string)
  (new_ids : string * string) : outcome document :=
  match polygons_of data !! click with
  | None => Done data
  | Some found =>
      match routingParameterUiVehicleDTOs data !! route_obj found with
      | None => Done data
      | Some route =>
          apply_form data found
            (mk_form (route_name found) (entry_zone_name found) zips
                     EmptyString (adjacentRoutes route))
            new_ids
      end
  end.

(** A run of [addPreference]; a refused form leaves the document as it is. *)
Fixpoint add_preferences (ops : list (nat * string * (string * string)))
  (data : document) : document :=
  match ops with
  | [] => data
  | (click, zips, new_ids) :: rest =>
      match add_preference data click zips new_ids with
      | Done data' => add_preferences rest data'
      | _ => add_preferences rest data
      end
  end.




(** C8: when the form is accepted, every route but the one clicked is left
    as it was, with its adjacency and its representative; the clicked route
    carries the new name and keeps its representative; and when only the
    name was typed over, the name is all that differs. *)
Theorem rename_leaves_other_routes data (found : entry) (f : form) new_ids data' :
  apply_form data found f new_ids = Done data' ->
  length (routingParameterUiVehicleDTOs data')
  = length (routingParameterUiVehicleDTOs data)
  /\ (forall j, j <> route_obj found ->
        routingParameterUiVehicleDTOs data' !! j
        = routingParameterUiVehicleDTOs data !! j)
  /\ (forall r, routingParameterUiVehicleDTOs data !! route_obj found = Some r ->
        exists r',
          routingParameterUiVehicleDTOs data' !! route_obj found = Some r'
          /\ name r' = new_route_name f
          /\ representative r' = representative r
          /\ (found ∈ polygons_of data ->
              new_zone_name f = entry_zone_name found ->
              new_adj f = adjacentRoutes r ->
              zip_to_add f = EmptyString ->
              zip_to_remove f = EmptyString ->
              r' = set_name r (new_route_name f))).
Proof.
  unfold apply_changes. intros H.
  destruct (match_route_name _ _) as [num|]; [|done].
  destruct (negb _); [done|].
  destruct (_ && _); [done|].
  destruct (routingParameterUiVehicleDTOs data !! route_obj found) as [r0|] eqn:Hr0.
  2:{ injection H as <-. split; [done|]. split; [done|]. done. }
  match type of H with
  | bind (add_zips _ _ _ _ ?zn ?zir ?zta ?ids ?r4) _ = _ =>
      destruct (add_zips_spec data zn zir zta ids r4)
        as (r5 & Hadd & Hname & Hadj & Hrep & Hcase)
  end.
  rewrite Hadd in H. simpl in H. injection H as <-. simpl.
  split; [by rewrite length_insert|].
  split; [by intros j Hj; rewrite list_lookup_insert_ne|].
  intros r [= <-]. exists r5.
  split; [apply list_lookup_insert_eq; by eapply lookup_lt_Some|].
  assert (Hrm : forall z k (r : route),
            name (remove_zips fmt8 upper unary_union z k r) = name r
            /\ representative (remove_zips fmt8 upper unary_union z k r)
               = representative r).
  { intros z k r. unfold remove_zips. by repeat case_match. }
  split; [by rewrite Hname; rewrite (proj1 (Hrm _ _ _))|].
  split; [by rewrite Hrep; rewrite (proj2 (Hrm _ _ _))|].
  intros Hin Hzn Hnadj Hzta Hztr.
  apply found_in_polygons in Hin as (route & pref & z & Hr & Hp & Hz & Hn & Hzone).
  rewrite Hr0 in Hr. injection Hr as <-.
  revert Hadd. rewrite Hzta, Hztr, Hzn, Hzone, Hnadj. simpl.
  rewrite (alter_fixed _ _ _ _ Hp (set_zone_name_same _ _ Hz)).
  unfold add_zips. simpl. intros [= <-]. by destruct r0.
Qed.

End Registry.

(** The editor on the loaded sample: binary64 coordinates, a boundary table
    of unit squares, the range MONT1500..MONT1999. *)
Definition edit (data : document) (found : entry) (f : form)
  (new_ids : string * string) : outcome document :=
  apply_changes Binary64.float_of_str Binary64.fmt8 Samples.upper_ascii
    Samples.square_table "MONT" 1500 1999 data found f new_ids.

Definition add_twice : list (nat * string * (string * string)) :=
  [(0%nat, "h9x", ("900", "901")); (0%nat, "H9Y, H9Z", ("902", "903"))].

Definition after_add_twice : document :=
  add_preferences Binary64.float_of_str Binary64.fmt8 Samples.upper_ascii
    Samples.square_table "MONT" 1500 1999 add_twice Samples.loaded.

Example zone_names_after_add_twice :
  map zone_names (routingParameterUiVehicleDTOs after_add_twice)
  = [["Zone A"; "Zone A2"; "Zone A3"]; ["Zone B"]].
Proof. vm_compute. reflexivity. Qed.


(** The first route renamed to MONT1999 and nothing else typed. *)
Definition rename_form : form :=
  mk_form "MONT1999" "Zone A" EmptyString EmptyString EmptyString.

Definition renamed : document :=
  match edit Samples.loaded Samples.first_zone rename_form ("900", "901") with
  | Done d => d
  | _ => Samples.loaded
  end.

Example names_after_rename :
  map (fun r => (name r, adjacentRoutes r, representative r))
      (routingParameterUiVehicleDTOs renamed)
  = [("MONT1999", "", RepName "MONT1500");
     ("MONT1505", "MONT1500", RepName "MONT1500")].
Proof. vm_compute. reflexivity. Qed.

Lemma rename_leaves_other_routes_witness :
  length (routingParameterUiVehicleDTOs renamed)
  = length (routingParameterUiVehicleDTOs Samples.loaded)
  /\ (forall j, j <> route_obj Samples.first_zone ->
        routingParameterUiVehicleDTOs renamed !! j
        = routingParameterUiVehicleDTOs Samples.loaded !! j)
  /\ (forall r,
        routingParameterUiVehicleDTOs Samples.loaded
          !! route_obj Samples.first_zone = Some r ->
        exists r',
          routingParameterUiVehicleDTOs renamed !! route_obj Samples.first_zone
          = Some r'
          /\ name r' = new_route_name rename_form
          /\ representative r' = representative r
          /\ (Samples.first_zone
                ∈ build_polygons_from_data Binary64.float_of_str Samples.loaded ->
              new_zone_name rename_form = entry_zone_name Samples.first_zone ->
              new_adj rename_form = adjacentRoutes r ->
              zip_to_add rename_form = EmptyString ->
              zip_to_remove rename_form = EmptyString ->
              r' = set_name r (new_route_name rename_form))).
Proof.
  apply (rename_leaves_other_routes Binary64.float_of_str Binary64.fmt8
           Samples.upper_ascii Samples.square_table "MONT" 1500 1999
           Samples.loaded Samples.first_zone rename_form ("900", "901") renamed).
  vm_compute. reflexivity.
Defined.

End HomeProps.

(** ** Routes from scratch: the numbers drawn *)

Module App9Props.
Import Geometry Document App9.

Lemma next_num_None fuel num gap used :
  next_num fuel num gap used = None ->
  forall j, (j < fuel)%nat -> (num + Z.of_nat j * gap) ∈ used.
Proof.
  revert num. induction fuel as [|fuel IH]; intros num H j Hj; [lia|].
  simpl in H. case_bool_decide as Hin; [|done].
  destruct j as [|j].
  - by replace (num + Z.of_nat 0 * gap) with num by lia.
  - replace (num + Z.of_nat (S j) * gap) with (num + gap + Z.of_nat j * gap) by lia.
    apply IH; [done|lia].
Qed.

Lemma next_num_Some fuel num gap used n :
  next_num fuel num gap used = Some n ->
  exists k, (k < fuel)%nat
            /\ n = num + Z.of_nat k * gap
            /\ (n ∉ used)
            /\ forall j, (j < k)%nat -> (num + Z.of_nat j * gap) ∈ used.
Proof.
  revert num. induction fuel as [|fuel IH]; intros num H; [done|].
  simpl in H. case_bool_decide as Hin.
  - apply IH in H as (k & Hk & -> & Hn & Hbefore).
    exists (S k). split; [lia|]. split; [lia|]. split; [done|].
    intros [|j] Hj.
    + by replace (num + Z.of_nat 0 * gap) with num by lia.
    + replace (num + Z.of_nat (S j) * gap) with (num + gap + Z.of_nat j * gap) by lia.
      apply Hbefore. lia.
  - injection H as <-. exists 0%nat. split; [lia|]. split; [lia|].
    split; [done|]. intros j Hj. lia.
Qed.

(** The loop ends: with a stride that is not zero, one more candidate than
    there are used numbers is enough. *)
Lemma next_num_total num gap used :
  gap <> 0 -> is_Some (next_num (S (length used)) num gap used).
Proof.
  intros Hgap. destruct (next_num _ _ _ _) as [n|] eqn:E; [by eexists|].
  exfalso. apply (Search.pigeonhole (fun j => num + Z.of_nat j * gap) used).
  - intros i j Hij. simpl in Hij. nia.
  - intros j Hj. by apply (next_num_None _ _ _ _ E).
Qed.

Section Runs.
Context {float : Type} {float_eq : EqDecision float}.
Variable fmt12 : float -> string.
Variable unary_union : list string -> geometry float.
Variable area_lt : polygon float -> polygon float -> bool.
Variable network_id : string.

Local Abbreviation press_button := (add_route fmt12 unary_union area_lt network_id).
Local Abbreviation press_buttons := (add_routes fmt12 unary_union area_lt network_id).

(** One press: what it may do to the used numbers. *)
Lemma add_route_used p st st' o :
  press_button p st = (st', o) ->
  route_number_gap p <> 0 ->
  o <> Loops
  /\ (used_nums st' = used_nums st
      \/ exists k, 0 <= k
           /\ ((start_num + k * route_number_gap p) ∉ used_nums st)
           /\ used_nums st' = used_nums st ++ [start_num + k * route_number_gap p])
  /\ forall n, o = Done n ->
       (n ∉ used_nums st)
       /\ used_nums st' = used_nums st ++ [n]
       /\ exists k, 0 <= k /\ n = start_num + k * route_number_gap p.
Proof.
  intros H Hgap. unfold add_route in H.
  destruct (selected_fsas p) as [|z zs].
  { simplify_eq. split; [done|]. split; [by left|done]. }
  destruct (union_to_polygon _) as [g| | |] eqn:Hu.
  - destruct (next_num_total start_num _ (used_nums st) Hgap) as [n Hn].
    rewrite Hn in H. apply next_num_Some in Hn as (k & _ & Hk & Hfresh & _).
    assert (Hright : exists k, 0 <= k
      /\ ((start_num + k * route_number_gap p) ∉ used_nums st)
      /\ used_nums st ++ [n] = used_nums st ++ [start_num + k * route_number_gap p]).
    { exists (Z.of_nat k). rewrite <- Hk. split; [lia|done]. }
    destruct (polygon_to_str fmt12 g) as [text| | |] eqn:Ht; simplify_eq/=.
    + split; [done|]. split; [by right|]. intros ? [= <-].
      split; [done|]. split; [done|]. exists (Z.of_nat k). split; [lia|done].
    + split; [done|]. split; [by right|]. done.
    + split; [done|]. split; [by right|]. done.
    + destruct g; done.
  - simplify_eq. split; [done|]. split; [by left|done].
  - simplify_eq. split; [done|]. split; [by left|done].
  - unfold union_to_polygon in Hu. by repeat case_match.
Qed.

(** The used numbers stay pairwise distinct. *)
Lemma add_routes_NoDup ps st st' outs :
  press_buttons ps st = (st', outs) ->
  Forall (fun p => route_number_gap p <> 0) ps ->
  NoDup (used_nums st) -> NoDup (used_nums st').
Proof.
  revert st st' outs. induction ps as [|p ps IH]; intros st st' outs H Hg Hnd.
  - by simplify_eq/=.
  - simpl in H. destruct (press_button p st) as [st1 o] eqn:H1.
    destruct (press_buttons ps st1) as [st2 os] eqn:H2. simplify_eq.
    apply Forall_cons in Hg as [Hp Hps].
    eapply IH; [done|done|].
    destruct (add_route_used _ _ _ _ H1 Hp) as (_ & [->|(k & _ & Hk & ->)] & _);
      [done|].
    apply NoDup_app. split; [done|]. split; [|apply NoDup_singleton].
    intros x Hx ->%list_elem_of_singleton. done.
Qed.



End Runs.

(** Presses of the kind the two scripts make: some postal code selected,
    stride five. *)
Definition press5 : press := mk_press ["H9S"] 5 152400 88360 238760.

Definition square_union (_ : list string) : geometry Binary64.float :=
  GPolygon Samples.unit_square.

Definition no_area (_ _ : polygon Binary64.float) : bool := false.





End App9Props.

(** ** The range remapper *)

Module BulkProps.
Import Document Bulk.

(** The routes the remapper renumbers, in document order. *)
Definition matched (prefix : string) (routes : list route) : list route :=
  filter (fun r => matches_prefix prefix (name r)) routes.

(** Positional re-sequencing as the specification words it: walking the
    routes in order, the next matching route takes the next number. *)
Fixpoint resequence (prefix : string) (route_gap : Z) (routes : list route)
  (current_num : Z) : list string :=
  match routes with
  | [] => []
  | r :: rest =>
      if matches_prefix prefix (name r)
      then (prefix +:+ pretty current_num)
             :: resequence prefix route_gap rest (current_num + route_gap)
      else name r :: resequence prefix route_gap rest current_num
  end.

(** The by-name flavour of the document: no route carries the flag [True]. *)
Definition by_name (routes : list route) : Prop :=
  Forall (fun r => representative r <> RepFlag true) routes.

Lemma matched_cons prefix r l :
  matched prefix (r :: l) =
  if matches_prefix prefix (name r) then r :: matched prefix l
  else matched prefix l.
Proof.
  unfold matched. rewrite filter_cons.
  destruct (matches_prefix prefix (name r)); by case_decide.
Qed.

Section Mapping.
Variable prefix : string.
Variable route_gap : Z.

Local Abbreviation build := (build_mapping prefix route_gap).

Lemma build_mapping_app l1 l2 m c :
  build (l1 ++ l2) m c =
  build l2 (build l1 m c) (c + Z.of_nat (length (matched prefix l1)) * route_gap).
Proof.
  revert m c. induction l1 as [|r l1 IH]; intros m c; simpl.
  - f_equal. lia.
  - rewrite matched_cons.
    destruct (matches_prefix prefix (name r)) eqn:E; simpl.
    + rewrite IH. f_equal. lia.
    + by rewrite IH.
Qed.

Lemma build_mapping_lookup_other l m c k :
  k ∉ map name (matched prefix l) -> build l m c !! k = m !! k.
Proof.
  revert m c. induction l as [|r l IH]; intros m c Hk; simpl; [done|].
  rewrite matched_cons in Hk.
  destruct (matches_prefix prefix (name r)) eqn:E; simpl in *.
  - apply not_elem_of_cons in Hk as [Hne Hk].
    rewrite IH by done. by rewrite lookup_insert_ne.
  - by apply IH.
Qed.

Lemma build_mapping_keys l m c k :
  is_Some (build l m c !! k) ->
  is_Some (m !! k) \/ matches_prefix prefix k = true.
Proof.
  revert m c. induction l as [|r l IH]; intros m c Hk; simpl in *; [by left|].
  destruct (matches_prefix prefix (name r)) eqn:E.
  - apply IH in Hk as [Hk|Hk]; [|by right].
    destruct (decide (name r = k)) as [<-|Hne]; [by right|].
    left. by rewrite lookup_insert_ne in Hk.
  - by apply IH in Hk.
Qed.

(** The last matching route keeps the number it was given. *)
Lemma build_mapping_last l1 r l2 m c :
  matches_prefix prefix (name r) = true ->
  matched prefix l2 = [] ->
  build (l1 ++ r :: l2) m c !! name r =
  Some (prefix +:+ pretty (c + Z.of_nat (length (matched prefix l1)) * route_gap)).
Proof.
  intros Hr Hl2. rewrite build_mapping_app. simpl. rewrite Hr.
  rewrite build_mapping_lookup_other.
  - by rewrite lookup_insert_eq.
  - rewrite Hl2. simpl. apply not_elem_of_nil.
Qed.

(** With distinct names among the matching routes, renaming through the
    mapping is the positional re-sequencing. *)
Lemma build_mapping_resequence l m c :
  NoDup (map name (matched prefix l)) ->
  (forall k, is_Some (m !! k) -> matches_prefix prefix k = true) ->
  map (fun r => remap (build l m c) (name r)) l =
  resequence prefix route_gap l c.
Proof.
  revert m c. induction l as [|r l IH]; intros m c Hnd Hm; simpl; [done|].
  rewrite matched_cons in Hnd.
  destruct (matches_prefix prefix (name r)) eqn:E.
  - simpl in Hnd. apply NoDup_cons in Hnd as [Hnotin Hnd].
    f_equal.
    + unfold remap. rewrite build_mapping_lookup_other by done.
      by rewrite lookup_insert_eq.
    + apply IH; [done|]. intros k Hk.
      destruct (decide (name r = k)) as [<-|Hne]; [done|].
      rewrite lookup_insert_ne in Hk by done. by apply Hm.
  - f_equal; [|by apply IH].
    unfold remap. destruct (build l m c !! name r) eqn:Hl; [|done].
    destruct (build_mapping_keys l m c (name r)) as [H|H]; [by rewrite Hl| |].
    + apply Hm in H. congruence.
    + congruence.
Qed.

End Mapping.

(** Renaming and the two rewrites of step 4 leave the other fields alone. *)
Lemma name_rename_route m r : name (rename_route m r) = remap m (name r).
Proof.
  unfold rename_route, remap. destruct (m !! name r) as [n|]; simpl; [|done].
  by case_decide.
Qed.

Lemma name_rewrite_adjacent m r : name (rewrite_adjacent m r) = name r.
Proof. unfold rewrite_adjacent. by case_match. Qed.

Lemma representative_rewrite_adjacent m r :
  representative (rewrite_adjacent m r) = representative r.
Proof. unfold rewrite_adjacent. by case_match. Qed.

Lemma representative_rename_route m r :
  representative (rename_route m r) = representative r.
Proof. unfold rename_route. repeat case_match; done. Qed.

(** Step 4 on one route, when it does not raise. *)
Definition rewritten (m : gmap string string) (r : route) : route :=
  let r1 := rewrite_adjacent m r in
  match representative r with
  | RepName s =>
      if Py.is_empty s then r1
      else match m !! Py.strip s with
           | Some new_rep => set_representative r1 (RepName new_rep)
           | None => r1
           end
  | _ => r1
  end.

Lemma rewrite_representative_by_name m r :
  representative r <> RepFlag true ->
  rewrite_representative m (rewrite_adjacent m r) = Done (rewritten m r).
Proof.
  intros H. unfold rewrite_representative, rewritten.
  rewrite representative_rewrite_adjacent.
  destruct (representative r) as [s|[]|]; try done.
  by repeat case_match.
Qed.

Lemma rewrite_representative_flag m r :
  representative r = RepFlag true ->
  rewrite_representative m (rewrite_adjacent m r) = Raised AttributeError.
Proof.
  intros H. unfold rewrite_representative.
  by rewrite representative_rewrite_adjacent, H.
Qed.

Lemma name_rewritten m r : name (rewritten m r) = name r.
Proof.
  unfold rewritten. repeat case_match; simpl; by rewrite ?name_rewrite_adjacent.
Qed.

Lemma for_each_rewrite_by_name m routes :
  by_name routes ->
  for_each (fun r => rewrite_representative m (rewrite_adjacent m r)) routes
  = Done (map (rewritten m) routes).
Proof.
  induction 1 as [|r l Hr Hl IH]; simpl; [done|].
  by rewrite rewrite_representative_by_name, IH.
Qed.

Lemma for_each_rewrite_flag m routes :
  Exists (fun r => representative r = RepFlag true) routes ->
  for_each (fun r => rewrite_representative m (rewrite_adjacent m r)) routes
  = Raised AttributeError.
Proof.
  induction routes as [|r l IH]; intros H; [by apply Exists_nil in H|].
  simpl. destruct (decide (representative r = RepFlag true)) as [Hr|Hr].
  - by rewrite rewrite_representative_flag.
  - rewrite rewrite_representative_by_name by done. simpl.
    apply Exists_cons in H as [H|H]; [done|]. by rewrite IH.
Qed.

(** The prefix and stride the page reads from the document. *)
Definition prefix_of (data : document) : string :=
  match parse_pattern (admissibleRoutePatterns data) with
  | Some (prefix, _, _) => prefix
  | None => EmptyString
  end.

Definition gap_of (data : document) : Z := default 1 (routeNumberGap data).

Definition mapping_of (data : document) (new_min : Z) : gmap string string :=
  build_mapping (prefix_of data) (gap_of data)
                (routingParameterUiVehicleDTOs data) ∅ new_min.

Lemma for_each_Done_inv {A B} (f : A -> outcome B) l l' :
  for_each f l = Done l' -> Forall2 (fun x y => f x = Done y) l l'.
Proof.
  revert l'. induction l as [|x l IH]; intros l' H; simpl in H.
  - injection H as <-. constructor.
  - destruct (f x) as [y| | |] eqn:Hx; simpl in H; try done.
    destruct (for_each f l) as [ys| | |]; simpl in H; try done.
    injection H as <-. constructor; [done|]. by apply IH.
Qed.

Lemma name_rewrite_representative m r r' :
  rewrite_representative m r = Done r' -> name r' = name r.
Proof.
  unfold rewrite_representative. intros H.
  repeat case_match; simplify_eq; done.
Qed.

(** What a completed run says about the names it leaves. *)
Lemma apply_changes_names data new_min new_max adjust r :
  apply_changes data new_min new_max adjust = Done r ->
  is_Some (parse_pattern (admissibleRoutePatterns data))
  /\ valid_range new_min new_max = true
  /\ map name (routingParameterUiVehicleDTOs (data_out r)) =
     map (fun x => remap (mapping_of data new_min) (name x))
         (routingParameterUiVehicleDTOs data).
Proof.
  unfold apply_changes, mapping_of, prefix_of, gap_of. intros H.
  destruct (parse_pattern (admissibleRoutePatterns data)) as [[[prefix lo] hi]|];
    [|done].
  destruct (valid_range new_min new_max); [|done]. simpl in H.
  split; [by eexists|]. split; [done|].
  set (m := build_mapping _ _ _ _ _) in *.
  destruct adjust.
  - destruct (for_each _ _) as [routes2| | |] eqn:Hfe; simpl in H; try done.
    destruct (broken_refs_of _) as [b| | |]; simpl in H; try done.
    injection H as <-. simpl.
    apply for_each_Done_inv in Hfe. clear -Hfe.
    remember (map (rename_route m) _) as routes1 eqn:E.
    revert E. generalize (routingParameterUiVehicleDTOs data).
    induction Hfe as [|x y l l' Hxy Hl IH]; intros [|r0 rs] E; simplify_eq/=;
      [done|].
    f_equal; [|by apply IH].
    apply name_rewrite_representative in Hxy.
    by rewrite Hxy, name_rewrite_adjacent, name_rename_route.
  - simpl in H. destruct (broken_refs_of _) as [b| | |]; simpl in H; try done.
    injection H as <-. simpl. rewrite map_map. apply map_ext.
    intros x. apply name_rename_route.
Qed.

(** The closure check of step 7 on a by-name document. *)
Definition closure_of_route (all_names : gset string) (r : route) : gset string :=
  (if Py.is_empty (adjacentRoutes r) then ∅
   else broken_tokens all_names (adjacentRoutes r))
  ∪ match representative r with
    | RepName s => if Py.is_empty s then ∅ else broken_tokens all_names s
    | _ => ∅
    end.

Definition closure_of (routes : list route) (nodes : option (list node))
  : gset string :=
  let all_names : gset string := list_to_set (map name routes) in
  ⋃ (map (closure_of_route all_names) routes)
  ∪ ⋃ (match nodes with
       | Some ns => map (fun n => broken_tokens all_names (label n)) ns
       | None => []
       end).

Lemma for_each_broken_by_name all_names routes :
  by_name routes ->
  for_each (broken_of_route all_names) routes
  = Done (map (closure_of_route all_names) routes).
Proof.
  induction 1 as [|r l Hr Hl IH]; simpl; [done|].
  rewrite IH. unfold broken_of_route, closure_of_route, broken_representative.
  destruct (representative r) as [s|[]|]; try done; simpl.
  by destruct (Py.is_empty s).
Qed.

Lemma broken_refs_of_by_name data :
  by_name (routingParameterUiVehicleDTOs data) ->
  broken_refs_of data =
  Done (closure_of (routingParameterUiVehicleDTOs data)
                   (routingParameterNodeDTOs data)).
Proof.
  intros H. unfold broken_refs_of. by rewrite for_each_broken_by_name.
Qed.

Lemma representative_rewritten_by_name m r :
  representative r <> RepFlag true ->
  representative (rewritten m r) <> RepFlag true.
Proof.
  unfold rewritten. intros H.
  destruct (representative r) as [s|b|] eqn:E;
    repeat case_match; simpl; by rewrite ?representative_rewrite_adjacent, ?E.
Qed.

(** The routes and nodes a run with [adjust] leaves. *)
Definition routes_out (data : document) (new_min : Z) : list route :=
  map (fun r => rewritten (mapping_of data new_min)
                  (rename_route (mapping_of data new_min) r))
      (routingParameterUiVehicleDTOs data).

Definition nodes_out (data : document) (new_min : Z) : option (list node) :=
  option_map (map (rewrite_label (mapping_of data new_min)))
             (routingParameterNodeDTOs data).

(** On a by-name document with a well-formed pattern and a valid range the
    run completes, whatever the closure check finds. *)
Lemma apply_changes_by_name data new_min new_max :
  is_Some (parse_pattern (admissibleRoutePatterns data)) ->
  valid_range new_min new_max = true ->
  by_name (routingParameterUiVehicleDTOs data) ->
  exists r,
    apply_changes data new_min new_max true = Done r
    /\ routingParameterUiVehicleDTOs (data_out r) = routes_out data new_min
    /\ routingParameterNodeDTOs (data_out r) = nodes_out data new_min
    /\ broken_refs r = closure_of (routes_out data new_min) (nodes_out data new_min).
Proof.
  intros [[[prefix lo] hi] Hp] Hv Hb.
  unfold apply_changes, routes_out, nodes_out, mapping_of, prefix_of, gap_of.
  rewrite Hp, Hv. simpl.
  set (m := build_mapping _ _ _ _ _).
  rewrite for_each_rewrite_by_name.
  2:{ unfold by_name in *. apply Forall_map. eapply Forall_impl; [exact Hb|].
      intros r Hr. simpl. by rewrite representative_rename_route. }
  simpl. rewrite broken_refs_of_by_name.
  2:{ simpl. unfold by_name in *. rewrite map_map. apply Forall_map.
      eapply Forall_impl; [exact Hb|]. intros r Hr. simpl.
      apply representative_rewritten_by_name.
      by rewrite representative_rename_route. }
  simpl. eexists. split; [done|]. simpl. by rewrite map_map.
Qed.

(** Without [adjust] the routes are only renamed; the run completes too. *)
Lemma apply_changes_completes data new_min new_max adjust :
  is_Some (parse_pattern (admissibleRoutePatterns data)) ->
  valid_range new_min new_max = true ->
  by_name (routingParameterUiVehicleDTOs data) ->
  exists r, apply_changes data new_min new_max adjust = Done r.
Proof.
  intros Hp Hv Hb. destruct adjust.
  - destruct (apply_changes_by_name data new_min new_max Hp Hv Hb) as (r & Hr & _).
    by exists r.
  - destruct Hp as [[[prefix lo] hi] Hp]. unfold apply_changes.
    rewrite Hp, Hv. simpl. rewrite broken_refs_of_by_name; [by eexists|].
    simpl. unfold by_name in *. apply Forall_map.
    eapply Forall_impl; [exact Hb|]. intros r Hr. simpl.
    by rewrite representative_rename_route.
Qed.

(** Positional re-sequencing as the specification states it, for one run. *)
Definition renumbered_positionally (data : document) (new_min new_max : Z)
  (adjust : bool) : Prop :=
  exists r,
    apply_changes data new_min new_max adjust = Done r
    /\ map name (routingParameterUiVehicleDTOs (data_out r)) =
       resequence (prefix_of data) (gap_of data)
                  (routingParameterUiVehicleDTOs data) new_min.

(** C4, as amended: on a by-name document with a well-formed pattern and a
    valid new range, whose matching routes have pairwise distinct names,
    the run completes and the routes, in document order, carry the numbers
    [new_min], [new_min + gap], ... in place of whatever number they had;
    routes 1500, 1505, 1510 sent to a range that starts at 2000 with gap 5
    become 2000, 2005, 2010. *)
Theorem renumber_positional data new_min new_max adjust :
  is_Some (parse_pattern (admissibleRoutePatterns data)) ->
  valid_range new_min new_max = true ->
  by_name (routingParameterUiVehicleDTOs data) ->
  NoDup (map name (matched (prefix_of data) (routingParameterUiVehicleDTOs data))) ->
  renumbered_positionally data new_min new_max adjust
  /\ (exists r,
        apply_changes Samples.three_routes 2000 2499 true = Done r
        /\ map name (routingParameterUiVehicleDTOs (data_out r))
           = ["MONT2000"; "MONT2005"; "MONT2010"]).
Proof.
  intros Hp Hv Hb Hnd. split.
  - destruct (apply_changes_completes data new_min new_max adjust Hp Hv Hb)
      as (r & Hr). exists r. split; [done|].
    apply apply_changes_names in Hr as (_ & _ & ->).
    apply build_mapping_resequence; [done|].
    intros k [? Hk]. by rewrite lookup_empty in Hk.
  - eexists. split; [by vm_compute|]. by vm_compute.
Qed.

Lemma renumber_positional_witness :
  renumbered_positionally Samples.three_routes 2000 2499 true
  /\ (exists r,
        apply_changes Samples.three_routes 2000 2499 true = Done r
        /\ map name (routingParameterUiVehicleDTOs (data_out r))
           = ["MONT2000"; "MONT2005"; "MONT2010"]).
Proof.
  apply (renumber_positional Samples.three_routes 2000 2499 true).
  - vm_compute. eauto.
  - reflexivity.
  - apply (bool_decide_unpack _). by vm_compute.
  - apply (bool_decide_unpack _). by vm_compute.
Defined.

(** C4 as stated fails when two routes carry one name: a run on two routes
    both named MONT1500, sent to 2000 with gap 5, names both MONT2005. *)
Lemma renumber_twin_names_not_positional :
  ~ renumbered_positionally Samples.twin_routes 2000 2499 true.
Proof.
  intros (r & Hr & Hn).
  assert (Hrun : exists r0,
    apply_changes Samples.twin_routes 2000 2499 true = Done r0
    /\ map name (routingParameterUiVehicleDTOs (data_out r0))
       = ["MONT2005"; "MONT2005"]).
  { eexists. split; [vm_compute; reflexivity|]. vm_compute. reflexivity. }
  destruct Hrun as (r0 & Hr0 & Hn0). rewrite Hr in Hr0.
  injection Hr0 as <-. rewrite Hn0 in Hn. vm_compute in Hn. discriminate.
Qed.

(** C9, as amended: the numbers are drawn without looking at the new
    maximum. On a document whose stride is not negative, when the [n]
    matching routes do not fit ([new_min + (n - 1) * gap > new_max]), the
    last of them is named beyond [new_max]; and a run with any other valid
    maximum leaves the same routes, nodes and report. *)
Theorem renumber_ignores_maximum data new_min new_max adjust r :
  apply_changes data new_min new_max adjust = Done r ->
  0 <= gap_of data ->
  new_min + (Z.of_nat (length (matched (prefix_of data)
                 (routingParameterUiVehicleDTOs data))) - 1) * gap_of data
    > new_max ->
  (exists x k,
      x ∈ routingParameterUiVehicleDTOs (data_out r)
      /\ name x = prefix_of data +:+ pretty k /\ new_max < k)
  /\ (forall new_max',
        valid_range new_min new_max' = true ->
        exists r',
          apply_changes data new_min new_max' adjust = Done r'
          /\ routingParameterUiVehicleDTOs (data_out r')
             = routingParameterUiVehicleDTOs (data_out r)
          /\ routingParameterNodeDTOs (data_out r')
             = routingParameterNodeDTOs (data_out r)
          /\ broken_refs r' = broken_refs r).
Proof.
  intros Hr Hgap Hn. split.
  - destruct (apply_changes_names _ _ _ _ _ Hr) as (_ & Hv & Hnames).
    assert (Hne : matched (prefix_of data) (routingParameterUiVehicleDTOs data) <> []).
    { intros E. rewrite E in Hn. simpl in Hn.
      unfold valid_range in Hv. destruct (new_max <=? new_min) eqn:E1; [done|].
      lia. }
    assert (Hlast : exists l1 x l2,
      routingParameterUiVehicleDTOs data = l1 ++ x :: l2
      /\ matches_prefix (prefix_of data) (name x) = true
      /\ matched (prefix_of data) l2 = []).
    { clear -Hne. induction (routingParameterUiVehicleDTOs data) as [|y l IH];
        [done|].
      destruct (decide (matched (prefix_of data) l = [])) as [E|E].
      - rewrite matched_cons in Hne.
        destruct (matches_prefix (prefix_of data) (name y)) eqn:Ey; [|done].
        by exists [], y, l.
      - destruct (IH E) as (l1 & x & l2 & -> & Hx & Hl2).
        by exists (y :: l1), x, l2. }
    destruct Hlast as (l1 & x & l2 & Hl & Hx & Hl2).
    assert (Hin : remap (mapping_of data new_min) (name x)
                  ∈ map name (routingParameterUiVehicleDTOs (data_out r))).
    { rewrite Hnames, Hl. apply list_elem_of_fmap. exists x. split; [done|].
      apply elem_of_app. right. left. }
    apply list_elem_of_fmap in Hin as (y & Hy & Hyin).
    exists y, (new_min + Z.of_nat (length (matched (prefix_of data) l1)) * gap_of data).
    split; [done|]. split.
    + rewrite <- Hy. unfold remap, mapping_of. rewrite Hl.
      by rewrite build_mapping_last.
    + rewrite Hl in Hn. unfold matched in Hn, Hl2 |- *.
      rewrite filter_app, filter_cons in Hn.
      rewrite decide_True in Hn by (by rewrite Hx).
      rewrite Hl2 in Hn. rewrite length_app in Hn. simpl in Hn. lia.
  - intros new_max' Hv'. revert Hr. unfold apply_changes.
    destruct (parse_pattern (admissibleRoutePatterns data)) as [[[prefix lo] hi]|];
      [|done].
    rewrite Hv'. destruct (valid_range new_min new_max); [|done]. simpl.
    destruct (if adjust then _ else _) as [routes2| | |]; simpl; try done.
    unfold broken_refs_of. simpl.
    destruct (for_each _ routes2) as [per| | |]; simpl; try done.
    intros [= <-]. eexists. split; [done|]. done.
Qed.

(** Three routes sent to the range 2000..2008 with gap 5: the third is
    named MONT2010. *)
Definition overflowing_report : report :=
  mk_report
    (mk_document "4485" "MONT|2000|2008" (Some 5)
       (routes_out Samples.three_routes 2000) (nodes_out Samples.three_routes 2000))
    [("MONT1500", "MONT2000"); ("MONT1505", "MONT2005"); ("MONT1510", "MONT2010")]
    ∅.

Lemma renumber_ignores_maximum_witness :
  exists x k,
    x ∈ routingParameterUiVehicleDTOs (data_out overflowing_report)
    /\ name x = prefix_of Samples.three_routes +:+ pretty k /\ 2008 < k.
Proof.
  apply (renumber_ignores_maximum Samples.three_routes 2000 2008 true
           overflowing_report).
  - by vm_compute.
  - by vm_compute.
  - by vm_compute.
Defined.

(** C9 as stated, for one run and whatever the stride: when the matching
    routes do not fit under the new maximum, the run names a route beyond
    it. *)
Definition numbered_beyond_maximum (data : document) (new_min new_max : Z)
  (adjust : bool) : Prop :=
  valid_range new_min new_max = true ->
  new_min + (Z.of_nat (length (matched (prefix_of data)
                 (routingParameterUiVehicleDTOs data))) - 1) * gap_of data
    > new_max ->
  exists r x k,
    apply_changes data new_min new_max adjust = Done r
    /\ x ∈ routingParameterUiVehicleDTOs (data_out r)
    /\ name x = prefix_of data +:+ pretty k /\ new_max < k.

(** A document with the stride -5 whose only route does not carry the
    prefix. *)
Definition negative_stride : document :=
  mk_document "4485" "MONT|1500|1999" (Some (-5))
    [Samples.bare_route "DEPOT" "" (RepName "DEPOT")] None.

(** C9 as stated fails on a negative stride: with no matching route,
    [2000 + (0 - 1) * (-5) = 2005] is beyond the new maximum 2001, the run
    completes, and no route is numbered at all. *)
Lemma renumber_negative_stride_numbers_nothing :
  ~ numbered_beyond_maximum negative_stride 2000 2001 true.
Proof.
  intros H. destruct H as (r & x & k & Hr & Hx & Hn & _);
    [reflexivity|reflexivity|].
  assert (Hrun : exists r0,
    apply_changes negative_stride 2000 2001 true = Done r0
    /\ map name (routingParameterUiVehicleDTOs (data_out r0)) = ["DEPOT"]
    /\ updated_routes r0 = []).
  { eexists. split; [vm_compute; reflexivity|]. split; vm_compute; reflexivity. }
  destruct Hrun as (r0 & Hr0 & Hn0 & _). rewrite Hr in Hr0. injection Hr0 as <-.
  assert (Hin : name x ∈ map name (routingParameterUiVehicleDTOs (data_out r)))
    by (by apply list_elem_of_fmap_2).
  rewrite Hn0 in Hin. apply list_elem_of_singleton in Hin.
  rewrite Hin in Hn. vm_compute in Hn. discriminate.
Qed.

Lemma for_each_broken_flag all_names m l :
  Exists (fun r => representative r = RepFlag true) l ->
  for_each (broken_of_route all_names) (map (rename_route m) l)
  = Raised TypeError.
Proof.
  induction 1 as [x l Hx|x l Hl IH]; simpl.
  - unfold broken_of_route at 1. by rewrite representative_rename_route, Hx.
  - unfold broken_of_route at 1. rewrite representative_rename_route.
    destruct (representative x) as [s|[]|]; simpl; try done;
      try (by rewrite IH). destruct (Py.is_empty s); simpl; by rewrite IH.
Qed.

(** C10: on a document whose pattern and new range are accepted, a route
    whose [representative] is the boolean [True] makes the run end in an
    exception and nothing is reported: with [adjust], [.strip()] is asked of
    that boolean (Python names the error AttributeError); without it, the
    closure check hands the boolean to [re.split] (TypeError). The manual
    creator writes [True] into the first route it makes. *)
Theorem flag_representative_raises data new_min new_max adjust :
  is_Some (parse_pattern (admissibleRoutePatterns data)) ->
  valid_range new_min new_max = true ->
  Exists (fun r => representative r = RepFlag true)
         (routingParameterUiVehicleDTOs data) ->
  apply_changes data new_min new_max adjust
  = Raised (if adjust then AttributeError else TypeError).
Proof.
  intros [[[prefix lo] hi] Hp] Hv Hex. unfold apply_changes.
  rewrite Hp, Hv. simpl. destruct adjust.
  - rewrite for_each_rewrite_flag; [done|].
    apply Exists_exists in Hex as (x & Hx & Hrep). apply Exists_exists.
    eexists. split; [by apply list_elem_of_fmap_2|].
    by rewrite representative_rename_route.
  - simpl. unfold broken_refs_of. simpl. by rewrite for_each_broken_flag.
Qed.

Lemma flag_representative_raises_witness :
  apply_changes Samples.manual_config 2000 2499 true = Raised AttributeError.
Proof.
  apply (flag_representative_raises Samples.manual_config 2000 2499 true).
  - vm_compute. eauto.
  - reflexivity.
  - apply Exists_cons_hd. reflexivity.
Defined.

End BulkProps.

(** ** The closure check of the range remapper *)

Module ClosureProps.
Import Py Text Document Bulk BulkProps.

(** A reference as the closure check reads it: not empty, free of
    separators, stripped. *)
Definition clean (t : string) : Prop :=
  t <> EmptyString
  /\ all_chars (fun c => negb (is_sep c)) t = true
  /\ strip t = t.

(** The references of one route and of a document, as the check splits
    them. *)
Definition refs_of_route (r : route) : list string :=
  adj_tokens (adjacentRoutes r)
  ++ match representative r with
     | RepName s => adj_tokens s
     | _ => []
     end.

Definition refs_of (routes : list route) (nodes : option (list node))
  : list string :=
  flat_map refs_of_route routes
  ++ flat_map (fun n => adj_tokens (label n)) (default [] nodes).

Definition names_of (routes : list route) : list string := map name routes.

Lemma elem_of_broken_tokens (all_names : gset string) field t :
  t ∈ broken_tokens all_names field <-> t ∈ adj_tokens field /\ t ∉ all_names.
Proof.
  unfold broken_tokens, adj_tokens.
  rewrite elem_of_list_to_set, !list_elem_of_filter. tauto.
Qed.

Lemma elem_of_closure_of_route all_names r t :
  t ∈ closure_of_route all_names r <-> t ∈ refs_of_route r /\ t ∉ all_names.
Proof.
  unfold closure_of_route, refs_of_route.
  rewrite elem_of_union, elem_of_app. split.
  - intros [H|H].
    + destruct (is_empty (adjacentRoutes r)); [set_solver|].
      apply elem_of_broken_tokens in H as [H Hn]. split; [by left|done].
    + destruct (representative r) as [s| |]; try set_solver.
      destruct (is_empty s); [set_solver|].
      apply elem_of_broken_tokens in H as [H Hn]. split; [by right|done].
  - intros [[H|H] Hn].
    + left. destruct (adjacentRoutes r) as [|c s] eqn:E; [by inversion H|].
      simpl. by apply elem_of_broken_tokens.
    + right. destruct (representative r) as [s| |]; try by inversion H.
      destruct s as [|c s]; [by inversion H|]. simpl.
      by apply elem_of_broken_tokens.
Qed.

(** The report holds exactly the references that name no route. *)
Lemma elem_of_closure_of routes nodes t :
  t ∈ closure_of routes nodes
  <-> t ∈ refs_of routes nodes /\ t ∉ names_of routes.
Proof.
  unfold closure_of, refs_of, names_of.
  rewrite elem_of_union, elem_of_app, !elem_of_union_list.
  assert (Hn : forall x, x ∉ (list_to_set (map name routes) : gset string)
                         <-> x ∉ map name routes).
  { intros x. by rewrite elem_of_list_to_set. }
  split.
  - intros [(X & HX & Ht)|(X & HX & Ht)].
    + apply list_elem_of_fmap in HX as (r & -> & Hr).
      apply elem_of_closure_of_route in Ht as [Ht Hnot].
      split; [|by apply Hn]. left. apply list_elem_of_In, in_flat_map.
      exists r. by rewrite <- !list_elem_of_In.
    + destruct nodes as [ns|]; [|by inversion HX]. simpl.
      apply list_elem_of_fmap in HX as (n & -> & Hin).
      apply elem_of_broken_tokens in Ht as [Ht Hnot].
      split; [|by apply Hn]. right. apply list_elem_of_In, in_flat_map.
      exists n. by rewrite <- !list_elem_of_In.
  - intros [[H|H] Hnot].
    + apply list_elem_of_In, in_flat_map in H as (r & Hr & Ht).
      left. exists (closure_of_route (list_to_set (map name routes)) r).
      split; [apply list_elem_of_fmap; exists r; by rewrite list_elem_of_In|].
      apply elem_of_closure_of_route. split; [by apply list_elem_of_In|].
      by apply Hn.
    + apply list_elem_of_In, in_flat_map in H as (n & Hin & Ht).
      right. destruct nodes as [ns|]; [|done]. simpl in *.
      exists (broken_tokens (list_to_set (map name routes)) (label n)).
      split; [apply list_elem_of_fmap; exists n; by rewrite list_elem_of_In|].
      apply elem_of_broken_tokens. split; [by apply list_elem_of_In|].
      by apply Hn.
Qed.

(** *** References through the rewrite *)

Lemma AZ_not_sep c : isAZ c = true -> negb (is_sep c) = true.
Proof. each_char c. Qed.

Lemma digit_not_sep c : isdigit c = true -> negb (is_sep c) = true.
Proof. each_char c. Qed.

Lemma adj_tokens_clean s t : t ∈ adj_tokens s -> clean t.
Proof.
  unfold adj_tokens. intros [Hne Ht]%list_elem_of_filter.
  apply list_elem_of_fmap in Ht as (w & -> & Hw).
  split; [done|]. split; [|apply strip_idem].
  apply all_chars_strip.
  pose proof (split_on_pieces is_sep s) as Hall.
  by eapply Forall_forall in Hall.
Qed.

Lemma strip_filter_clean l :
  Forall clean l -> filter (fun a => a <> EmptyString) (map strip l) = l.
Proof.
  induction 1 as [|x xs (Hne & _ & Hs) Hxs IH]; [done|].
  simpl. rewrite Hs, filter_cons_True by done. by rewrite IH.
Qed.

Lemma adj_tokens_join l :
  Forall clean l -> adj_tokens (join "," l) = l.
Proof.
  intros Hl. destruct l as [|w l]; [done|].
  unfold adj_tokens. rewrite split_on_join; [|done|done|].
  - by apply strip_filter_clean.
  - eapply Forall_impl; [exact Hl|]. by intros x (_ & Hx & _).
Qed.

(** A single reference: a field without separators. *)
Lemma adj_tokens_single s :
  all_chars (fun c => negb (is_sep c)) s = true ->
  adj_tokens s = if decide (strip s = EmptyString) then [] else [strip s].
Proof.
  intros Hs. unfold adj_tokens. rewrite split_on_none by done. simpl.
  rewrite filter_cons. by case_decide; case_decide.
Qed.

(** A mapping whose new names read back as one reference each. *)
Definition tidy (m : gmap string string) : Prop :=
  m !! EmptyString = None /\ forall k v, m !! k = Some v -> clean v.

Lemma remap_clean m t : tidy m -> clean t -> clean (remap m t).
Proof.
  intros [_ Hm] Ht. unfold remap. destruct (m !! t) eqn:E; [|done].
  by eapply Hm.
Qed.

Lemma remap_empty m : tidy m -> remap m EmptyString = EmptyString.
Proof. intros [H _]. unfold remap. by rewrite H. Qed.

Lemma new_name_clean prefix n :
  all_chars isAZ prefix = true -> clean (prefix +:+ pretty (n : Z)).
Proof.
  intros Hp. split; [|split].
  - intros E. destruct prefix; [|done]. rewrite sapp_nil_l in E.
    by apply pretty_Z_nonempty in E.
  - rewrite all_chars_app. apply andb_true_iff. split.
    + eapply all_chars_impl; [|exact Hp]. apply AZ_not_sep.
    + apply pretty_Z_chars; [apply digit_not_sep|done].
  - apply strip_no_space. rewrite all_chars_app. apply andb_true_iff. split.
    + eapply all_chars_impl; [|exact Hp]. intros c Hc.
      by rewrite (AZ_not_space c Hc).
    + apply pretty_Z_chars; [|done]. intros c Hc.
      by rewrite (digit_not_space c Hc).
Qed.

Lemma matches_prefix_empty prefix : matches_prefix prefix EmptyString = false.
Proof. unfold matches_prefix. by destruct prefix. Qed.

Lemma build_mapping_values prefix gap l m c k v :
  build_mapping prefix gap l m c !! k = Some v ->
  m !! k = Some v \/ exists n : Z, v = prefix +:+ pretty n.
Proof.
  revert m c. induction l as [|r l IH]; intros m c H; simpl in H; [by left|].
  destruct (matches_prefix prefix (name r)).
  - apply IH in H as [H|H]; [|by right].
    destruct (decide (name r = k)) as [<-|Hne].
    + rewrite lookup_insert_eq in H. right. eexists. by simplify_eq.
    + rewrite lookup_insert_ne in H by done. by left.
  - by apply IH in H.
Qed.

Lemma parse_pattern_prefix s prefix lo hi :
  parse_pattern s = Some (prefix, lo, hi) -> all_chars isAZ prefix = true.
Proof.
  unfold parse_pattern. destruct (span isAZ s) as [a b] eqn:E.
  intros H. apply span_all in E. repeat case_match; by simplify_eq.
Qed.

Lemma mapping_of_tidy data new_min :
  is_Some (parse_pattern (admissibleRoutePatterns data)) ->
  tidy (mapping_of data new_min).
Proof.
  intros [[[prefix lo] hi] Hp]. unfold mapping_of, prefix_of. rewrite Hp.
  apply parse_pattern_prefix in Hp. split.
  - destruct (build_mapping _ _ _ _ _ !! EmptyString) eqn:E; [|done].
    destruct (build_mapping_keys prefix (gap_of data)
                (routingParameterUiVehicleDTOs data) ∅ new_min EmptyString)
      as [[? H]|H]; [by rewrite E| |].
    + by rewrite lookup_empty in H.
    + by rewrite matches_prefix_empty in H.
  - intros k v H. apply build_mapping_values in H as [H|[n ->]].
    + by rewrite lookup_empty in H.
    + by apply new_name_clean.
Qed.

(** The references of a rewritten adjacency are the old ones, remapped. *)
Lemma adj_tokens_rewrite_adjacent m r :
  tidy m ->
  adj_tokens (adjacentRoutes (rewrite_adjacent m r))
  = map (remap m) (adj_tokens (adjacentRoutes r)).
Proof.
  intros Hm. unfold rewrite_adjacent.
  destruct (adjacentRoutes r) as [|c s] eqn:E; simpl; [by rewrite E|].
  apply adj_tokens_join. apply Forall_map, Forall_forall.
  intros t Ht. apply remap_clean; [done|]. by eapply adj_tokens_clean.
Qed.

Lemma remapped_piece m w :
  tidy m ->
  all_chars (fun c => negb (is_sep c)) w = true ->
  (strip w = EmptyString /\ remap m (strip w) = EmptyString)
  \/ (strip w <> EmptyString /\ clean (remap m (strip w))).
Proof.
  intros Hm Hw. destruct (decide (strip w = EmptyString)) as [E|Hne].
  - left. split; [done|]. rewrite E. by apply remap_empty.
  - right. split; [done|]. apply remap_clean; [done|].
    split; [done|]. split; [by apply all_chars_strip|apply strip_idem].
Qed.

Lemma tokens_remapped m l :
  tidy m ->
  Forall (fun w => all_chars (fun c => negb (is_sep c)) w = true) l ->
  filter (fun a => a <> EmptyString)
         (map strip (map (fun p => remap m (strip p)) l))
  = map (remap m) (filter (fun a => a <> EmptyString) (map strip l)).
Proof.
  intros Hm. induction 1 as [|w l Hw Hl IH]; [done|]. simpl.
  destruct (remapped_piece m w Hm Hw) as [[E1 E2]|[Hne (Hc & _ & Hs)]].
  - rewrite E2, E1. change (strip EmptyString) with EmptyString.
    rewrite !filter_cons_False by naive_solver. done.
  - rewrite Hs, !filter_cons_True by done. simpl. by rewrite IH.
Qed.

Lemma adj_tokens_rewrite_label m n :
  tidy m ->
  adj_tokens (label (rewrite_label m n)) = map (remap m) (adj_tokens (label n)).
Proof.
  intros Hm. unfold rewrite_label.
  destruct (is_empty (label n)) eqn:E.
  { apply is_empty_true in E. by rewrite E. }
  cbn [label]. unfold adj_tokens.
  pose proof (split_on_pieces is_sep (label n)) as Hp.
  pose proof (split_on_nonempty is_sep (label n)) as Hne.
  rewrite split_on_join; [by apply tokens_remapped|done| |].
  - by destruct (split_on is_sep (label n)).
  - apply Forall_map. eapply Forall_impl; [exact Hp|]. intros w Hw. simpl.
    destruct (remapped_piece m w Hm Hw) as [[_ ->]|[_ (_ & Hc & _)]]; done.
Qed.

(** A representative that is one reference: no separator in it. *)
Definition single_representative (r : route) : Prop :=
  match representative r with
  | RepName s => all_chars (fun c => negb (is_sep c)) s = true
  | _ => True
  end.

Lemma refs_of_rewritten m r :
  tidy m -> single_representative r ->
  refs_of_route (rewritten m r) = map (remap m) (refs_of_route r).
Proof.
  intros Hm Hs. unfold refs_of_route. rewrite map_app. f_equal.
  - unfold rewritten.
    repeat case_match; simpl; by rewrite adj_tokens_rewrite_adjacent.
  - unfold rewritten, single_representative in *.
    destruct (representative r) as [s|b|] eqn:E; simpl;
      rewrite ?representative_rewrite_adjacent, ?E; try done.
    destruct (is_empty s) eqn:Es.
    { apply is_empty_true in Es as ->.
      by rewrite representative_rewrite_adjacent, E. }
    rewrite adj_tokens_single by done.
    destruct (m !! strip s) as [v|] eqn:Ev; simpl.
    + destruct Hm as [H0 Hm]. pose proof (Hm _ _ Ev) as (Hne & Hc & Hst).
      rewrite adj_tokens_single by done. rewrite Hst.
      rewrite decide_False by done.
      rewrite decide_False by (intros E0; by rewrite E0, H0 in Ev).
      simpl. unfold remap. by rewrite Ev.
    + rewrite representative_rewrite_adjacent, E.
      rewrite adj_tokens_single by done. case_decide; [done|].
      simpl. unfold remap. by rewrite Ev.
Qed.

Lemma refs_of_rename_route m r :
  refs_of_route (rename_route m r) = refs_of_route r.
Proof. unfold rename_route. by repeat case_match. Qed.

Lemma single_representative_rename m r :
  single_representative r -> single_representative (rename_route m r).
Proof.
  unfold single_representative. by rewrite representative_rename_route.
Qed.

(** The references and the names a run leaves are the old ones, remapped. *)
Lemma refs_of_out data new_min :
  is_Some (parse_pattern (admissibleRoutePatterns data)) ->
  Forall single_representative (routingParameterUiVehicleDTOs data) ->
  refs_of (routes_out data new_min) (nodes_out data new_min)
  = map (remap (mapping_of data new_min))
        (refs_of (routingParameterUiVehicleDTOs data)
                 (routingParameterNodeDTOs data)).
Proof.
  intros Hp Hs. pose proof (mapping_of_tidy data new_min Hp) as Hm.
  unfold refs_of, routes_out, nodes_out. rewrite map_app. f_equal.
  - induction Hs as [|r l Hr Hl IH]; [done|]. simpl.
    rewrite map_app, IH. f_equal.
    rewrite refs_of_rewritten; [|done|by apply single_representative_rename].
    by rewrite refs_of_rename_route.
  - destruct (routingParameterNodeDTOs data) as [ns|]; [|done]. simpl.
    induction ns as [|n ns IH]; [done|]. simpl.
    by rewrite map_app, IH, adj_tokens_rewrite_label.
Qed.

Lemma names_of_out data new_min :
  names_of (routes_out data new_min)
  = map (remap (mapping_of data new_min))
        (names_of (routingParameterUiVehicleDTOs data)).
Proof.
  unfold names_of, routes_out. rewrite !map_map. apply map_ext.
  intros r. by rewrite name_rewritten, name_rename_route.
Qed.

(** Only names of routes are remapped. *)
Lemma remap_unknown data new_min t :
  t ∉ names_of (routingParameterUiVehicleDTOs data) ->
  remap (mapping_of data new_min) t = t.
Proof.
  intros Ht. unfold remap, mapping_of.
  rewrite build_mapping_lookup_other; [by rewrite lookup_empty|].
  intros H. apply Ht. unfold names_of, matched in *.
  apply list_elem_of_fmap in H as (r & -> & Hr).
  apply list_elem_of_filter in Hr as [_ Hr]. by apply list_elem_of_fmap_2.
Qed.

(** *** The report *)

(** Every reference of the document names one of its routes, and each
    representative is one reference. *)
Definition self_consistent (data : document) : Prop :=
  Forall single_representative (routingParameterUiVehicleDTOs data)
  /\ forall t, t ∈ refs_of (routingParameterUiVehicleDTOs data)
                          (routingParameterNodeDTOs data) ->
               t ∈ names_of (routingParameterUiVehicleDTOs data).

(** The same but for one adjacency reference [d] that names no route. *)
Definition one_dangling (data : document) (d : string) : Prop :=
  Forall single_representative (routingParameterUiVehicleDTOs data)
  /\ (d ∉ names_of (routingParameterUiVehicleDTOs data))
  /\ (exists r, r ∈ routingParameterUiVehicleDTOs data
                /\ d ∈ adj_tokens (adjacentRoutes r))
  /\ forall t, t ∈ refs_of (routingParameterUiVehicleDTOs data)
                          (routingParameterNodeDTOs data) ->
               t = d \/ t ∈ names_of (routingParameterUiVehicleDTOs data).

(** The dangling reference reported, as the specification words it. *)
Definition dangling_reported (data : document) (new_min new_max : Z)
  (d : string) : Prop :=
  exists r, apply_changes data new_min new_max true = Done r
            /\ broken_refs r = {[ d ]}.

(** C5, as amended: on a by-name document the run with [adjust] completes
    whatever the closure check finds, and its report holds exactly the
    adjacency, representative and label references of the rewritten
    document that name none of its routes. From a self-consistent document
    the report is empty. From a document with one dangling adjacency
    reference the report is that reference alone, unless the reference
    happens to be one of the names the routes now carry, and then the
    report is empty. *)
Theorem remap_closure data new_min new_max :
  is_Some (parse_pattern (admissibleRoutePatterns data)) ->
  valid_range new_min new_max = true ->
  by_name (routingParameterUiVehicleDTOs data) ->
  exists r,
    apply_changes data new_min new_max true = Done r
    /\ (forall t, t ∈ broken_refs r
          <-> t ∈ refs_of (routingParameterUiVehicleDTOs (data_out r))
                          (routingParameterNodeDTOs (data_out r))
              /\ t ∉ names_of (routingParameterUiVehicleDTOs (data_out r)))
    /\ (self_consistent data -> broken_refs r = ∅)
    /\ (forall d, one_dangling data d ->
          (d ∉ names_of (routingParameterUiVehicleDTOs (data_out r)) ->
           broken_refs r = {[ d ]})
          /\ (d ∈ names_of (routingParameterUiVehicleDTOs (data_out r)) ->
              broken_refs r = ∅)).
Proof.
  intros Hp Hv Hb.
  destruct (apply_changes_by_name data new_min new_max Hp Hv Hb)
    as (r & Hr & Hroutes & Hnodes & Hbroken).
  exists r. split; [done|]. rewrite Hroutes, Hnodes, Hbroken.
  split; [intros t; apply elem_of_closure_of|]. split.
  - intros [Hs Hc]. apply set_eq. intros t.
    rewrite elem_of_closure_of, refs_of_out, names_of_out by done.
    split; [|set_solver]. intros [Ht Hn]. exfalso. apply Hn.
    apply list_elem_of_fmap in Ht as (u & -> & Hu).
    apply list_elem_of_fmap_2. by apply Hc.
  - intros d (Hs & Hd & (r0 & Hr0 & Hdr) & Hall).
    assert (Hdin : d ∈ refs_of (routes_out data new_min) (nodes_out data new_min)).
    { rewrite refs_of_out by done. rewrite <- (remap_unknown data new_min d Hd).
      apply list_elem_of_fmap_2. unfold refs_of. apply elem_of_app. left.
      apply list_elem_of_In, in_flat_map. exists r0.
      rewrite <- !list_elem_of_In. split; [done|].
      unfold refs_of_route. apply elem_of_app. by left. }
    assert (Honly : forall t,
      t ∈ refs_of (routes_out data new_min) (nodes_out data new_min) ->
      t ∉ names_of (routes_out data new_min) -> t = d).
    { intros t Ht Hn. rewrite refs_of_out in Ht by done.
      apply list_elem_of_fmap in Ht as (u & -> & Hu).
      destruct (Hall u Hu) as [->|Hin]; [by apply remap_unknown|].
      exfalso. apply Hn. rewrite names_of_out. by apply list_elem_of_fmap_2. }
    split; intros Hdn; apply set_eq; intros t; rewrite elem_of_closure_of.
    + rewrite elem_of_singleton. split; [by intros [??]; apply Honly|].
      by intros ->.
    + split; [|set_solver]. intros [Ht Hn].
      rewrite (Honly t Ht Hn) in Hn. done.
Qed.

Lemma remap_closure_witness :
  exists r,
    apply_changes Samples.dangling_9999 2000 2499 true = Done r
    /\ (forall t, t ∈ broken_refs r
          <-> t ∈ refs_of (routingParameterUiVehicleDTOs (data_out r))
                          (routingParameterNodeDTOs (data_out r))
              /\ t ∉ names_of (routingParameterUiVehicleDTOs (data_out r)))
    /\ (self_consistent Samples.dangling_9999 -> broken_refs r = ∅)
    /\ (forall d, one_dangling Samples.dangling_9999 d ->
          (d ∉ names_of (routingParameterUiVehicleDTOs (data_out r)) ->
           broken_refs r = {[ d ]})
          /\ (d ∈ names_of (routingParameterUiVehicleDTOs (data_out r)) ->
              broken_refs r = ∅)).
Proof.
  apply (remap_closure Samples.dangling_9999 2000 2499).
  - vm_compute. eauto.
  - reflexivity.
  - apply (bool_decide_unpack _). by vm_compute.
Defined.

Example three_routes_self_consistent : self_consistent Samples.three_routes.
Proof.
  split; [repeat constructor|]. intros t Ht. apply (bool_decide_unpack _).
  revert t Ht. apply Forall_forall. apply (bool_decide_unpack _). by vm_compute.
Qed.

(** The two scenarios of the specification, run. *)
Example closure_of_three_routes :
  exists r, apply_changes Samples.three_routes 2000 2499 true = Done r
            /\ broken_refs r = ∅.
Proof. eexists. split; [vm_compute; reflexivity|]. vm_compute. reflexivity. Qed.

Example closure_of_dangling_9999 :
  dangling_reported Samples.dangling_9999 2000 2499 "MONT9999".
Proof. eexists. split; [vm_compute; reflexivity|]. vm_compute. reflexivity. Qed.

Lemma one_dangling_2000 : one_dangling Samples.dangling_2000 "MONT2000".
Proof.
  split; [|split; [|split]].
  - repeat constructor.
  - apply (bool_decide_unpack _). by vm_compute.
  - eexists. split; [apply list_elem_of_here|]. apply (bool_decide_unpack _).
    by vm_compute.
  - intros t Ht. apply (bool_decide_unpack _).
    revert t Ht. apply Forall_forall. apply (bool_decide_unpack _). by vm_compute.
Qed.

(** C5 as stated fails when the dangling reference is one of the new
    names: the adjacency MONT2000 of the only route MONT1500 names no route,
    the run to 2000.. renames that route MONT2000, and the report is empty. *)
Lemma dangling_reference_resolves_by_accident :
  one_dangling Samples.dangling_2000 "MONT2000"
  /\ ~ dangling_reported Samples.dangling_2000 2000 2499 "MONT2000".
Proof.
  split; [apply one_dangling_2000|]. intros (r & Hr & Hb).
  assert (Hrun : exists r0,
    apply_changes Samples.dangling_2000 2000 2499 true = Done r0
    /\ broken_refs r0 = ∅).
  { eexists. split; [vm_compute; reflexivity|]. vm_compute. reflexivity. }
  destruct Hrun as (r0 & Hr0 & Hb0). rewrite Hr in Hr0. injection Hr0 as <-.
  rewrite Hb0 in Hb. assert (H : "MONT2000" ∈ (∅ : gset string)); [|set_solver].
  rewrite Hb. set_solver.
Qed.

End ClosureProps.

(** ** More on text: prefixes, digit runs and the text of a number *)

Module TextMore.
Import Py Text.

Lemma sapp_nil_r s : s +:+ EmptyString = s.
Proof. induction s as [|c s IH]; [done|]. by rewrite sapp_cons, IH. Qed.

Lemma sapp_assoc' s t u : (s +:+ t) +:+ u = s +:+ (t +:+ u).
Proof. induction s as [|c s IH]; [done|]. by rewrite !sapp_cons, IH. Qed.

Lemma span_app p s a b : span p s = (a, b) -> s = a +:+ b.
Proof.
  revert a b. induction s as [|c s IH]; intros a b H; simpl in H.
  - by simplify_eq.
  - destruct (p c); [|by simplify_eq].
    destruct (span p s) as [a' b'] eqn:E. simplify_eq.
    rewrite sapp_cons. f_equal. by apply IH.
Qed.

(** What follows the run does not continue it. *)
Definition stops (p : ascii -> bool) (b : string) : Prop :=
  match b with String c _ => p c = false | EmptyString => True end.

Lemma span_stops p s a b : span p s = (a, b) -> stops p b.
Proof.
  revert a b. induction s as [|c s IH]; intros a b H; simpl in H.
  - by simplify_eq.
  - destruct (p c) eqn:Hc; [|by simplify_eq].
    destruct (span p s) as [a' b'] eqn:E. simplify_eq. by eapply IH.
Qed.

Lemma span_run p a b :
  all_chars p a = true -> stops p b -> span p (a +:+ b) = (a, b).
Proof.
  intros Ha Hb. induction a as [|c a IH].
  - rewrite sapp_nil_l. destruct b as [|c b]; [done|]. simpl in *. by rewrite Hb.
  - simpl in Ha. apply andb_true_iff in Ha as [Hc Ha].
    rewrite sapp_cons. simpl. by rewrite Hc, IH.
Qed.

Lemma strip_prefix_app p r : strip_prefix p (p +:+ r) = Some r.
Proof.
  induction p as [|c p IH]; [done|]. rewrite sapp_cons. simpl.
  by rewrite Ascii.eqb_refl.
Qed.

Lemma strip_prefix_Some p s r : strip_prefix p s = Some r -> s = p +:+ r.
Proof.
  revert s. induction p as [|c p IH]; intros s H; simpl in H.
  - by simplify_eq.
  - destruct s as [|d s]; [done|].
    destruct (Ascii.eqb_spec c d) as [->|]; [|done].
    rewrite sapp_cons. f_equal. by apply IH.
Qed.

(** [int(str(n))] is [n]: the digits of a number read back as the number. *)
Lemma digit_val_char x : (x < 10)%N -> digit_val (pretty_N_char x) = Z.of_N x.
Proof.
  intros H. destruct x as [|p]; [done|].
  do 4 (destruct p as [p|p|]; try done; try lia).
Qed.

Lemma digits_val_go x s :
  digits_val (pretty_N_go x s) 0 = digits_val s (Z.of_N x).
Proof.
  revert s. induction (N.lt_wf_0 x) as [x _ IH]. intros s.
  destruct (decide (0 < x)%N) as [Hx|Hx].
  - rewrite pretty_N_go_step by done. rewrite IH by (by apply N.div_lt).
    simpl. rewrite digit_val_char by (by apply N.mod_lt). f_equal.
    rewrite (N.div_mod x 10) at 3 by done. lia.
  - assert (x = 0%N) as -> by lia. by rewrite pretty_N_go_0.
Qed.

Lemma digits_val_pretty (n : Z) : 0 <= n -> digits_val (pretty n) 0 = n.
Proof.
  intros Hn. unfold pretty, pretty_Z. destruct n as [|p|p]; [done| |lia].
  unfold pretty, pretty_positive, pretty, pretty_N.
  rewrite decide_False by done. rewrite digits_val_go. simpl. lia.
Qed.

Lemma pretty_digits (n : Z) : 0 <= n -> all_chars isdigit (pretty n) = true.
Proof.
  intros Hn. unfold pretty, pretty_Z. destruct n as [|p|p]; [done| |lia].
  by apply (pretty_N_chars isdigit (N.pos p)).
Qed.

(** A name of the form prefix then number is matched by the prefix
    pattern. *)
Lemma pretty_head_digit (n : Z) :
  0 <= n -> exists c s, pretty n = String c s /\ isdigit c = true.
Proof.
  intros Hn. pose proof (pretty_digits n Hn) as Hd.
  pose proof (pretty_Z_nonempty n) as Hne.
  destruct (pretty n) as [|c s]; [done|]. simpl in Hd.
  apply andb_true_iff in Hd as [Hc _]. by exists c, s.
Qed.

End TextMore.

(** ** More on the coordinate text *)

Module CodecMore.
Import Py Text TextMore Geometry Document Home CodecProps.

Lemma lstrip_spaces pre s :
  all_chars isspace pre = true -> lstrip (pre +:+ s) = lstrip s.
Proof.
  induction pre as [|c pre IH]; [done|]. simpl.
  intros [Hc Hp]%andb_true_iff. rewrite Hc. by apply IH.
Qed.

Lemma rstrip_spaces post : all_chars isspace post = true -> rstrip post = EmptyString.
Proof.
  induction post as [|c post IH]; [done|]. simpl.
  intros [Hc Hp]%andb_true_iff. by rewrite IH, Hc.
Qed.

Lemma rstrip_app_spaces s post :
  all_chars isspace post = true -> rstrip (s +:+ post) = rstrip s.
Proof.
  intros Hp. induction s as [|c s IH].
  - rewrite sapp_nil_l. by apply rstrip_spaces.
  - rewrite sapp_cons. simpl. by rewrite IH.
Qed.

Lemma strip_app_spaces s post :
  all_chars isspace post = true -> strip (s +:+ post) = strip s.
Proof.
  intros Hp. unfold strip. induction s as [|c s IH].
  - rewrite sapp_nil_l. rewrite <- (sapp_nil_r post), lstrip_spaces by done.
    done.
  - rewrite sapp_cons. simpl. destruct (isspace c); [done|].
    rewrite <- sapp_cons. by apply rstrip_app_spaces.
Qed.

Lemma strip_outer pre s post :
  all_chars isspace pre = true -> all_chars isspace post = true ->
  strip (pre +:+ s +:+ post) = strip s.
Proof.
  intros Hpre Hpost. unfold strip. rewrite lstrip_spaces by done.
  by apply strip_app_spaces.
Qed.

Section Codec.
Context {float : Type} {float_eq : EqDecision float}.
Variable float_of_str : string -> option float.

Local Abbreviation decode := (parse_polygon_text float_of_str).

(** The decoder looks at the stripped text only. *)
Lemma decode_of_strip s t : strip s = strip t -> decode s = decode t.
Proof. intros E. by rewrite !decode_surviving; unfold surviving; rewrite E. Qed.

(** X1: white space around the payload (blank lines before it, a line end
    after it) does not change what is decoded. *)
Theorem decode_outer_space pre s post :
  all_chars isspace pre = true ->
  all_chars isspace post = true ->
  decode (pre +:+ s +:+ post) = decode s.
Proof. intros Hpre Hpost. apply decode_of_strip. by apply strip_outer. Qed.

(** *** The decoder with the library's constructor *)

(** [a == b] on coordinates. *)
Variable feq : float -> float -> bool.

Local Abbreviation same_xy := (Shapely.same_xy feq).
Local Abbreviation decode_checked := (Decoder.parse_polygon_text float_of_str feq).

(** The shell the constructor builds from three coordinates or more: the
    coordinates, then at most one closing coordinate, which is the first;
    four coordinates at least; and closed as the library compares. *)
Definition shell_of (coords ring : list (point float)) : Prop :=
  exists first closing l,
    hd_error coords = Some first
    /\ ring = coords ++ closing
    /\ (closing = [] \/ closing = [first])
    /\ (4 <= length ring)%nat
    /\ last ring = Some l
    /\ same_xy first l = true.

(** The constructor on three coordinates or more: it raises exactly when
    the ring has to be closed by appending and the first coordinate differs
    from itself, and that with [GEOSException]. *)
Lemma Polygon_cases (coords : list (point float)) first l :
  hd_error coords = Some first -> last coords = Some l ->
  (3 <= length coords)%nat ->
  let appended := (length coords =? 3)%nat || negb (same_xy first l) in
  if appended && negb (same_xy first first)
  then Shapely.Polygon feq coords = inl Shapely.GEOSException
  else exists ring,
         Shapely.Polygon feq coords = inr (mk_polygon ring [])
         /\ shell_of coords ring.
Proof.
  intros Hh Hl Hlen appended. unfold Shapely.Polygon, Shapely.linearrings.
  destruct coords as [|c coords]; [done|]. injection Hh as ->.
  rewrite Hl. fold appended.
  assert (Hn : (length (if appended then (first :: coords) ++ [first]
                        else first :: coords) <? 4)%nat = false).
  { apply Nat.ltb_ge. subst appended.
    destruct (length (first :: coords) =? 3)%nat eqn:E3.
    - simpl. rewrite length_app. simpl in *. lia.
    - apply Nat.eqb_neq in E3. simpl orb.
      destruct (negb (same_xy first l)); [rewrite length_app|]; simpl in *; lia. }
  rewrite Hn. destruct appended eqn:Ea.
  - destruct (same_xy first first) eqn:Ef; simpl; [|done].
    eexists. split; [done|]. exists first, [first], first.
    split; [done|]. split; [done|]. split; [by right|].
    split; [by apply Nat.ltb_ge in Hn|]. split; [|done].
    exact (last_snoc first (first :: coords)).
  - simpl. apply orb_false_iff in Ea as [_ Ea].
    apply negb_false_iff in Ea. rewrite Ea.
    eexists. split; [done|]. exists first, [], l.
    rewrite app_nil_r. split; [done|]. split; [done|]. split; [by left|].
    split; [simpl in *; apply Nat.ltb_ge in Hn; done|]. done.
Qed.

(** The constructor over the surviving parts, in order: the first
    exception ends the loop. *)
Fixpoint polygons_of (parts : list (list (point float)))
  : Shapely.error + list (polygon float) :=
  match parts with
  | [] => inr []
  | pts :: rest =>
      match Shapely.Polygon feq pts with
      | inl e => inl e
      | inr p =>
          match polygons_of rest with
          | inl e => inl e
          | inr ps => inr (p :: ps)
          end
      end
  end.

Lemma scan_parts_checked_spec parts_raw pl sp :
  Decoder.scan_parts float_of_str feq parts_raw pl sp
  = match polygons_of (filter (fun pts => (3 <= length pts)%nat)
                              (map (valid_points float_of_str) parts_raw)) with
    | inl e => inl e
    | inr ps =>
        inr (pl ++ map (map swap)
                     (filter (fun pts => (3 <= length pts)%nat)
                             (map (valid_points float_of_str) parts_raw)),
             sp ++ ps)
    end.
Proof.
  revert pl sp. induction parts_raw as [|p ps IH]; intros pl sp; simpl.
  - by rewrite !app_nil_r.
  - rewrite scan_lines_spec. simpl. fold (valid_points float_of_str p).
    rewrite filter_cons.
    destruct (length (valid_points float_of_str p)) as [|[|[|n]]] eqn:E.
    1-3: by rewrite decide_False by lia; rewrite IH.
    rewrite decide_True by lia. simpl.
    destruct (Shapely.Polygon feq (valid_points float_of_str p)) as [e|q];
      [done|].
    rewrite IH. destruct (polygons_of _) as [e|qs]; [done|].
    simpl. by rewrite <- !app_assoc.
Qed.

(** The decoder, read over the parts of the text that survive. *)
Lemma decode_checked_surviving coords_text :
  decode_checked coords_text
  = match polygons_of (surviving float_of_str coords_text) with
    | inl e => inl e
    | inr [] => inr None
    | inr [p] =>
        inr (Some (mk_parsed (map (map swap) (surviving float_of_str coords_text))
                             (GPolygon p)))
    | inr ps =>
        inr (Some (mk_parsed (map (map swap) (surviving float_of_str coords_text))
                             (GMultiPolygon ps)))
    end.
Proof.
  unfold Decoder.parse_polygon_text, surviving.
  destruct (Py.is_empty coords_text || Py.is_empty (strip coords_text)) eqn:E.
  - assert (Hs : strip coords_text = EmptyString).
    { apply orb_true_iff in E as [E|E]; apply is_empty_true in E;
        [by rewrite E|done]. }
    by rewrite Hs.
  - rewrite scan_parts_checked_spec. simpl.
    destruct (polygons_of _) as [e|[|p [|q l]]]; done.
Qed.

Lemma polygons_of_shells parts ps :
  Forall (fun pts => (3 <= length pts)%nat) parts ->
  polygons_of parts = inr ps ->
  Forall2 (fun pts p => shell_of pts (exterior p) /\ interiors p = []) parts ps.
Proof.
  revert ps. induction parts as [|pts parts IH]; intros ps Hlen H; simpl in H.
  - simplify_eq. constructor.
  - apply Forall_cons in Hlen as [Hp Hlen].
    destruct (Shapely.Polygon feq pts) as [e|p] eqn:Ep; [done|].
    destruct (polygons_of parts) as [e|qs] eqn:Eq; [done|]. simplify_eq.
    constructor; [|by apply IH].
    destruct pts as [|first pts'] eqn:Epts; [simpl in Hp; lia|].
    destruct (last (first :: pts')) as [l|] eqn:El.
    2:{ by apply last_None in El. }
    pose proof (Polygon_cases (first :: pts') first l eq_refl El Hp) as Hc.
    cbv zeta in Hc. destruct (_ && _).
    + rewrite Ep in Hc. done.
    + destruct Hc as (ring & Hr & Hs). rewrite Ep in Hr. by simplify_eq.
Qed.

(** X2: whenever the decoder returns a result, it has a part, every part
    has three points or more, and the geometry is a polygon when there is
    one part and a multi-polygon of as many parts, two or more, otherwise,
    which normalisation leaves as it is. The two views agree: each shell
    holds the points of its (lat, lon) part with the coordinates swapped
    back, in order, then at most one closing point, which is the first; it
    has four points or more, and its ends are equal as numbers. *)
Theorem decoded_views_agree coords_text res :
  decode_checked coords_text = inr (Some res) ->
  parts_latlon res <> []
  /\ Forall (fun part => (3 <= length part)%nat) (parts_latlon res)
  /\ Forall2 (fun part ring => shell_of (map swap part) ring)
             (parts_latlon res) (rings (shapely res))
  /\ (match shapely res with
      | GPolygon _ => length (parts_latlon res) = 1%nat
      | GMultiPolygon ps =>
          (2 <= length ps)%nat /\ length ps = length (parts_latlon res)
      | _ => False
      end)
  /\ normalize_geom (Some (shapely res)) = Some (shapely res).
Proof.
  rewrite decode_checked_surviving.
  assert (Hlen : Forall (fun pts : list (point float) => (3 <= length pts)%nat)
                        (surviving float_of_str coords_text)).
  { unfold surviving. apply Forall_forall. by intros x [? _]%list_elem_of_filter. }
  assert (Hswap : forall pts : list (point float), map swap (map swap pts) = pts).
  { intros pts. rewrite map_map. rewrite <- (map_id pts) at 2.
    apply map_ext. by intros []. }
  destruct (polygons_of (surviving float_of_str coords_text)) as [e|ps] eqn:Ep;
    [done|].
  pose proof (polygons_of_shells _ _ Hlen Ep) as Hsh.
  assert (Hl : length (surviving float_of_str coords_text) = length ps)
    by (by eapply Forall2_length).
  assert (Hrings : Forall2 (fun part ring => shell_of (map swap part) ring)
                     (map (map swap) (surviving float_of_str coords_text))
                     (map exterior ps)).
  { apply Forall2_fmap. eapply Forall2_impl; [exact Hsh|].
    intros pts p [Hs _]. simpl. by rewrite Hswap. }
  assert (Hlens : Forall (fun part : list (point float) => (3 <= length part)%nat)
                         (map (map swap) (surviving float_of_str coords_text))).
  { apply Forall_fmap. eapply Forall_impl; [exact Hlen|].
    intros pts Hp. simpl. by rewrite length_map. }
  destruct ps as [|p [|q l]]; intros H; simplify_eq; simpl in *.
  - destruct (surviving float_of_str coords_text) as [|a [|b t]]; simplify_eq/=.
    by repeat split.
  - destruct (surviving float_of_str coords_text) as [|a [|b t]]; simplify_eq/=.
    split; [done|]. split; [done|]. split; [done|]. split; [|done].
    rewrite !length_map. split; lia.
Qed.

(** Where the container stands for the constructor: on three coordinates
    or more whose first is equal to itself as a number, whose ends are the
    same value exactly when they are equal as numbers, and which are not a
    ring of three coordinates that is closed already. *)
Lemma container_polygon_exact (coords : list (point float)) first l :
  hd_error coords = Some first -> last coords = Some l ->
  (3 <= length coords)%nat ->
  same_xy first first = true ->
  (first = l <-> same_xy first l = true) ->
  (length coords = 3%nat -> first <> l) ->
  Shapely.Polygon feq coords = inr (Geometry.Polygon coords).
Proof.
  intros Hh Hl Hlen Hf Heq H3.
  unfold Shapely.Polygon, Shapely.linearrings, Geometry.Polygon, close_ring.
  destruct coords as [|c coords]; [done|]. injection Hh as ->. rewrite Hl.
  destruct (decide (first = l)) as [->|Hne].
  - assert (Hs : same_xy l l = true) by done.
    assert (E3 : (length (l :: coords) =? 3)%nat = false).
    { apply Nat.eqb_neq. intros E. by apply H3. }
    rewrite E3, Hs. simpl orb. cbv iota.
    replace (length (l :: coords) <? 4)%nat with false; [by rewrite Hs|].
    symmetry. apply Nat.ltb_ge. apply Nat.eqb_neq in E3. simpl in *. lia.
  - assert (Hs : same_xy first l = false).
    { apply not_true_is_false. intros E. by apply Heq in E. }
    rewrite Hs, orb_true_r. simpl negb. cbv iota. rewrite Hf.
    replace (length ((first :: coords) ++ [first]) <? 4)%nat with false;
      [by rewrite ?Hf|].
    symmetry. apply Nat.ltb_ge. rewrite length_app. simpl in *. lia.
Qed.

(** Coordinates on which the container stands for the constructor. *)
Definition plain (coords : list (point float)) : Prop :=
  exists first l,
    hd_error coords = Some first /\ last coords = Some l
    /\ same_xy first first = true
    /\ (first = l <-> same_xy first l = true)
    /\ (length coords = 3%nat -> first <> l).

(** On a text whose surviving parts are plain, the decoder with the
    constructor returns what the decoder with the container returns. *)
Lemma decode_checked_plain coords_text :
  Forall plain (surviving float_of_str coords_text) ->
  decode_checked coords_text = inr (decode coords_text).
Proof.
  intros Hp. rewrite decode_checked_surviving, decode_surviving.
  assert (Hlen : Forall (fun pts : list (point float) => (3 <= length pts)%nat)
                        (surviving float_of_str coords_text)).
  { unfold surviving. apply Forall_forall. by intros x [? _]%list_elem_of_filter. }
  assert (H : polygons_of (surviving float_of_str coords_text)
              = inr (map Geometry.Polygon (surviving float_of_str coords_text))).
  { induction (surviving float_of_str coords_text) as [|pts l IH]; [done|].
    apply Forall_cons in Hp as [(first & la & Hh & Hl & Hf & He & H3) Hp].
    apply Forall_cons in Hlen as [Hn Hlen]. simpl.
    rewrite (container_polygon_exact pts first la) by done.
    by rewrite IH. }
  rewrite H. by destruct (surviving float_of_str coords_text) as [|a [|b t]].
Qed.

End Codec.

(** Three lines, the first of which reads as the point (NaN, NaN). *)
Definition nan_first : string :=
  "nan,nan" +:+ String Py.LF ("1,0" +:+ String Py.LF "1,1").

(** C2: on the text of the three lines [nan,nan], [1,0] and [1,1] every
    line reads as a point, so the part survives and [Polygon] is called on
    it; the library closes the ring with its first point, finds it not
    closed, and the decoder raises [GEOSException] where the
    specification has it return a polygon. *)
Theorem decode_raises_on_nan :
  Decoder.parse_polygon_text Binary64.float_of_str Binary64.eqb nan_first
  = inl Shapely.GEOSException.
Proof. vm_compute. reflexivity. Qed.

(** The same text with a first point that is a number decodes to a
    polygon, and with a first line that is no point at all to nothing. *)
Example decode_without_nan :
  (exists res,
      Decoder.parse_polygon_text Binary64.float_of_str Binary64.eqb
        ("0,0" +:+ String Py.LF ("1,0" +:+ String Py.LF "1,1"))
      = inr (Some res)
      /\ length (rings (shapely res)) = 1%nat)
  /\ Decoder.parse_polygon_text Binary64.float_of_str Binary64.eqb
       ("n/a" +:+ String Py.LF ("1,0" +:+ String Py.LF "1,1"))
     = inr None.
Proof. split; [eexists; split|]; vm_compute; reflexivity. Qed.

(** The shells the constructor builds: a ring of three coordinates that
    is closed already is padded with its first coordinate, and a closing
    coordinate that is equal as a number (a zero of the other sign) is
    taken as closing. *)
Example shells_as_built :
  Shapely.Polygon Binary64.eqb
    [Samples.pt "0" "0"; Samples.pt "1" "1"; Samples.pt "0" "0"]
  = inr (mk_polygon [Samples.pt "0" "0"; Samples.pt "1" "1"; Samples.pt "0" "0";
                     Samples.pt "0" "0"] [])
  /\ Shapely.Polygon Binary64.eqb
       [Samples.pt "0" "0"; Samples.pt "1" "0"; Samples.pt "1" "1";
        Samples.pt "-0.0" "0"]
     = inr (mk_polygon [Samples.pt "0" "0"; Samples.pt "1" "0"; Samples.pt "1" "1";
                        Samples.pt "-0.0" "0"] []).
Proof. split; vm_compute; reflexivity. Qed.

Lemma decode_outer_space_witness :
  parse_polygon_text Binary64.float_of_str
    (CRLF +:+ Samples.square_text +:+ (CRLF +:+ CRLF))
  = parse_polygon_text Binary64.float_of_str Samples.square_text.
Proof.
  apply (decode_outer_space Binary64.float_of_str CRLF Samples.square_text
           (CRLF +:+ CRLF)); reflexivity.
Defined.

(** The unit square as the editor reads its text. *)
Definition square_parsed : parsed (float := Binary64.float) :=
  default (mk_parsed [] (GPolygon Samples.unit_square))
          (decode64 Samples.square_text).

Lemma decoded_views_agree_witness :
  parts_latlon square_parsed <> []
  /\ Forall (fun part => (3 <= length part)%nat) (parts_latlon square_parsed)
  /\ Forall2 (fun part ring => shell_of Binary64.eqb (map swap part) ring)
             (parts_latlon square_parsed) (rings (shapely square_parsed))
  /\ (match shapely square_parsed with
      | GPolygon _ => length (parts_latlon square_parsed) = 1%nat
      | GMultiPolygon ps =>
          (2 <= length ps)%nat /\ length ps = length (parts_latlon square_parsed)
      | _ => False
      end)
  /\ normalize_geom (Some (shapely square_parsed)) = Some (shapely square_parsed).
Proof.
  apply (decoded_views_agree Binary64.float_of_str Binary64.eqb
           Samples.square_text).
  vm_compute. reflexivity.
Defined.


End CodecMore.

(** ** The admissible pattern, written and read back *)

Module PatternProps.
Import Py Text TextMore Document.

Lemma isAZ_bar : isAZ "|" = false.
Proof. reflexivity. Qed.

Lemma isdigit_bar : isdigit "|" = false.
Proof. reflexivity. Qed.

(** The pattern the pages write, [f"{prefix}|{lo}|{hi}"]. *)
Definition pattern_text (prefix : string) (lo hi : Z) : string :=
  prefix +:+ "|" +:+ pretty lo +:+ "|" +:+ pretty hi.

Lemma parse_pattern_text prefix lo hi :
  prefix <> EmptyString -> all_chars isAZ prefix = true ->
  0 <= lo -> 0 <= hi ->
  parse_pattern (pattern_text prefix lo hi) = Some (prefix, lo, hi).
Proof.
  intros Hne Hp Hlo Hhi. unfold parse_pattern, pattern_text.
  rewrite !sapp_cons, !sapp_nil_l.
  rewrite (span_run isAZ prefix) by done.
  rewrite (span_run isdigit (pretty lo)) by (by try apply pretty_digits).
  rewrite <- (sapp_nil_r (pretty hi)).
  rewrite (span_run isdigit (pretty hi)) by (by try apply pretty_digits).
  assert (He : forall t, t <> EmptyString -> is_empty t = false)
    by (by intros []).
  rewrite !He by (done || apply pretty_Z_nonempty). simpl.
  by rewrite !digits_val_pretty.
Qed.

Lemma parse_pattern_nonempty s prefix lo hi :
  parse_pattern s = Some (prefix, lo, hi) -> prefix <> EmptyString.
Proof.
  unfold parse_pattern. intros H. repeat case_match; simplify_eq.
  by destruct prefix.
Qed.

End PatternProps.

(** ** More on the range remapper *)

Module RemapProps.
Import Py Text TextMore Document Bulk BulkProps PatternProps.

(** The fields of a route the remapper has no business with. *)
Definition cargo (r : route)
  : string * option string * string * list preference :=
  (id r, routingParameterId r, excludedRoutes r,
   routingParameterUiVehiclePreferenceDTOs r).

Lemma cargo_rename_route m r : cargo (rename_route m r) = cargo r.
Proof. unfold rename_route. by repeat case_match. Qed.

Lemma cargo_rewrite_adjacent m r : cargo (rewrite_adjacent m r) = cargo r.
Proof. unfold rewrite_adjacent. by case_match. Qed.

Lemma cargo_rewrite_representative m r r' :
  rewrite_representative m r = Done r' -> cargo r' = cargo r.
Proof.
  unfold rewrite_representative. intros H. repeat case_match; by simplify_eq.
Qed.

(** A completed run, taken apart. *)
Lemma apply_changes_Done data new_min new_max adjust r :
  apply_changes data new_min new_max adjust = Done r ->
  exists lo hi routes2,
    parse_pattern (admissibleRoutePatterns data) = Some (prefix_of data, lo, hi)
    /\ valid_range new_min new_max = true
    /\ (if adjust
        then for_each (fun x => rewrite_representative (mapping_of data new_min)
                                  (rewrite_adjacent (mapping_of data new_min) x))
               (map (rename_route (mapping_of data new_min))
                    (routingParameterUiVehicleDTOs data)) = Done routes2
        else routes2 = map (rename_route (mapping_of data new_min))
                           (routingParameterUiVehicleDTOs data))
    /\ data_out r
       = mk_document (doc_id data) (pattern_text (prefix_of data) new_min new_max)
           (routeNumberGap data) routes2
           (if adjust
            then option_map (map (rewrite_label (mapping_of data new_min)))
                            (routingParameterNodeDTOs data)
            else routingParameterNodeDTOs data)
    /\ broken_refs_of (data_out r) = Done (broken_refs r)
    /\ updated_routes r
       = omap (fun x =>
                 match mapping_of data new_min !! name x with
                 | Some n => if decide (n = name x) then None else Some (name x, n)
                 | None => None
                 end) (routingParameterUiVehicleDTOs data).
Proof.
  unfold apply_changes, mapping_of, prefix_of, gap_of. intros H.
  destruct (parse_pattern (admissibleRoutePatterns data)) as [[[prefix lo] hi]|];
    [|done].
  destruct (valid_range new_min new_max); [|done]. simpl in H.
  exists lo, hi.
  destruct adjust.
  - destruct (for_each _ _) as [routes2| | |] eqn:Hfe; simpl in H; try done.
    destruct (broken_refs_of _) as [b| | |] eqn:Hb; simpl in H; try done.
    injection H as <-. by exists routes2.
  - simpl in H. destruct (broken_refs_of _) as [b| | |] eqn:Hb; simpl in H; try done.
    injection H as <-. by eexists.
Qed.

Lemma valid_range_bounds new_min new_max :
  valid_range new_min new_max = true -> 0 <= new_min < new_max.
Proof.
  unfold valid_range. destruct (new_max <=? new_min) eqn:E1; [done|].
  destruct (new_min <? 0) eqn:E2; [done|]. lia.
Qed.

(** The pattern, the stride and the identifier after a run. *)
Lemma pattern_after_run data new_min new_max adjust r :
  apply_changes data new_min new_max adjust = Done r ->
  parse_pattern (admissibleRoutePatterns (data_out r))
  = Some (prefix_of data, new_min, new_max)
  /\ routeNumberGap (data_out r) = routeNumberGap data
  /\ doc_id (data_out r) = doc_id data.
Proof.
  intros H. apply apply_changes_Done in H
    as (lo & hi & routes2 & Hp & Hv & _ & -> & _ & _).
  apply valid_range_bounds in Hv. simpl. split; [|done].
  apply parse_pattern_text; [|by eapply ClosureProps.parse_pattern_prefix|lia|lia].
  by eapply parse_pattern_nonempty.
Qed.

(** X3: the document a run leaves carries the new range in its pattern: read
    back, it gives the old prefix and the two numbers typed; the stride and
    the identifier of the document are kept. So the pages that read the
    pattern accept the document again. *)
Theorem remap_pattern_reads_back data new_min new_max adjust r :
  apply_changes data new_min new_max adjust = Done r ->
  parse_pattern (admissibleRoutePatterns (data_out r))
  = Some (prefix_of data, new_min, new_max)
  /\ routeNumberGap (data_out r) = routeNumberGap data
  /\ doc_id (data_out r) = doc_id data.
Proof. exact (pattern_after_run data new_min new_max adjust r). Qed.

(** X4: a run rewrites names and references only. Route by route, in the
    same order, the identifier, the preferences with their postal codes and
    zones, and the excluded routes are those of the input; so a zone named
    after its route keeps the old name. Without [adjust] the adjacency and
    the representative are untouched too, and so are the nodes; with it the
    nodes keep their identifiers. *)
Theorem remap_leaves_zones data new_min new_max adjust r :
  apply_changes data new_min new_max adjust = Done r ->
  Forall2 (fun r_in r_out =>
             cargo r_out = cargo r_in
             /\ (adjust = false ->
                 adjacentRoutes r_out = adjacentRoutes r_in
                 /\ representative r_out = representative r_in))
          (routingParameterUiVehicleDTOs data)
          (routingParameterUiVehicleDTOs (data_out r))
  /\ (adjust = false ->
      routingParameterNodeDTOs (data_out r) = routingParameterNodeDTOs data)
  /\ option_map (map node_id) (routingParameterNodeDTOs (data_out r))
     = option_map (map node_id) (routingParameterNodeDTOs data).
Proof.
  intros H. apply apply_changes_Done in H
    as (lo & hi & routes2 & _ & _ & Hr & -> & _ & _).
  simpl. set (m := mapping_of data new_min) in *. split; [|split].
  - destruct adjust.
    + apply for_each_Done_inv in Hr.
      remember (map (rename_route m) _) as routes1 eqn:E.
      revert E. generalize (routingParameterUiVehicleDTOs data).
      induction Hr as [|x y l l' Hxy Hl IH]; intros [|r0 rs] E; simplify_eq/=;
        constructor; [|by apply IH].
      split; [|done]. apply cargo_rewrite_representative in Hxy.
      by rewrite Hxy, cargo_rewrite_adjacent, cargo_rename_route.
    + subst routes2. apply Forall2_fmap_r, Forall_Forall2_diag, Forall_forall.
      intros x _. split; [apply cargo_rename_route|]. intros _.
      unfold rename_route. by repeat case_match.
  - by intros ->.
  - destruct adjust; [|done].
    destruct (routingParameterNodeDTOs data) as [ns|]; [|done]. simpl.
    f_equal. rewrite map_map. apply map_ext. intros n.
    unfold rewrite_label. by case_match.
Qed.

(** A new name is a name the remapper would renumber. *)
Lemma matches_prefix_new prefix k :
  0 <= k -> matches_prefix prefix (prefix +:+ pretty k) = true.
Proof.
  intros Hk. unfold matches_prefix. rewrite strip_prefix_app.
  by destruct (pretty_head_digit k Hk) as (c & s & -> & Hc).
Qed.

Lemma elem_of_resequence prefix gap l c x :
  0 <= gap -> x ∈ resequence prefix gap l c ->
  (matches_prefix prefix x = false /\ x ∈ map name l)
  \/ exists k, c <= k /\ x = prefix +:+ pretty k.
Proof.
  intros Hg. revert c. induction l as [|r l IH]; intros c Hx; simpl in Hx.
  { by apply elem_of_nil in Hx. }
  destruct (matches_prefix prefix (name r)) eqn:E.
  - apply elem_of_cons in Hx as [->|Hx].
    + right. exists c. split; [lia|done].
    + apply IH in Hx as [[Hm Hx]|(k & Hk & ->)].
      * left. split; [done|]. simpl. by right.
      * right. exists k. split; [lia|done].
  - apply elem_of_cons in Hx as [->|Hx].
    + left. split; [done|]. simpl. by left.
    + apply IH in Hx as [[Hm Hx]|(k & Hk & ->)].
      * left. split; [done|]. simpl. by right.
      * right. by exists k.
Qed.

Lemma resequence_NoDup prefix gap l c :
  0 < gap -> 0 <= c ->
  NoDup (map name l) -> NoDup (resequence prefix gap l c).
Proof.
  intros Hg. revert c. induction l as [|r l IH]; intros c Hc Hnd; simpl.
  { apply NoDup_nil_2. }
  simpl in Hnd. apply NoDup_cons in Hnd as [Hr Hnd].
  destruct (matches_prefix prefix (name r)) eqn:E.
  - apply NoDup_cons. split; [|apply IH; [lia|done]].
    intros Hx. apply elem_of_resequence in Hx as [[Hm _]|(k & Hk & Hx)]; [| |lia].
    + rewrite matches_prefix_new in Hm by done. done.
    + apply (inj (String.app prefix)), (inj pretty) in Hx. lia.
  - apply NoDup_cons. split; [|by apply IH].
    intros Hx. apply elem_of_resequence in Hx as [[_ Hx]|(k & Hk & Hx)]; [done| |lia].
    rewrite Hx, matches_prefix_new in E by lia. done.
Qed.

(** Names that are already the positional sequence are renumbered to
    themselves. *)
Lemma resequence_again prefix gap l l' c :
  0 <= gap -> 0 <= c ->
  map name l' = resequence prefix gap l c ->
  resequence prefix gap l' c = resequence prefix gap l c.
Proof.
  intros Hg. revert l' c. induction l as [|r l IH]; intros [|r' l'] c Hc H;
    simpl in *; try done.
  destruct (matches_prefix prefix (name r)) eqn:E; injection H as Hn Hl.
  - rewrite Hn, matches_prefix_new by done. f_equal. apply IH; [lia|done].
  - rewrite Hn, E. f_equal. by apply IH.
Qed.

Lemma NoDup_matched prefix l :
  NoDup (map name l) -> NoDup (map name (matched prefix l)).
Proof.
  intros H. eapply sublist_NoDup; [exact H|].
  apply (fmap_sublist name). unfold matched. apply sublist_filter.
Qed.

(** The names a completed run leaves, when the input names are distinct. *)
Lemma names_out_resequence data new_min new_max adjust r :
  apply_changes data new_min new_max adjust = Done r ->
  NoDup (map name (routingParameterUiVehicleDTOs data)) ->
  map name (routingParameterUiVehicleDTOs (data_out r))
  = resequence (prefix_of data) (gap_of data)
               (routingParameterUiVehicleDTOs data) new_min.
Proof.
  intros H Hnd. apply apply_changes_names in H as (_ & _ & ->).
  apply build_mapping_resequence; [by apply NoDup_matched|].
  intros k [? Hk]. by rewrite lookup_empty in Hk.
Qed.

(** Distinct names stay distinct. *)
Lemma names_distinct_after_run data new_min new_max adjust r :
  apply_changes data new_min new_max adjust = Done r ->
  0 < gap_of data ->
  NoDup (map name (routingParameterUiVehicleDTOs data)) ->
  NoDup (map name (routingParameterUiVehicleDTOs (data_out r))).
Proof.
  intros H Hg Hnd. rewrite (names_out_resequence _ _ _ _ _ H Hnd).
  pose proof (apply_changes_names _ _ _ _ _ H) as (_ & Hv & _).
  apply valid_range_bounds in Hv. apply resequence_NoDup; [done|lia|done].
Qed.

(** X5: with a stride of one or more, a run never makes two routes share a
    name: route names that are pairwise distinct stay pairwise distinct. *)
Theorem remap_keeps_names_distinct data new_min new_max adjust r :
  apply_changes data new_min new_max adjust = Done r ->
  0 < gap_of data ->
  NoDup (map name (routingParameterUiVehicleDTOs data)) ->
  NoDup (map name (routingParameterUiVehicleDTOs (data_out r))).
Proof. exact (names_distinct_after_run data new_min new_max adjust r). Qed.

Lemma broken_refs_by_name d b :
  broken_refs_of d = Done b -> by_name (routingParameterUiVehicleDTOs d).
Proof.
  unfold broken_refs_of. intros H.
  destruct (for_each _ _) as [per| | |] eqn:Hfe; simpl in H; try done.
  apply for_each_Done_inv in Hfe. clear H. unfold by_name.
  revert Hfe. generalize (list_to_set (map name (routingParameterUiVehicleDTOs d))
                          : gset string).
  intros names Hfe.
  induction Hfe as [|x y l l' Hxy Hl IH]; constructor; [|done].
  intros Hrep. unfold broken_of_route in Hxy. by rewrite Hrep in Hxy.
Qed.

(** X6: a second run with the same range renames nothing. After a run on
    routes with distinct names and a stride of one or more, the same run on
    its result completes, leaves every name as it is and lists no renamed
    route. *)
Theorem remap_again_renames_nothing data new_min new_max adjust r :
  apply_changes data new_min new_max adjust = Done r ->
  0 < gap_of data ->
  NoDup (map name (routingParameterUiVehicleDTOs data)) ->
  exists r2,
    apply_changes (data_out r) new_min new_max adjust = Done r2
    /\ map name (routingParameterUiVehicleDTOs (data_out r2))
       = map name (routingParameterUiVehicleDTOs (data_out r))
    /\ updated_routes r2 = []
    /\ admissibleRoutePatterns (data_out r2) = admissibleRoutePatterns (data_out r).
Proof.
  intros H Hg Hnd.
  pose proof (pattern_after_run _ _ _ _ _ H) as (Hpat & Hgap & _).
  pose proof (apply_changes_names _ _ _ _ _ H) as (_ & Hv & _).
  pose proof (valid_range_bounds _ _ Hv) as Hb.
  pose proof (names_distinct_after_run _ _ _ _ _ H Hg Hnd) as Hnd2.
  pose proof (names_out_resequence _ _ _ _ _ H Hnd) as Hnames.
  pose proof (apply_changes_Done _ _ _ _ _ H) as (? & ? & ? & _ & _ & _ & _ & Hbr & _).
  apply broken_refs_by_name in Hbr.
  destruct (apply_changes_completes (data_out r) new_min new_max adjust)
    as (r2 & Hr2); [by rewrite Hpat|done|done|].
  assert (Hpre : prefix_of (data_out r) = prefix_of data).
  { unfold prefix_of at 1. by rewrite Hpat. }
  assert (Hgap' : gap_of (data_out r) = gap_of data).
  { unfold gap_of. by rewrite Hgap. }
  pose proof (names_out_resequence _ _ _ _ _ Hr2 Hnd2) as Hnames2.
  rewrite Hpre, Hgap' in Hnames2.
  rewrite (resequence_again _ _ (routingParameterUiVehicleDTOs data)) in Hnames2
    by (done || lia).
  exists r2. split; [done|]. split; [by rewrite Hnames2, Hnames|]. split.
  - pose proof (apply_changes_names _ _ _ _ _ Hr2) as (_ & _ & Hn2).
    rewrite Hnames2, <- Hnames in Hn2.
    pose proof (apply_changes_Done _ _ _ _ _ Hr2) as (? & ? & ? & _ & _ & _ & _ & _ & ->).
    clear -Hn2. induction (routingParameterUiVehicleDTOs (data_out r)) as [|x l IH];
      [done|].
    simpl in *. injection Hn2 as Hx Hl. unfold remap in Hx.
    destruct (mapping_of (data_out r) new_min !! name x) as [n|]; simpl in *.
    + rewrite decide_True by done. by apply IH.
    + by apply IH.
  - pose proof (apply_changes_Done _ _ _ _ _ Hr2) as (? & ? & ? & _ & _ & _ & -> & _).
    pose proof (apply_changes_Done _ _ _ _ _ H) as (? & ? & ? & _ & _ & _ & -> & _).
    simpl. unfold prefix_of at 1. simpl.
    fold (pattern_text (prefix_of data) new_min new_max).
    rewrite parse_pattern_text; [done| | |lia|lia].
    + destruct (apply_changes_Done _ _ _ _ _ H) as (lo & hi & ? & Hp & _).
      by eapply parse_pattern_nonempty.
    + destruct (apply_changes_Done _ _ _ _ _ H) as (lo & hi & ? & Hp & _).
      by eapply ClosureProps.parse_pattern_prefix.
Qed.

(** Routes 1500, 1505 and 1510 sent to 2000 onwards, and the two zoned
    routes of the editor's sample sent there too. *)
Definition renumbered : report :=
  match apply_changes Samples.three_routes 2000 2499 true with
  | Done r => r
  | _ => mk_report Samples.three_routes [] ∅
  end.

Definition rezoned : report :=
  match apply_changes Samples.loaded 2000 2499 false with
  | Done r => r
  | _ => mk_report Samples.loaded [] ∅
  end.

Lemma remap_pattern_reads_back_witness :
  parse_pattern (admissibleRoutePatterns (data_out renumbered))
  = Some (prefix_of Samples.three_routes, 2000, 2499)
  /\ routeNumberGap (data_out renumbered) = routeNumberGap Samples.three_routes
  /\ doc_id (data_out renumbered) = doc_id Samples.three_routes.
Proof.
  apply (remap_pattern_reads_back Samples.three_routes 2000 2499 true).
  vm_compute. reflexivity.
Defined.

Lemma remap_leaves_zones_witness :
  Forall2 (fun r_in r_out =>
             cargo r_out = cargo r_in
             /\ (false = false ->
                 adjacentRoutes r_out = adjacentRoutes r_in
                 /\ representative r_out = representative r_in))
          (routingParameterUiVehicleDTOs Samples.loaded)
          (routingParameterUiVehicleDTOs (data_out rezoned))
  /\ (false = false ->
      routingParameterNodeDTOs (data_out rezoned)
      = routingParameterNodeDTOs Samples.loaded)
  /\ option_map (map node_id) (routingParameterNodeDTOs (data_out rezoned))
     = option_map (map node_id) (routingParameterNodeDTOs Samples.loaded).
Proof.
  apply (remap_leaves_zones Samples.loaded 2000 2499 false).
  vm_compute. reflexivity.
Defined.

Lemma remap_keeps_names_distinct_witness :
  NoDup (map name (routingParameterUiVehicleDTOs (data_out renumbered))).
Proof.
  apply (remap_keeps_names_distinct Samples.three_routes 2000 2499 true).
  - vm_compute. reflexivity.
  - reflexivity.
  - apply (bool_decide_unpack _). vm_compute. exact I.
Defined.

Lemma remap_again_renames_nothing_witness :
  exists r2,
    apply_changes (data_out renumbered) 2000 2499 true = Done r2
    /\ map name (routingParameterUiVehicleDTOs (data_out r2))
       = map name (routingParameterUiVehicleDTOs (data_out renumbered))
    /\ updated_routes r2 = []
    /\ admissibleRoutePatterns (data_out r2)
       = admissibleRoutePatterns (data_out renumbered).
Proof.
  apply (remap_again_renames_nothing Samples.three_routes 2000 2499 true).
  - vm_compute. reflexivity.
  - reflexivity.
  - apply (bool_decide_unpack _). vm_compute. exact I.
Defined.


End RemapProps.

(** ** More on routes from scratch *)

Module ScratchProps.
Import Py Text TextMore Geometry Document App9 App9Props.

Section Runs.
Context {float : Type} {float_eq : EqDecision float}.
Variable fmt12 : float -> string.
Variable unary_union : list string -> geometry float.
Variable area_lt : polygon float -> polygon float -> bool.
Variable network_id : string.

Local Abbreviation press_button := (add_route fmt12 unary_union area_lt network_id).
Local Abbreviation press_buttons := (add_routes fmt12 unary_union area_lt network_id).

(** The name of the route numbered [n]. *)
Definition name_of_num (n : Z) : string := prefix +:+ pretty n.

(** The route a press makes once its number and the text of its polygon
    are known. *)
Definition route_made (p : press) (num : Z) (polygon_coords : string) : route :=
  mk_route (pretty (uid p)) (Some network_id) (name_of_num num)
    EmptyString (RepName EmptyString) EmptyString
    [mk_preference (pretty (pref_id p)) (pretty (uid p))
       (join "," (selected_fsas p)) EmptyString true
       (Some (mk_zone (pretty (poly_id p)) (name_of_num num)
                polygon_coords network_id))
       "1.0" 1].

(** One press, case by case. *)
Lemma add_route_cases p st st' o :
  press_button p st = (st', o) ->
  route_number_gap p <> 0 ->
  (st' = st /\ (o = Stopped \/ o = Raised ValueError))
  \/ exists num k,
       (k <= length (used_nums st))%nat
       /\ num = start_num + Z.of_nat k * route_number_gap p
       /\ (num ∉ used_nums st)
       /\ (forall j, (j < k)%nat ->
             (start_num + Z.of_nat j * route_number_gap p) ∈ used_nums st)
       /\ used_nums st' = used_nums st ++ [num]
       /\ ((exists text,
              o = Done num
              /\ polygon_to_str fmt12
                   (match unary_union (selected_fsas p) with
                    | GMultiPolygon (g :: rest) =>
                        GPolygon (max_by_area area_lt g rest)
                    | g => g
                    end) = Done text
              /\ routes st' = routes st ++ [route_made p num text])
           \/ (o = Raised AttributeError /\ routes st' = routes st)).
Proof.
  intros H Hgap. unfold add_route in H.
  destruct (selected_fsas p) as [|z zs] eqn:Hsel.
  { simplify_eq. left. split; [done|by left]. }
  destruct (union_to_polygon _ _) as [g| | |] eqn:Hu.
  - destruct (next_num_total start_num _ (used_nums st) Hgap) as [n Hn].
    rewrite Hn in H. apply next_num_Some in Hn as (k & Hk & Hnk & Hfresh & Hbefore).
    right. exists n, k. split; [lia|]. split; [done|]. split; [done|].
    split; [done|].
    assert (Hg : g = match unary_union (z :: zs) with
                     | GMultiPolygon (g0 :: rest) =>
                         GPolygon (max_by_area area_lt g0 rest)
                     | g0 => g0
                     end).
    { unfold union_to_polygon in Hu. repeat case_match; by simplify_eq. }
    destruct (polygon_to_str fmt12 g) as [text| | |] eqn:Ht; simplify_eq/=.
    + split; [done|]. left. exists text. split; [done|]. split; [exact Ht|].
      unfold route_made. by rewrite Hsel.
    + unfold polygon_to_str in Ht. repeat case_match; by simplify_eq.
    + split; [done|]. right. split; [|done].
      unfold polygon_to_str in Ht. repeat case_match; by simplify_eq.
    + unfold polygon_to_str in Ht. repeat case_match; by simplify_eq.
  - unfold union_to_polygon in Hu. by repeat case_match.
  - simplify_eq. left. split; [done|]. right.
    unfold union_to_polygon in Hu. repeat case_match; by simplify_eq.
  - unfold union_to_polygon in Hu. by repeat case_match.
Qed.

(** What a run has made so far: the routes are named after the numbers of
    the presses that completed, in order. *)
Definition names_drawn (outs : list (outcome Z)) : list string :=
  omap (fun o => match o with Done n => Some (name_of_num n) | _ => None end) outs.

Lemma names_follow ps st st' outs :
  press_buttons ps st = (st', outs) ->
  Forall (fun p => route_number_gap p <> 0) ps ->
  map name (routes st') = map name (routes st) ++ names_drawn outs
  /\ (map name (routes st) `sublist_of` map name_of_num (used_nums st) ->
      map name (routes st') `sublist_of` map name_of_num (used_nums st')).
Proof.
  revert st st' outs. induction ps as [|p ps IH]; intros st st' outs H Hg.
  { simplify_eq/=. by rewrite app_nil_r. }
  simpl in H. destruct (press_button p st) as [st1 o] eqn:H1.
  destruct (press_buttons ps st1) as [st2 os] eqn:H2. simplify_eq.
  apply Forall_cons in Hg as [Hp Hps].
  destruct (IH _ _ _ H2 Hps) as [IHn IHs].
  destruct (add_route_cases _ _ _ _ H1 Hp)
    as [[-> Ho]|(num & k & _ & _ & _ & _ & Hused & Hcase)].
  - split; [|done]. rewrite IHn. by destruct Ho as [->| ->].
  - destruct Hcase as [(text & -> & _ & Hr)|[-> Hr]].
    + split.
      * rewrite IHn, Hr, map_app. simpl. by rewrite <- app_assoc.
      * intros Hsub. apply IHs. rewrite Hr, Hused, !map_app. simpl.
        by apply sublist_app.
    + split.
      * by rewrite IHn, Hr.
      * intros Hsub. apply IHs. rewrite Hr, Hused, map_app.
        by apply sublist_inserts_r.
Qed.

(** X7: in a run from the empty session, with strides that are not zero,
    the routes are named after the numbers drawn by the presses that
    completed, in that order, and no two routes share a name. *)
Theorem created_names_distinct (ps : list press) :
  Forall (fun p => route_number_gap p <> 0) ps ->
  map name (routes (press_buttons ps initial).1)
  = names_drawn (press_buttons ps initial).2
  /\ NoDup (map name (routes (press_buttons ps initial).1)).
Proof.
  intros Hg. destruct (press_buttons ps initial) as [st' outs] eqn:E. simpl.
  destruct (names_follow _ _ _ _ E Hg) as [Hn Hs]. split; [done|].
  eapply sublist_NoDup; [|apply Hs; simpl; constructor].
  apply NoDup_fmap_2.
  - intros a b Hab. unfold name_of_num in Hab.
    by apply (inj (String.app prefix)), (inj pretty) in Hab.
  - eapply add_routes_NoDup; [exact E|done|apply NoDup_nil_2].
Qed.

(** The numbers [start_num], [start_num + gap], ... *)
Definition progression (gap : Z) (n : nat) : list Z :=
  map (fun k => start_num + Z.of_nat k * gap) (seq 0 n).

Lemma progression_S gap n :
  progression gap (S n) = progression gap n ++ [start_num + Z.of_nat n * gap].
Proof. unfold progression. by rewrite seq_S, map_app. Qed.

Lemma elem_of_progression gap n x :
  x ∈ progression gap n <-> exists k, (k < n)%nat /\ x = start_num + Z.of_nat k * gap.
Proof.
  unfold progression. rewrite list_elem_of_fmap. split.
  - intros (k & -> & Hk%elem_of_seq). exists k. split; [lia|done].
  - intros (k & Hk & ->). exists k. split; [done|]. apply elem_of_seq. lia.
Qed.

(** X8: with one stride of one or more throughout, the numbers used are
    [start_num], [start_num + gap], [start_num + 2 gap], ... without a hole:
    the press that draws a number when [n] are used draws
    [start_num + n * gap]. *)
Theorem numbers_in_sequence (gap : Z) (ps : list press) :
  1 <= gap ->
  Forall (fun p => route_number_gap p = gap) ps ->
  used_nums (press_buttons ps initial).1
  = progression gap (length (used_nums (press_buttons ps initial).1)).
Proof.
  intros Hgap Hps.
  cut (forall st st' outs,
         press_buttons ps st = (st', outs) ->
         used_nums st = progression gap (length (used_nums st)) ->
         used_nums st' = progression gap (length (used_nums st'))).
  { intros Hcut. destruct (press_buttons ps initial) as [st' outs] eqn:E.
    by apply (Hcut initial st' outs). }
  induction Hps as [|p ps Hp Hps IH]; intros st st' outs H Hst.
  { by simplify_eq/=. }
  simpl in H. destruct (press_button p st) as [st1 o] eqn:H1.
  destruct (press_buttons ps st1) as [st2 os] eqn:H2. simplify_eq.
  apply (IH _ _ _ H2).
  destruct (add_route_cases _ _ _ _ H1 ltac:(lia))
    as [[-> _]|(num & k & Hk & -> & Hfresh & Hbefore & Hused & _)]; [done|].
  rewrite Hused, length_app. simpl.
  replace (length (used_nums st) + 1)%nat with (S (length (used_nums st))) by lia.
  rewrite progression_S, <- Hst. do 2 f_equal.
  assert (k = length (used_nums st)) as ->; [|done].
  destruct (decide (k < length (used_nums st))%nat) as [Hlt|Hge]; [|lia].
  exfalso. apply Hfresh. rewrite Hst. apply elem_of_progression. by exists k.
Qed.

(** X9: a press whose merged geometry is neither a polygon nor a
    multi-polygon (a collection, a line, a point) ends in an exception
    after its number is taken: no route is added, yet the number is used and
    no later route gets it. *)
Theorem failed_press_keeps_number p st :
  route_number_gap p <> 0 ->
  selected_fsas p <> [] ->
  (match unary_union (selected_fsas p) with
   | GPolygon _ | GMultiPolygon _ => False
   | _ => True
   end) ->
  exists num,
    add_route fmt12 unary_union area_lt network_id p st
    = (mk_session (routes st) (used_nums st ++ [num]), Raised AttributeError)
    /\ (num ∉ used_nums st)
    /\ forall ps,
         Forall (fun q => route_number_gap q <> 0) ps ->
         Done num
         ∉ (add_routes fmt12 unary_union area_lt network_id ps
              (mk_session (routes st) (used_nums st ++ [num]))).2.
Proof.
  intros Hgap Hsel Hshape.
  destruct (next_num_total start_num _ (used_nums st) Hgap) as [num Hn].
  exists num. split; [|split].
  { unfold add_route. destruct (selected_fsas p) as [|z zs]; [done|].
    destruct (unary_union (z :: zs)); simpl in *; try done; by rewrite Hn. }
  { by apply next_num_Some in Hn as (k & _ & _ & Hf & _). }
  intros ps Hps.
  assert (Hin0 : num ∈ used_nums (mk_session (routes st) (used_nums st ++ [num]))).
  { simpl. apply elem_of_app. right. by left. }
  revert Hin0. generalize (mk_session (routes st) (used_nums st ++ [num])).
  clear -Hps. intros s0.
  induction Hps as [|q ps Hq Hps IH] in s0 |- *; intros Hin0 Ho.
  { simpl in Ho. by apply elem_of_nil in Ho. }
  simpl in Ho. destruct (press_button q s0) as [s1 o1] eqn:H1.
  destruct (press_buttons ps s1) as [s2 os] eqn:H2. simpl in Ho.
  destruct (add_route_used _ _ _ _ _ _ _ _ H1 Hq) as (_ & Hu & Hd).
  apply elem_of_cons in Ho as [<-|Ho].
  - destruct (Hd num eq_refl) as (Hfresh & _). done.
  - apply (IH s1); [|by rewrite H2].
    destruct Hu as [->|(k & _ & _ & ->)]; [done|]. apply elem_of_app. by left.
Qed.

End Runs.

Section Largest.
Context {float : Type}.
Variable area_lt : polygon float -> polygon float -> bool.
(** Areas are numbers: "not smaller than" is transitive, and of two parts
    one at most is smaller than the other. *)
Hypothesis area_ge_trans :
  forall a b c, area_lt a b = false -> area_lt b c = false -> area_lt a c = false.
Hypothesis area_lt_asym :
  forall a b, area_lt a b = true -> area_lt b a = false.

Lemma max_by_area_greatest best rest :
  max_by_area area_lt best rest ∈ best :: rest
  /\ forall q, q ∈ best :: rest ->
       area_lt (max_by_area area_lt best rest) q = false.
Proof.
  revert best. induction rest as [|g rest IH]; intros best; simpl.
  - split; [by left|]. intros q ->%list_elem_of_singleton.
    destruct (area_lt best best) eqn:E; [|done].
    by rewrite (area_lt_asym _ _ E) in E.
  - destruct (IH (if area_lt best g then g else best)) as [Hin Hmax].
    split.
    + apply elem_of_cons in Hin as [Hin|Hin]; [|by do 2 right].
      rewrite Hin. destruct (area_lt best g); [right|]; by left.
    + intros q Hq.
      assert (Hb : area_lt (max_by_area area_lt
                    (if area_lt best g then g else best) rest)
                    (if area_lt best g then g else best) = false).
      { apply Hmax. by left. }
      apply elem_of_cons in Hq as [->|Hq]; [|apply elem_of_cons in Hq as [->|Hq]].
      * destruct (area_lt best g) eqn:E; [|done].
        eapply area_ge_trans; [exact Hb|]. by apply area_lt_asym.
      * destruct (area_lt best g) eqn:E; [done|].
        eapply area_ge_trans; [exact Hb|done].
      * apply Hmax. by right.
Qed.

(** X10: of a multi-polygon the from-scratch creator keeps one part only, a
    part of greatest area; the other parts are dropped. A multi-polygon
    without parts raises; anything else passes as it is. *)
Theorem largest_part_kept (geom : geometry float) :
  match geom with
  | GMultiPolygon [] => union_to_polygon area_lt geom = Raised ValueError
  | GMultiPolygon parts =>
      exists p,
        union_to_polygon area_lt geom = Done (GPolygon p)
        /\ p ∈ parts
        /\ forall q, q ∈ parts -> area_lt p q = false
  | _ => union_to_polygon area_lt geom = Done geom
  end.
Proof.
  destruct geom as [| | | | |[|g rest]|]; try done.
  exists (max_by_area area_lt g rest). split; [done|].
  apply max_by_area_greatest.
Qed.

End Largest.

Section Display.
Context {float : Type} {float_eq : EqDecision float}.
Variable float_of_str : string -> option float.
Variable fmt12 : float -> string.


End Display.

(** Two presses with postal codes that merge into the unit square. *)
Definition two_presses : list press := [App9Props.press5; App9Props.press5].

Definition after_two : session * list (outcome Z) :=
  add_routes Binary64.fmt12 App9Props.square_union App9Props.no_area "4485"
    two_presses initial.

Lemma created_names_distinct_witness :
  map name (routes after_two.1) = names_drawn after_two.2
  /\ NoDup (map name (routes after_two.1)).
Proof.
  apply (created_names_distinct Binary64.fmt12 App9Props.square_union
           App9Props.no_area "4485" two_presses).
  repeat constructor; vm_compute; discriminate.
Defined.

Lemma numbers_in_sequence_witness :
  used_nums after_two.1 = progression 5 (length (used_nums after_two.1)).
Proof.
  apply (numbers_in_sequence Binary64.fmt12 App9Props.square_union
           App9Props.no_area "4485" 5 two_presses).
  - lia.
  - repeat constructor.
Defined.

(** Postal codes whose boundaries merge into a line. *)
Definition line_union (_ : list string) : geometry Binary64.float :=
  GLineString [Samples.pt "0" "0"; Samples.pt "1" "0"].

Lemma failed_press_keeps_number_witness :
  exists num,
    add_route Binary64.fmt12 line_union App9Props.no_area "4485"
      App9Props.press5 initial
    = (mk_session (routes initial) (used_nums initial ++ [num]),
       Raised AttributeError)
    /\ (num ∉ used_nums initial)
    /\ forall ps,
         Forall (fun q => route_number_gap q <> 0) ps ->
         Done num
         ∉ (add_routes Binary64.fmt12 line_union App9Props.no_area "4485" ps
              (mk_session (routes initial) (used_nums initial ++ [num]))).2.
Proof.
  apply (failed_press_keeps_number Binary64.fmt12 line_union App9Props.no_area
           "4485" App9Props.press5 initial).
  - vm_compute. discriminate.
  - vm_compute. discriminate.
  - exact I.
Defined.

(** An order on polygons that stands for the one by area: fewer points in
    the shell. *)
Definition fewer_points (p q : polygon Binary64.float) : bool :=
  (length (exterior p) <? length (exterior q))%nat.

Definition corner : polygon Binary64.float :=
  Polygon [Samples.pt "0" "0"; Samples.pt "1" "0"; Samples.pt "0" "1"].

Lemma largest_part_kept_witness :
  exists p,
    union_to_polygon fewer_points (GMultiPolygon [corner; Samples.unit_square])
    = Done (GPolygon p)
    /\ p ∈ [corner; Samples.unit_square]
    /\ forall q, q ∈ [corner; Samples.unit_square] -> fewer_points p q = false.
Proof.
  refine (largest_part_kept fewer_points _ _
            (GMultiPolygon [corner; Samples.unit_square])).
  - unfold fewer_points. intros a b c Hab Hbc.
    apply Nat.ltb_ge in Hab, Hbc. apply Nat.ltb_ge. lia.
  - unfold fewer_points. intros a b Hab.
    apply Nat.ltb_lt in Hab. apply Nat.ltb_ge. lia.
Defined.



End ScratchProps.

(** ** More on the edit form of Home.py *)

Module EditorProps.
Import Py Text TextMore Geometry Document Home HomeProps.

Definition LF_text : string := String LF EmptyString.

(** The names [re.match(rf"^{prefix}(\d+)$", s)] accepts: the prefix, then
    digits to the end, or to a line feed that ends the name. *)
Lemma match_route_name_spec prefix s n :
  match_route_name prefix s = Some n
  <-> exists ds,
        ds <> EmptyString
        /\ all_chars isdigit ds = true
        /\ (s = prefix +:+ ds \/ s = prefix +:+ ds +:+ LF_text)
        /\ n = digits_val ds 0.
Proof.
  unfold match_route_name. split.
  - destruct (strip_prefix prefix s) as [rest|] eqn:Hp; [|done].
    apply strip_prefix_Some in Hp as ->.
    destruct (span isdigit rest) as [ds tail] eqn:Hs.
    pose proof (span_all _ _ _ _ Hs) as Hd. apply span_app in Hs as ->.
    destruct (Py.is_empty ds) eqn:He; [done|].
    destruct (String.eqb_spec tail EmptyString) as [->|Hne]; simpl.
    + intros [= <-]. exists ds. split; [by destruct ds|]. split; [done|].
      split; [|done]. left. by rewrite sapp_nil_r.
    + destruct (String.eqb_spec tail (String LF EmptyString)) as [->|]; [|done].
      intros [= <-]. exists ds. split; [by destruct ds|]. split; [done|].
      split; [|done]. by right.
  - intros (ds & Hne & Hd & Hs & ->).
    assert (He : Py.is_empty ds = false) by (by destruct ds).
    destruct Hs as [-> | ->]; rewrite strip_prefix_app.
    + rewrite <- (sapp_nil_r ds) at 1. rewrite span_run by done.
      by rewrite He.
    + rewrite span_run by done. by rewrite He.
Qed.

(** A route all of whose preferences hold a polygon object. On such a
    route the list of the zone names is read without an exception: a
    preference whose [routingParameterUiPolygonDTO] is [null] makes
    [p.get("routingParameterUiPolygonDTO", {}).get("name", "")] raise
    [AttributeError]. *)
Definition all_zoned (r : route) : Prop :=
  Forall (fun p => is_Some (routingParameterUiPolygonDTO p))
         (routingParameterUiVehiclePreferenceDTOs r).

Section Registry.
Context {float : Type} {float_eq : EqDecision float}.
Variable float_of_str : string -> option float.
Variable fmt8 : float -> string.
Variable upper : string -> string.
Variable unary_union : list string -> option (geometry float).
Variable prefix : string.
Variable min_route max_route : Z.

Local Abbreviation polygons_of := (build_polygons_from_data float_of_str).
Local Abbreviation apply_form :=
  (apply_changes float_of_str fmt8 upper unary_union prefix min_route max_route).
Local Abbreviation remove := (remove_zips fmt8 upper unary_union).
Local Abbreviation add := (add_zips fmt8 upper unary_union).
Local Abbreviation codes := (zips_of upper).

(** The form as "Appliquer les changements" accepts it: the route name is
    the prefix and a number of the admissible range, and no other route on
    the map carries it. *)
Definition acceptable (data : document) (found : @entry float) (f : form) : Prop :=
  exists ds,
    ds <> EmptyString
    /\ all_chars isdigit ds = true
    /\ (new_route_name f = prefix +:+ ds
        \/ new_route_name f = prefix +:+ ds +:+ LF_text)
    /\ min_route <= digits_val ds 0 <= max_route
    /\ (new_route_name f = route_name found
        \/ new_route_name f ∉ map route_name (polygons_of data)).

Lemma remove_zips_fields z k (r : route) :
  name (remove z k r) = name r
  /\ adjacentRoutes (remove z k r) = adjacentRoutes r
  /\ representative (remove z k r) = representative r
  /\ id (remove z k r) = id r.
Proof. unfold remove_zips. by repeat case_match. Qed.

(** An accepted form, carried out. *)
Lemma apply_changes_accepted data found f ids num r0 :
  match_route_name prefix (new_route_name f) = Some num ->
  min_route <= num <= max_route ->
  new_route_name f = route_name found
  \/ new_route_name f ∉ map route_name (polygons_of data) ->
  routingParameterUiVehicleDTOs data !! route_obj found = Some r0 ->
  exists r5,
    apply_form data found f ids
    = Done (set_routes data (<[route_obj found := r5]>
                               (routingParameterUiVehicleDTOs data)))
    /\ name r5 = new_route_name f
    /\ adjacentRoutes r5 = new_adj f
    /\ representative r5 = representative r0
    /\ id r5 = id r0.
Proof.
  intros Hm Hrange Hfree Hr0. unfold apply_changes. rewrite Hm.
  replace (negb ((min_route <=? num) && (num <=? max_route))) with false.
  2:{ symmetry. apply negb_false_iff, andb_true_iff. split; lia. }
  replace (negb (String.eqb (new_route_name f) (route_name found))
           && bool_decide (new_route_name f ∈ map route_name (polygons_of data)))
    with false.
  2:{ symmetry. destruct Hfree as [->|Hn].
      - by rewrite String.eqb_refl.
      - rewrite (bool_decide_eq_false_2 _ Hn). apply andb_false_r. }
  rewrite Hr0.
  match goal with
  | |- context [add_zips _ _ _ _ ?zn ?zir ?zta ?ids ?r4] =>
      destruct (add_zips_spec fmt8 upper unary_union data zn zir zta ids r4)
        as (r5 & Hadd & Hname & Hadj & Hrep & _);
      pose proof (remove_zips_fields (zip_to_remove f) (pref_obj found)
        (set_adjacentRoutes
           (set_prefs (set_name r0 (new_route_name f))
              (alter (fun p => set_zone_name p (new_zone_name f)) (pref_obj found)
                 (routingParameterUiVehiclePreferenceDTOs
                    (set_name r0 (new_route_name f)))))
           (new_adj f))) as (Hn4 & Ha4 & Hp4 & Hi4)
  end.
  rewrite Hadd. simpl. exists r5. split; [done|].
  rewrite Hname, Hadj, Hrep, Hn4, Ha4, Hp4. simpl. split; [done|].
  split; [done|]. split; [done|].
  unfold add_zips in Hadd. repeat case_match; simplify_eq; simpl; by rewrite ?Hi4.
Qed.

(** X12: on a clicked zone of a route whose preferences all hold a polygon
    object, "Appliquer les changements" either refuses the form, and that
    exactly when the form is not acceptable, or carries it out; the search
    for a free zone name always ends. *)
Theorem edit_accepted_exactly data found f ids :
  found ∈ polygons_of data ->
  (forall r0, routingParameterUiVehicleDTOs data !! route_obj found = Some r0 ->
              all_zoned r0) ->
  (acceptable data found f
   /\ exists data', apply_form data found f ids = Done data')
  \/ (~ acceptable data found f /\ apply_form data found f ids = Stopped).
Proof.
  intros Hin _.
  destruct (match_route_name prefix (new_route_name f)) as [num|] eqn:Hm.
  2:{ right. split.
      - intros (ds & Hne & Hd & Hs & _ & _).
        assert (H : match_route_name prefix (new_route_name f)
                    = Some (digits_val ds 0)).
        { apply match_route_name_spec. by exists ds. }
        congruence.
      - unfold apply_changes. by rewrite Hm. }
  pose proof Hm as (ds & Hne & Hd & Hs & ->)%match_route_name_spec.
  assert (Hnum : forall ds', ds' <> EmptyString -> all_chars isdigit ds' = true ->
            (new_route_name f = prefix +:+ ds'
             \/ new_route_name f = prefix +:+ ds' +:+ LF_text) ->
            digits_val ds' 0 = digits_val ds 0).
  { intros ds' Hne' Hd' Hs'.
    assert (H : match_route_name prefix (new_route_name f)
                = Some (digits_val ds' 0)).
    { apply match_route_name_spec. by exists ds'. }
    congruence. }
  destruct (decide (min_route <= digits_val ds 0 <= max_route)) as [Hr|Hr].
  2:{ right. split.
      - intros (ds' & Hne' & Hd' & Hs' & Hr' & _).
        rewrite (Hnum ds') in Hr' by done. done.
      - unfold apply_changes. rewrite Hm.
        replace (negb _) with true; [done|]. symmetry.
        apply negb_true_iff, andb_false_iff. lia. }
  destruct (decide (new_route_name f = route_name found
                    \/ new_route_name f ∉ map route_name (polygons_of data)))
    as [Hfree|Hfree].
  2:{ right. split.
      - intros (_ & _ & _ & _ & _ & Hf). done.
      - unfold apply_changes. rewrite Hm.
        replace (negb ((min_route <=? _) && _)) with false.
        2:{ symmetry. apply negb_false_iff, andb_true_iff. split; lia. }
        replace (negb (String.eqb _ _) && _) with true; [done|]. symmetry.
        apply andb_true_iff. split.
        + apply negb_true_iff. destruct (String.eqb_spec (new_route_name f)
            (route_name found)); [|done]. tauto.
        + apply bool_decide_eq_true. apply dec_stable. tauto. }
  left. split; [by exists ds|].
  apply found_in_polygons in Hin as (r0 & _ & _ & Hr0 & _).
  destruct (apply_changes_accepted data found f ids _ r0 Hm Hr Hfree Hr0)
    as (r5 & -> & _). by eexists.
Qed.

(** X13: the check for a name already in use looks at the routes shown on
    the map only. A route none of whose zones decodes is not on the map, so
    its name can be given to the clicked route: the form is accepted and
    the document then holds two routes of that name. *)
Theorem hidden_route_name_can_be_taken data found f ids j rj num :
  found ∈ polygons_of data ->
  routingParameterUiVehicleDTOs data !! j = Some rj ->
  j <> route_obj found ->
  name rj = new_route_name f ->
  name rj ∉ map route_name (polygons_of data) ->
  match_route_name prefix (new_route_name f) = Some num ->
  min_route <= num <= max_route ->
  exists data' r',
    apply_form data found f ids = Done data'
    /\ routingParameterUiVehicleDTOs data' !! j = Some rj
    /\ routingParameterUiVehicleDTOs data' !! route_obj found = Some r'
    /\ name r' = name rj.
Proof.
  intros Hin Hj Hne Hname Hhidden Hm Hr.
  apply found_in_polygons in Hin as (r0 & _ & _ & Hr0 & _).
  destruct (apply_changes_accepted data found f ids num r0 Hm Hr) as
    (r5 & Happ & Hn5 & _); [right; by rewrite <- Hname|done|].
  eexists _, r5. split; [exact Happ|]. simpl.
  split; [by rewrite list_lookup_insert_ne|].
  split; [|by rewrite Hn5].
  apply list_lookup_insert_eq. by eapply lookup_lt_Some.
Qed.

End Registry.

(** *** Postal codes added and removed *)

(** A postal code as the form reads one: not empty, no comma, nothing to
    strip. *)
Definition code (x : string) : Prop :=
  x <> EmptyString
  /\ all_chars (fun c => negb (Ascii.eqb c ",")) x = true
  /\ strip x = x.

Section Codes.
Context {float : Type} {float_eq : EqDecision float}.
Variable fmt8 : float -> string.
Variable upper : string -> string.
Variable unary_union : list string -> option (geometry float).
(** [str.upper] keeps a code a code, and does nothing to upper case. *)
Hypothesis upper_code : forall x, code x -> code (upper x).
Hypothesis upper_idem : forall x, upper (upper x) = upper x.

Local Abbreviation codes := (zips_of upper).
Local Abbreviation remove := (remove_zips fmt8 upper unary_union).
Local Abbreviation add := (add_zips fmt8 upper unary_union).
Local Abbreviation merged := (merged_text fmt8 unary_union).

(** Read and normalised: a code in upper case. *)
Definition normal (x : string) : Prop := code x /\ upper x = x.

Lemma codes_normal s : Forall normal (codes s).
Proof.
  unfold zips_of. apply Forall_forall.
  intros x (z & -> & Hz)%list_elem_of_fmap.
  apply list_elem_of_filter in Hz as [Hne Hz].
  pose proof (split_on_pieces (Ascii.eqb ",") s) as Hp.
  eapply Forall_forall in Hp; [|exact Hz].
  split; [|apply upper_idem]. apply upper_code.
  split; [done|]. split; [by apply all_chars_strip|apply strip_idem].
Qed.

(** Codes joined by commas read back as they are. *)
Lemma codes_join l : Forall normal l -> codes (join "," l) = l.
Proof.
  intros Hl. destruct l as [|w l]; [done|].
  unfold zips_of. rewrite split_on_join; [|done|done|].
  2:{ eapply Forall_impl; [exact Hl|]. by intros x [(_ & Hx & _) _]. }
  induction Hl as [|x xs [(Hne & _ & Hs) Hu] Hxs IH]; [done|].
  rewrite filter_cons_True by (by rewrite Hs). simpl.
  rewrite Hs, Hu. f_equal. exact IH.
Qed.

Lemma sorted_normal l : Forall normal l -> Forall normal (sorted l).
Proof.
  intros H. unfold sorted. by rewrite merge_sort_Permutation.
Qed.

(** X14: "Supprimer ZIP" on the clicked zone. The other preferences of the
    route, its name, adjacency and representative stay. When every code of
    the zone is taken away the zone is deleted from the route (the list
    drops its first preference equal to the clicked one, which is the
    clicked one when none before it is equal to it). Otherwise the zone
    keeps exactly the codes that are left, in upper case, sorted, each
    once, and its name; its coordinates are those of the merged boundaries
    of the codes left when the boundary table knows them, and stay as they
    were when it does not. *)
Theorem zip_removal (route : route) (k : nat) (pref : preference)
    (zip_to_remove : string) :
  zip_to_remove <> EmptyString ->
  routingParameterUiVehiclePreferenceDTOs route !! k = Some pref ->
  is_Some (routingParameterUiPolygonDTO pref) ->
  let remaining : gset string :=
    list_to_set (codes (zip pref)) ∖ list_to_set (codes zip_to_remove) in
  let route' := remove zip_to_remove k route in
  name route' = name route
  /\ adjacentRoutes route' = adjacentRoutes route
  /\ representative route' = representative route
  /\ (remaining = ∅ ->
      (forall j, (j < k)%nat ->
         routingParameterUiVehiclePreferenceDTOs route !! j <> Some pref) ->
      routingParameterUiVehiclePreferenceDTOs route'
      = delete k (routingParameterUiVehiclePreferenceDTOs route))
  /\ (remaining <> ∅ ->
      exists pref',
        routingParameterUiVehiclePreferenceDTOs route'
        = <[k := pref']> (routingParameterUiVehiclePreferenceDTOs route)
        /\ codes (zip pref') = sorted (elements remaining)
        /\ list_to_set (codes (zip pref')) = remaining
        /\ (zone_name <$> routingParameterUiPolygonDTO pref')
           = (zone_name <$> routingParameterUiPolygonDTO pref)
        /\ (polygonCoordinates <$> routingParameterUiPolygonDTO pref')
           = match merged (sorted (elements remaining)) with
             | Some text => (fun _ => text) <$> routingParameterUiPolygonDTO pref
             | None => polygonCoordinates <$> routingParameterUiPolygonDTO pref
             end).
Proof.
  intros Hne Hk _ remaining route'. subst route'. unfold remove_zips.
  assert (He : Py.is_empty zip_to_remove = false) by (by destruct zip_to_remove).
  rewrite He, Hk. fold remaining.
  destruct (decide (remaining = ∅)) as [Hr|Hr]; simpl.
  { do 3 (split; [done|]). split; [done|]. by intros ?. }
  do 3 (split; [done|]). split; [by intros ?|]. intros _.
  assert (Hcodes : codes (join "," (sorted (elements remaining)))
                   = sorted (elements remaining)).
  { apply codes_join, sorted_normal, Forall_forall. intros x Hx.
    apply elem_of_elements in Hx. unfold remaining in Hx.
    apply elem_of_difference in Hx as [Hx _].
    apply elem_of_list_to_set in Hx.
    pose proof (codes_normal (zip pref)) as Hn.
    by eapply Forall_forall in Hn. }
  eexists. split; [done|].
  assert (Hzip : forall p : preference,
    zip (match merged (sorted (elements remaining)) with
         | Some text => set_polygonCoordinates p text
         | None => p
         end) = zip p).
  { intros p. destruct (merged _); [|done].
    unfold set_polygonCoordinates. by case_match. }
  rewrite Hzip. simpl. rewrite Hcodes.
  split; [done|]. split.
  { apply set_eq. intros x. rewrite elem_of_list_to_set.
    unfold sorted. rewrite merge_sort_Permutation. apply elem_of_elements. }
  destruct (merged _) as [text|]; simpl.
  - unfold set_polygonCoordinates, set_zip. simpl.
    by destruct (routingParameterUiPolygonDTO pref).
  - done.
Qed.

(** X15: "Ajouter ZIP" on a route whose preferences all hold a polygon
    object. A code the route already holds is never added. The route is
    left as it is when nothing was typed, when every code typed is already
    in the route, or when the boundary table gives nothing for the new
    codes; otherwise one preference is appended, holding exactly the new
    codes, in upper case and sorted, with the merged boundaries of those
    codes as coordinates, and tied to the route and to the document. *)
Theorem zip_addition (data : document) (found_zone_name : string)
    (zips_in_route : list string) (zip_to_add : string)
    (new_ids : string * string) (route : route) :
  all_zoned route ->
  let to_create := filter (fun z => z ∉ zips_in_route) (codes zip_to_add) in
  exists route',
    add data found_zone_name zips_in_route zip_to_add new_ids route = Done route'
    /\ ((route' = route
         /\ (to_create = [] \/ merged to_create = None))
        \/ exists new_pref z,
             routingParameterUiVehiclePreferenceDTOs route'
             = routingParameterUiVehiclePreferenceDTOs route ++ [new_pref]
             /\ to_create <> []
             /\ codes (zip new_pref) = sorted to_create
             /\ Forall (fun c => c ∉ zips_in_route) (codes (zip new_pref))
             /\ routingParameterVehicleId new_pref = id route
             /\ routingParameterUiPolygonDTO new_pref = Some z
             /\ merged to_create = Some (polygonCoordinates z)
             /\ zone_routingParameterId z
                = default (doc_id data) (routingParameterId route)).
Proof.
  intros _ to_create. unfold add_zips.
  destruct (Py.is_empty zip_to_add) eqn:He.
  { exists route. split; [done|]. left. split; [done|]. left.
    apply Text.is_empty_true in He. subst to_create. by rewrite He. }
  fold to_create. destruct to_create as [|c cs] eqn:Hc.
  { exists route. split; [done|]. left. split; [done|]. by left. }
  rewrite <- Hc. destruct (merged to_create) as [text|] eqn:Hm.
  2:{ rewrite Hc. exists route. split; [done|]. left. split; [done|]. by right. }
  destruct (new_zone_name_unique_spec (strip found_zone_name)
              (existing_names_of route)) as (unique & Hu & _).
  rewrite Hc, Hu. eexists. split; [done|]. right. rewrite <- Hc.
  eexists _, _. split; [done|]. simpl.
  assert (Hn : Forall normal to_create).
  { subst to_create. apply Forall_forall. intros x [_ Hx]%list_elem_of_filter.
    pose proof (codes_normal zip_to_add) as H. by eapply Forall_forall in H. }
  rewrite codes_join by (by apply sorted_normal).
  split; [by rewrite Hc|]. split; [done|]. split; [|done].
  unfold sorted. rewrite merge_sort_Permutation.
  subst to_create. apply Forall_forall. by intros x [Hx _]%list_elem_of_filter.
Qed.

End Codes.
(** *** On the loaded sample *)

(** The sample with a third route, MONT1999, that has no zone and so is
    not on the map. *)
Definition hidden_route : route :=
  Samples.bare_route "MONT1999" "" (RepName "MONT1500").

Definition with_hidden : document :=
  set_routes Samples.loaded
    (routingParameterUiVehicleDTOs Samples.loaded ++ [hidden_route]).

Lemma hidden_route_name_can_be_taken_witness :
  exists data' r',
    apply_changes Binary64.float_of_str Binary64.fmt8 Samples.upper_ascii
      Samples.square_table "MONT" 1500 1999
      with_hidden Samples.first_zone rename_form ("900", "901") = Done data'
    /\ routingParameterUiVehicleDTOs data' !! 2%nat = Some hidden_route
    /\ routingParameterUiVehicleDTOs data' !! route_obj Samples.first_zone
       = Some r'
    /\ name r' = name hidden_route.
Proof.
  apply (hidden_route_name_can_be_taken Binary64.float_of_str Binary64.fmt8
           Samples.upper_ascii Samples.square_table "MONT" 1500 1999
           with_hidden Samples.first_zone rename_form ("900", "901")
           2%nat hidden_route 1999).
  - vm_compute. constructor.
  - reflexivity.
  - vm_compute. discriminate.
  - reflexivity.
  - apply (bool_decide_unpack _). vm_compute. exact I.
  - vm_compute. reflexivity.
  - lia.
Defined.

Lemma edit_accepted_exactly_witness :
  (acceptable Binary64.float_of_str "MONT" 1500 1999
     Samples.loaded Samples.first_zone rename_form
   /\ exists data',
        apply_changes Binary64.float_of_str Binary64.fmt8 Samples.upper_ascii
          Samples.square_table "MONT" 1500 1999
          Samples.loaded Samples.first_zone rename_form ("900", "901")
        = Done data')
  \/ (~ acceptable Binary64.float_of_str "MONT" 1500 1999
         Samples.loaded Samples.first_zone rename_form
      /\ apply_changes Binary64.float_of_str Binary64.fmt8 Samples.upper_ascii
           Samples.square_table "MONT" 1500 1999
           Samples.loaded Samples.first_zone rename_form ("900", "901")
         = Stopped).
Proof.
  apply (edit_accepted_exactly Binary64.float_of_str Binary64.fmt8
           Samples.upper_ascii Samples.square_table "MONT" 1500 1999
           Samples.loaded Samples.first_zone rename_form ("900", "901")).
  - vm_compute. constructor.
  - intros r0 Hr0. vm_compute in Hr0. injection Hr0 as <-.
    repeat constructor; by eexists.
Defined.

(** [str.upper] on ASCII text keeps a code a code. *)
Definition upper_char (c : ascii) : ascii :=
  let n := N_of_ascii c in
  if ((97 <=? n) && (n <=? 122))%N then ascii_of_N (n - 32) else c.

Lemma upper_char_facts c :
  isspace (upper_char c) = isspace c
  /\ Ascii.eqb (upper_char c) "," = Ascii.eqb c ","
  /\ upper_char (upper_char c) = upper_char c.
Proof. destruct c as [[] [] [] [] [] [] [] []]; vm_compute; done. Qed.

Lemma upper_ascii_cons c s :
  Samples.upper_ascii (String c s)
  = String (upper_char c) (Samples.upper_ascii s).
Proof. reflexivity. Qed.

Lemma upper_ascii_lstrip s :
  lstrip (Samples.upper_ascii s) = Samples.upper_ascii (lstrip s).
Proof.
  induction s as [|c s IH]; [done|]. rewrite upper_ascii_cons.
  cbn [lstrip]. destruct (upper_char_facts c) as (-> & _ & _).
  destruct (isspace c); [done|]. by rewrite upper_ascii_cons.
Qed.

Lemma upper_ascii_rstrip s :
  rstrip (Samples.upper_ascii s) = Samples.upper_ascii (rstrip s).
Proof.
  induction s as [|c s IH]; [done|]. rewrite upper_ascii_cons.
  cbn [rstrip]. rewrite IH. destruct (upper_char_facts c) as (Hs & _ & _).
  destruct (rstrip s) as [|d r].
  - change (Samples.upper_ascii EmptyString) with EmptyString.
    rewrite Hs. destruct (isspace c); [done|]. by rewrite upper_ascii_cons.
  - by rewrite !upper_ascii_cons.
Qed.

Lemma upper_ascii_code x : code x -> code (Samples.upper_ascii x).
Proof.
  intros (Hne & Hc & Hs). split; [by destruct x|]. split.
  - clear Hne Hs. induction x as [|c x IH]; [done|]. rewrite upper_ascii_cons.
    simpl in Hc. apply andb_true_iff in Hc as [Hc Hx].
    cbn [all_chars]. destruct (upper_char_facts c) as (_ & -> & _).
    rewrite Hc. by apply IH.
  - unfold strip in *. by rewrite upper_ascii_lstrip, upper_ascii_rstrip, Hs.
Qed.

Lemma upper_ascii_idem x :
  Samples.upper_ascii (Samples.upper_ascii x) = Samples.upper_ascii x.
Proof.
  induction x as [|c x IH]; [done|]. rewrite !upper_ascii_cons, IH.
  by destruct (upper_char_facts c) as (_ & _ & ->).
Qed.

(** A route with one zone of two postal codes. *)
Definition two_codes : route :=
  Samples.zoned_route "152400" "MONT1500" "" "Zone A" "H9S, H9T".

Definition two_codes_pref : preference :=
  mk_preference "1524001" "152400" "H9S, H9T" EmptyString true
    (Some (mk_zone "1524002" "Zone A" Samples.square_text "4485")) "1.0" 1.

Lemma zip_removal_witness :
  let codes := zips_of Samples.upper_ascii in
  let remaining : gset string :=
    list_to_set (codes (zip two_codes_pref)) ∖ list_to_set (codes "h9t") in
  let route' :=
    remove_zips Binary64.fmt8 Samples.upper_ascii Samples.square_table
      "h9t" 0%nat two_codes in
  name route' = name two_codes
  /\ adjacentRoutes route' = adjacentRoutes two_codes
  /\ representative route' = representative two_codes
  /\ (remaining = ∅ ->
      (forall j, (j < 0)%nat ->
         routingParameterUiVehiclePreferenceDTOs two_codes !! j
         <> Some two_codes_pref) ->
      routingParameterUiVehiclePreferenceDTOs route'
      = delete 0%nat (routingParameterUiVehiclePreferenceDTOs two_codes))
  /\ (remaining <> ∅ ->
      exists pref',
        routingParameterUiVehiclePreferenceDTOs route'
        = <[0%nat := pref']> (routingParameterUiVehiclePreferenceDTOs two_codes)
        /\ codes (zip pref') = sorted (elements remaining)
        /\ list_to_set (codes (zip pref')) = remaining
        /\ (zone_name <$> routingParameterUiPolygonDTO pref')
           = (zone_name <$> routingParameterUiPolygonDTO two_codes_pref)
        /\ (polygonCoordinates <$> routingParameterUiPolygonDTO pref')
           = match merged_text Binary64.fmt8 Samples.square_table
                     (sorted (elements remaining)) with
             | Some text =>
                 (fun _ => text) <$> routingParameterUiPolygonDTO two_codes_pref
             | None =>
                 polygonCoordinates <$> routingParameterUiPolygonDTO two_codes_pref
             end).
Proof.
  apply (zip_removal Binary64.fmt8 Samples.upper_ascii Samples.square_table
           upper_ascii_code upper_ascii_idem two_codes 0%nat two_codes_pref "h9t").
  - discriminate.
  - reflexivity.
  - by eexists.
Defined.

Lemma zip_addition_witness :
  let to_create :=
    filter (fun z => z ∉ ["H9S"]) (zips_of Samples.upper_ascii "h9x, H9S") in
  exists route',
    add_zips Binary64.fmt8 Samples.upper_ascii Samples.square_table
      Samples.loaded "Zone A" ["H9S"] "h9x, H9S" ("900", "901") two_codes
    = Done route'
    /\ ((route' = two_codes
         /\ (to_create = []
             \/ merged_text Binary64.fmt8 Samples.square_table to_create = None))
        \/ exists new_pref z,
             routingParameterUiVehiclePreferenceDTOs route'
             = routingParameterUiVehiclePreferenceDTOs two_codes ++ [new_pref]
             /\ to_create <> []
             /\ zips_of Samples.upper_ascii (zip new_pref) = sorted to_create
             /\ Forall (fun c => c ∉ ["H9S"])
                       (zips_of Samples.upper_ascii (zip new_pref))
             /\ routingParameterVehicleId new_pref = id two_codes
             /\ routingParameterUiPolygonDTO new_pref = Some z
             /\ merged_text Binary64.fmt8 Samples.square_table to_create
                = Some (polygonCoordinates z)
             /\ zone_routingParameterId z
                = default (doc_id Samples.loaded) (routingParameterId two_codes)).
Proof.
  apply (zip_addition Binary64.fmt8 Samples.upper_ascii Samples.square_table
           upper_ascii_code upper_ascii_idem Samples.loaded "Zone A" ["H9S"]
           "h9x, H9S" ("900", "901") two_codes).
  repeat constructor; by eexists.
Defined.


End EditorProps.

(** ** The map after an edit *)

Module MapProps.
Import Py Text TextMore Geometry Document Home HomeProps.

Section Registry.
Context {float : Type} {float_eq : EqDecision float}.
Variable float_of_str : string -> option float.
Variable fmt8 : float -> string.
Variable upper : string -> string.
Variable unary_union : list string -> option (geometry float).
Variable prefix : string.
Variable min_route max_route : Z.

Local Abbreviation polygons_of := (build_polygons_from_data float_of_str).
Local Abbreviation entries := (entries_of_route float_of_str).
Local Abbreviation apply_form :=
  (apply_changes float_of_str fmt8 upper unary_union prefix min_route max_route).

(** An entry shown under another route name. *)
Definition set_route_name (e : @entry float) (n : string) : entry :=
  mk_entry (route_obj e) (pref_obj e) n (entry_zone_name e) (entry_zip e)
           (parts e) (entry_shapely e).

(** The map, with the zones of the route at position [i] under the name
    [n]. *)
Definition shown_as (i : nat) (n : string) (es : list (@entry float))
  : list entry :=
  map (fun e => if decide (route_obj e = i) then set_route_name e n else e) es.

Lemma entries_route_obj i r e : e ∈ entries i r -> route_obj e = i.
Proof.
  unfold entries_of_route. intros ([k p] & _ & H)%list_elem_of_omap.
  repeat case_match; by simplify_eq.
Qed.

Lemma entries_set_name i r n :
  entries i (set_name r n) = map (fun e => set_route_name e n) (entries i r).
Proof.
  unfold entries_of_route. simpl.
  generalize (imap pair (routingParameterUiVehiclePreferenceDTOs r)).
  intros l. induction l as [|[k p] l IH]; [done|].
  cbn. destruct (routingParameterUiPolygonDTO p) as [z|]; [|exact IH].
  destruct (parse_polygon_text _ _); [|exact IH]. cbn. f_equal. exact IH.
Qed.

Lemma imap_insert_at {A B} (f : nat -> A -> B) (l : list A) i x :
  imap f (<[i := x]> l) = <[i := f i x]> (imap f l).
Proof.
  revert f i. induction l as [|y l IH]; intros f i; [done|].
  destruct i as [|i]; simpl; [done|]. f_equal. apply (IH (f ∘ S)).
Qed.

Lemma concat_insert_map {A} (g : A -> A) (ls : list (list A)) i l :
  ls !! i = Some l ->
  (forall j l', ls !! j = Some l' -> j <> i -> map g l' = l') ->
  concat (<[i := map g l]> ls) = map g (concat ls).
Proof.
  revert i. induction ls as [|l0 ls IH]; intros i Hi Hother; [done|].
  destruct i as [|i]; simpl in *.
  - simplify_eq. rewrite map_app. f_equal.
    clear IH. induction ls as [|l1 ls IH]; [done|]. simpl. rewrite map_app.
    rewrite (Hother 1%nat l1) by done. f_equal. apply IH.
    intros j l' Hj Hne. destruct j as [|j]; [done|].
    apply (Hother (S (S j))); [done|lia].
  - rewrite map_app, (Hother 0%nat l0) by done. f_equal.
    apply IH; [done|]. intros j l' Hj Hne. apply (Hother (S j)); [done|lia].
Qed.

(** The map of a document in which the route at [i] got another name. *)
Lemma polygons_after_set_name data i r n :
  routingParameterUiVehicleDTOs data !! i = Some r ->
  polygons_of (set_routes data (<[i := set_name r n]>
                                  (routingParameterUiVehicleDTOs data)))
  = shown_as i n (polygons_of data).
Proof.
  intros Hi. unfold build_polygons_from_data, shown_as. simpl.
  rewrite imap_insert_at, entries_set_name.
  assert (Hmap : map (fun e => set_route_name e n) (entries i r)
                 = map (fun e : entry =>
                          if decide (route_obj e = i) then set_route_name e n else e)
                       (entries i r)).
  { apply map_ext_in. intros e He%list_elem_of_In.
    apply entries_route_obj in He. by rewrite decide_True. }
  rewrite Hmap. apply concat_insert_map.
  - by rewrite list_lookup_imap, Hi.
  - intros j l' Hj Hne. rewrite list_lookup_imap in Hj.
    destruct (routingParameterUiVehicleDTOs data !! j) as [rj|]; [|done].
    simplify_eq/=. rewrite <- (map_id (entries j rj)) at 2.
    apply map_ext_in. intros e He%list_elem_of_In.
    apply entries_route_obj in He. by rewrite decide_False by congruence.
Qed.

(** X16: after a form that only changes the route name is carried out, the
    map built again from the document shows the same zones in the same
    order: those of the clicked route under the new name, every other as it
    was. *)
Theorem renamed_route_shown data (found : entry) f ids data' :
  found ∈ polygons_of data ->
  apply_form data found f ids = Done data' ->
  new_zone_name f = entry_zone_name found ->
  zip_to_add f = EmptyString ->
  zip_to_remove f = EmptyString ->
  polygons_of data'
  = shown_as (route_obj found) (new_route_name f) (polygons_of data).
Proof.
  intros Hin Happ Hzn Hzta Hztr.
  apply found_in_polygons in Hin as (r0 & pref & z & Hr0 & Hp & Hz & Hn & Hzone).
  unfold apply_changes in Happ.
  destruct (match_route_name _ _) as [num|]; [|done].
  destruct (negb _); [done|]. destruct (_ && _); [done|].
  rewrite Hr0 in Happ. revert Happ. rewrite Hzta, Hztr, Hzn, Hzone. simpl.
  rewrite (alter_fixed _ _ _ _ Hp (set_zone_name_same _ _ Hz)).
  unfold add_zips. simpl. intros [= <-].
  rewrite <- (polygons_after_set_name data _ r0) by done.
  unfold build_polygons_from_data. simpl. rewrite !imap_insert_at.
  f_equal.
Qed.

End Registry.
Lemma renamed_route_shown_witness :
  build_polygons_from_data Binary64.float_of_str HomeProps.renamed
  = shown_as (route_obj Samples.first_zone) (new_route_name rename_form)
             (build_polygons_from_data Binary64.float_of_str Samples.loaded).
Proof.
  apply (renamed_route_shown Binary64.float_of_str Binary64.fmt8
           Samples.upper_ascii Samples.square_table "MONT" 1500 1999
           Samples.loaded Samples.first_zone rename_form ("900", "901")).
  - vm_compute. constructor.
  - vm_compute. reflexivity.
  - reflexivity.
  - reflexivity.
  - reflexivity.
Defined.


End MapProps.

(** ** The manual creator *)

Module CreationProps.
Import Py Text TextMore Geometry Document PatternProps.

Section Form.
Variable upper : string -> string.
Variable re_match : string -> string -> option bool.

Local Abbreviation add := (CreationForm.add_route upper re_match).
Local Abbreviation act := (CreationForm.act upper re_match).
Local Abbreviation run := (CreationForm.run upper re_match).

(** A list of drafts as the form keeps it. *)
Definition tidy_drafts (routes : list Creation.draft) : Prop :=
  NoDup (map fst routes)
  /\ Forall (fun d => fst d <> EmptyString /\ snd d <> []) routes.

Lemma add_route_Added s name_typed fsas routes routes' :
  add s name_typed fsas routes = CreationForm.Added routes' ->
  let new_route_name := upper (strip name_typed) in
  routes' = routes ++ [(new_route_name, fsas)]
  /\ new_route_name <> EmptyString
  /\ fsas <> []
  /\ (new_route_name ∉ map fst routes)
  /\ re_match (CreationForm.name_pattern (upper (strip (CreationForm.prefix_typed s))))
              new_route_name = Some true
  /\ exists digits,
       CreationForm.first_digits new_route_name = Some digits
       /\ CreationForm.min_route s <= digits_val digits 0
          <= CreationForm.max_route s.
Proof.
  intros H new_route_name. unfold CreationForm.add_route in H.
  fold new_route_name in H.
  destruct (Py.is_empty new_route_name) eqn:He; [done|].
  destruct (re_match _ _) as [[]|]; try done.
  destruct (CreationForm.first_digits _) as [digits|]; [|done].
  destruct (negb _) eqn:Hr; [done|].
  case_bool_decide as Hin; [done|].
  destruct fsas as [|z zs]; [done|]. injection H as <-.
  split; [done|]. split; [by destruct new_route_name|]. split; [done|].
  split; [done|]. split; [done|]. exists digits. split; [done|].
  apply negb_false_iff, andb_true_iff in Hr. lia.
Qed.

Lemma act_tidy a routes : tidy_drafts routes -> tidy_drafts (act a routes).
Proof.
  intros [Hnd Hall]. destruct a as [s name_typed fsas|]; simpl.
  2:{ split; [apply NoDup_nil_2|done]. }
  destruct (add s name_typed fsas routes) as [routes'| | | | | | |] eqn:E;
    try done.
  apply add_route_Added in E as (-> & Hne & Hf & Hnew & _). split.
  - rewrite map_app. simpl. apply NoDup_app. split; [done|].
    split; [|apply NoDup_singleton].
    intros x Hx ->%list_elem_of_singleton. done.
  - apply Forall_app. split; [done|]. by repeat constructor.
Qed.

(** X17: whatever is sent and reset, the list of drafts never holds two
    routes of one name, a route without a name or a route without a postal
    code. *)
Theorem drafts_stay_tidy (actions : list CreationForm.action) :
  NoDup (map fst (run actions))
  /\ Forall (fun d => fst d <> EmptyString /\ snd d <> []) (run actions).
Proof.
  unfold CreationForm.run.
  assert (H : tidy_drafts []) by (split; [apply NoDup_nil_2|done]).
  revert H. generalize ([] : list Creation.draft).
  induction actions as [|a actions IH]; intros routes H; [done|].
  simpl. apply IH. by apply act_tidy.
Qed.

(** The number read by [findall] is the number behind the prefix when the
    prefix has no digit. *)
Lemma first_digits_after prefix ds tail :
  all_chars (fun c => negb (isdigit c)) prefix = true ->
  ds <> EmptyString -> all_chars isdigit ds = true -> stops isdigit tail ->
  CreationForm.first_digits (prefix +:+ ds +:+ tail) = Some ds.
Proof.
  intros Hp Hne Hd Ht. unfold CreationForm.first_digits.
  rewrite (span_run (fun c => negb (isdigit c)) prefix).
  - rewrite span_run by done. by destruct ds.
  - done.
  - destruct ds as [|c ds]; [done|]. rewrite sapp_cons. simpl.
    simpl in Hd. apply andb_true_iff in Hd as [Hc _]. by rewrite Hc.
Qed.

(** X18: with a prefix that holds no digit, and that the pattern language
    reads letter by letter (so that the typed name is matched as the editor
    matches it), a name the manual creator accepts is a name the editor
    accepts for the same range: the prefix, then a number between the
    minimum and the maximum. The number checked against the range, the first
    run of digits of the name, is then the number behind the prefix. *)
Theorem manual_name_fits_editor s name_typed fsas routes routes' :
  let prefix := upper (strip (CreationForm.prefix_typed s)) in
  re_match (CreationForm.name_pattern prefix) (upper (strip name_typed))
  = Some (bool_decide
            (is_Some (Home.match_route_name prefix (upper (strip name_typed))))) ->
  all_chars (fun c => negb (isdigit c)) prefix = true ->
  add s name_typed fsas routes = CreationForm.Added routes' ->
  exists num,
    Home.match_route_name prefix (upper (strip name_typed)) = Some num
    /\ CreationForm.min_route s <= num <= CreationForm.max_route s
    /\ routes' = routes ++ [(upper (strip name_typed), fsas)].
Proof.
  intros prefix Hre Hp H.
  apply add_route_Added in H as (-> & _ & _ & _ & Hm & digits & Hd & Hr).
  fold prefix in Hm. rewrite Hre in Hm. injection Hm as Hm.
  apply bool_decide_eq_true in Hm as [num Hnum]. exists num.
  split; [done|]. split; [|done].
  pose proof Hnum as (ds & Hne & Hds & Hs & ->)%EditorProps.match_route_name_spec.
  destruct Hs as [Hs|Hs]; rewrite Hs in Hd.
  - rewrite <- (sapp_nil_r ds) in Hd at 1.
    rewrite first_digits_after in Hd by done. by simplify_eq.
  - rewrite first_digits_after in Hd by done. by simplify_eq.
Qed.

End Form.

Section Generate.
Context {float : Type} {float_eq : EqDecision float}.
Variable fmt8 : float -> string.
Variable unary_union : list string -> option (geometry float).
Variable fresh_id : nat -> string.

Local Abbreviation generate := (Creation.generate fmt8 unary_union fresh_id).
Local Abbreviation route_obj := (Creation.route_obj fmt8 unary_union fresh_id).

Lemma route_obj_fields i d r :
  route_obj i d = Some r ->
  name r = fst d
  /\ adjacentRoutes r = EmptyString
  /\ representative r = RepFlag (Nat.eqb i 1)
  /\ is_Some (unary_union (snd d)).
Proof.
  unfold Creation.route_obj. destruct d as [n fsas]. simpl.
  destruct (unary_union fsas) as [g|]; [|done]. intros [= <-]. simpl.
  repeat split. by exists g.
Qed.

(** The loop over the drafts, the draft at position [i] being numbered
    [S (h i)] by [enumerate]. *)
Definition made (h : nat -> nat) (routes : list Creation.draft) : list route :=
  omap (fun '(i, d) => route_obj (S i) d) (imap (fun i d => (h i, d)) routes).

Lemma made_cons h d routes :
  made h (d :: routes)
  = match route_obj (S (h 0%nat)) d with
    | Some r => r :: made (h ∘ S) routes
    | None => made (h ∘ S) routes
    end.
Proof. reflexivity. Qed.

(** The drafts whose postal codes the boundary table knows. *)
Definition found_drafts (routes : list Creation.draft) : list Creation.draft :=
  filter (fun d => is_Some (unary_union (snd d))) routes.

Lemma made_names h routes :
  map name (made h routes) = map fst (found_drafts routes).
Proof.
  revert h. induction routes as [|d routes IH]; intros h; [done|].
  rewrite made_cons. unfold found_drafts. rewrite filter_cons.
  destruct (route_obj (S (h 0%nat)) d) as [r|] eqn:E.
  - pose proof (route_obj_fields _ _ _ E) as (Hn & _ & _ & Hu).
    rewrite decide_True by done. simpl. rewrite Hn. f_equal. apply IH.
  - rewrite decide_False; [apply IH|].
    unfold Creation.route_obj in E. destruct d as [n fsas]. simpl.
    destruct (unary_union fsas); [done|]. by intros [? ?].
Qed.

Lemma made_plain h routes :
  Forall (fun r => adjacentRoutes r = EmptyString
                   /\ exists b, representative r = RepFlag b)
         (made h routes).
Proof.
  revert h. induction routes as [|d routes IH]; intros h; [done|].
  rewrite made_cons. destruct (route_obj (S (h 0%nat)) d) as [r|] eqn:E; [|apply IH].
  constructor; [|apply IH].
  apply route_obj_fields in E as (_ & Ha & Hr & _). split; [done|]. by eexists.
Qed.

Lemma made_unflagged h routes :
  (forall i, h i <> 0%nat) ->
  Forall (fun r => representative r = RepFlag false) (made h routes).
Proof.
  revert h. induction routes as [|d routes IH]; intros h Hh; [done|].
  rewrite made_cons.
  assert (Hrest : Forall (fun r => representative r = RepFlag false)
                         (made (h ∘ S) routes)).
  { apply IH. intros i. apply Hh. }
  destruct (route_obj (S (h 0%nat)) d) as [r|] eqn:E; [|done].
  constructor; [|done].
  apply route_obj_fields in E as (_ & _ & Hr & _). rewrite Hr.
  specialize (Hh 0%nat). by destruct (h 0%nat).
Qed.

(** X19: the document of the manual creator holds one route for each draft
    whose postal codes the boundary table knows, in the order of the drafts
    and under their names, each without adjacency. The flag [True] goes to
    the route of the first draft and to no other: when the codes of the
    first draft are unknown, no route of the document is flagged. *)
Theorem manual_flag_on_first_draft prefix min_route max_route
    (routes : list Creation.draft) :
  let out :=
    routingParameterUiVehicleDTOs (generate prefix min_route max_route routes) in
  map name out = map fst (found_drafts routes)
  /\ Forall (fun r => adjacentRoutes r = EmptyString
                      /\ exists b, representative r = RepFlag b) out
  /\ match routes with
     | [] => out = []
     | d :: _ =>
         match unary_union (snd d) with
         | Some _ =>
             exists r rest,
               out = r :: rest
               /\ name r = fst d
               /\ representative r = RepFlag true
               /\ Forall (fun r' => representative r' = RepFlag false) rest
         | None => Forall (fun r' => representative r' = RepFlag false) out
         end
     end.
Proof.
  intros out.
  assert (Hout : out = made (fun i => i) routes) by reflexivity.
  rewrite Hout. split; [apply made_names|]. split; [apply made_plain|].
  destruct routes as [|d routes]; [done|]. rewrite made_cons.
  assert (Hrest : Forall (fun r' => representative r' = RepFlag false)
                         (made ((fun i => i) ∘ S) routes)).
  { by apply made_unflagged. }
  destruct (route_obj 1 d) as [r|] eqn:E.
  - pose proof (route_obj_fields _ _ _ E) as (Hn & _ & Hr & [g Hg]).
    rewrite Hg. by exists r, (made ((fun i => i) ∘ S) routes).
  - unfold Creation.route_obj in E. destruct d as [n fsas]. simpl.
    by destruct (unary_union fsas).
Qed.

(** X20: the pattern the manual creator writes is read back by the editor
    and the remapper as the prefix and range that were typed exactly when
    the prefix is made of the letters A to Z and is not empty; any other
    prefix gives a document those pages refuse or read differently. *)
Theorem manual_pattern_reads_back prefix min_route max_route
    (routes : list Creation.draft) :
  0 <= min_route -> 0 <= max_route ->
  parse_pattern
    (admissibleRoutePatterns (generate prefix min_route max_route routes))
  = Some (prefix, min_route, max_route)
  <-> prefix <> EmptyString /\ all_chars isAZ prefix = true.
Proof.
  intros Hmin Hmax. simpl. split.
  - intros H. split; [by eapply parse_pattern_nonempty|].
    by eapply ClosureProps.parse_pattern_prefix.
  - intros [Hne Hp]. by apply parse_pattern_text.
Qed.

End Generate.
(** *** On the page's defaults *)

(** The pattern of a prefix of letters, matched as the editor matches
    it. *)
Definition match_MONT (_ s : string) : option bool :=
  Some (bool_decide (is_Some (Home.match_route_name "MONT" s))).

Definition defaults : CreationForm.settings :=
  CreationForm.mk_settings "mont " 1500 1520.

Lemma manual_name_fits_editor_witness :
  exists num,
    Home.match_route_name "MONT" "MONT1500" = Some num
    /\ 1500 <= num <= 1520
    /\ [("MONT1500", ["H9S"])] = [] ++ [("MONT1500", ["H9S"])].
Proof.
  apply (manual_name_fits_editor Samples.upper_ascii match_MONT defaults
           " mont1500" ["H9S"] [] [("MONT1500", ["H9S"])]).
  - reflexivity.
  - reflexivity.
  - vm_compute. reflexivity.
Defined.

Lemma manual_pattern_reads_back_witness :
  parse_pattern (admissibleRoutePatterns Samples.manual_config)
  = Some ("MONT", 1500, 1520)
  <-> "MONT" <> EmptyString /\ all_chars isAZ "MONT" = true.
Proof.
  apply (manual_pattern_reads_back Binary64.fmt8 Samples.square_table pretty
           "MONT" 1500 1520
           [("MONT1500", ["H9S"]); ("MONT1501", ["H9T"])]); lia.
Defined.


End CreationProps.

(** ** Relations between the routes made from scratch *)

Module RelationsProps.
Import Py Text TextMore Geometry Document Relations.

Lemma grouped_digits_all s :
  all_chars isdigit s = true -> grouped_digits s true = true.
Proof.
  induction s as [|c s IH]; [done|]. simpl.
  intros [Hc Hs]%andb_true_iff. rewrite Hc. by apply IH.
Qed.

Lemma drop_underscores_digits s :
  all_chars isdigit s = true -> drop_underscores s = s.
Proof.
  induction s as [|c s IH]; [done|]. simpl.
  intros [Hc Hs]%andb_true_iff.
  assert (Ascii.eqb c "_" = false) as -> by (revert Hc; clear; each_char c).
  by rewrite IH.
Qed.

Lemma int_of_digits s :
  s <> EmptyString -> all_chars isdigit s = true ->
  grouped_digits s false = true /\ drop_underscores s = s.
Proof.
  intros Hne Hs. split; [|by apply drop_underscores_digits].
  destruct s as [|c s]; [done|]. simpl in *.
  apply andb_true_iff in Hs as [Hc Hs]. rewrite Hc. by apply grouped_digits_all.
Qed.

(** [int(str(n))] is [n]. *)
Lemma int_of_str_pretty (n : Z) : int_of_str (pretty n) = Some n.
Proof.
  unfold int_of_str.
  assert (Hs : strip (pretty n) = pretty n).
  { apply strip_no_space. apply pretty_Z_chars; [|done].
    intros c Hc. by rewrite (digit_not_space c Hc). }
  rewrite Hs. destruct n as [|p|p].
  - done.
  - assert (Hd : all_chars isdigit (pretty (Z.pos p)) = true)
      by (by apply pretty_digits).
    pose proof (pretty_Z_nonempty (Z.pos p)) as Hne.
    destruct (int_of_digits _ Hne Hd) as [Hg Hu].
    assert (Hsign : Binary64.split_sign (pretty (Z.pos p)) = (false, pretty (Z.pos p))).
    { destruct (pretty_head_digit (Z.pos p)) as (c & s & E & Hc); [lia|].
      rewrite E. unfold Binary64.split_sign.
      destruct (Ascii.eqb_spec c "-") as [->|]; [done|].
      destruct (Ascii.eqb_spec c "+") as [->|]; [done|].
      revert Hc. clear. intros Hc.
      destruct c as [[] [] [] [] [] [] [] []]; try done. }
    rewrite Hsign, Hg, Hu. by rewrite digits_val_pretty.
  - assert (E : pretty (Z.neg p) = String "-" (pretty (Z.pos p))) by reflexivity.
    rewrite E. simpl.
    assert (Hd : all_chars isdigit (pretty (Z.pos p)) = true)
      by (by apply pretty_digits).
    pose proof (pretty_Z_nonempty (Z.pos p)) as Hne.
    destruct (int_of_digits _ Hne Hd) as [Hg Hu].
    rewrite Hg, Hu, digits_val_pretty by done. done.
Qed.

Section Relations.
Context {float : Type}.
Variable contains_depot : geometry float -> bool.
Variable nearer : geometry float -> geometry float -> bool.

Local Abbreviation relations := (compute_relations contains_depot nearer).

(** *** The order by distance *)

Lemma insert_by_perm {A} (key : A -> geometry float) x l :
  insert_by nearer key x l ≡ₚ x :: l.
Proof.
  induction l as [|y l IH]; [done|]. simpl.
  destruct (nearer (key x) (key y)); [done|].
  rewrite IH. apply Permutation_swap.
Qed.

Lemma sorted_by_perm {A} (key : A -> geometry float) l :
  sorted_by nearer key l ≡ₚ l.
Proof.
  unfold sorted_by.
  cut (forall acc, fold_left (fun acc x => insert_by nearer key x acc) l acc
                   ≡ₚ l ++ acc).
  { intros H. by rewrite H, app_nil_r. }
  induction l as [|x l IH]; intros acc; [done|]. simpl.
  rewrite IH, insert_by_perm. by rewrite Permutation_middle.
Qed.

Lemma positions_imap {A} (h : nat -> nat) (l : list A) :
  map fst (imap (fun i x => (h i, x)) l) = map h (seq 0 (length l)).
Proof.
  revert h. induction l as [|x l IH]; intros h; [done|]. simpl.
  f_equal. rewrite <- fmap_S_seq, <- list_fmap_compose. apply (IH (h ∘ S)).
Qed.

(** The order of the routes by distance, as positions in the session
    list. *)
Definition order_of (geoms : list (geometry float)) : list nat :=
  map fst (sorted_by nearer snd (imap pair geoms)).

Lemma order_of_perm geoms : order_of geoms ≡ₚ seq 0 (length geoms).
Proof.
  unfold order_of. rewrite sorted_by_perm.
  rewrite (positions_imap (fun i => i)). by rewrite list_fmap_id.
Qed.

(** *** The loop that writes the relations *)

Definition name_at (routes : list (staged float)) (j : nat) : string :=
  default EmptyString (name ∘ staged_route <$> routes !! j).

Lemma name_relate rep adj (s : staged float) :
  name (staged_route (relate rep adj s)) = name (staged_route s).
Proof. done. Qed.

Lemma name_at_alter rep adj i (routes : list (staged float)) j :
  name_at (alter (relate rep adj) i routes) j = name_at routes j.
Proof.
  unfold name_at. destruct (decide (i = j)) as [->|Hne].
  - rewrite list_lookup_alter_eq. by destruct (routes !! j).
  - by rewrite list_lookup_alter_ne.
Qed.

(** The adjacency written at step [k] of the loop. *)
Definition adjacent_at (routes : list (staged float)) (ordered : list nat)
  (prev : option nat) (k : nat) : string :=
  match k with
  | O => match prev with None => EmptyString | Some j => name_at routes j end
  | S k' => name_at routes (default O (ordered !! k'))
  end.

Lemma assign_spec rep ordered prev (routes : list (staged float)) :
  NoDup ordered ->
  length (assign rep ordered prev routes) = length routes
  /\ (forall i, i ∉ ordered -> assign rep ordered prev routes !! i = routes !! i)
  /\ (forall k i, ordered !! k = Some i ->
        assign rep ordered prev routes !! i
        = relate rep (adjacent_at routes ordered prev k) <$> routes !! i).
Proof.
  revert prev routes. induction ordered as [|i rest IH]; intros prev routes Hnd.
  { simpl. split; [done|]. split; [done|]. by intros k i. }
  apply NoDup_cons in Hnd as [Hi Hnd]. simpl.
  set (adj0 := match prev with
               | None => EmptyString
               | Some j => default EmptyString (name ∘ staged_route <$> routes !! j)
               end).
  destruct (IH (Some i) (alter (relate rep adj0) i routes) Hnd) as (Hlen & Hout & Hin).
  split; [by rewrite Hlen, length_alter|]. split.
  - intros j Hj. apply not_elem_of_cons in Hj as [Hji Hj].
    rewrite Hout by done. by rewrite list_lookup_alter_ne.
  - intros [|k] j Hk; simpl in Hk.
    + simplify_eq. rewrite Hout by done. rewrite list_lookup_alter_eq.
      unfold adjacent_at, name_at. by destruct prev.
    + rewrite (Hin k j Hk).
      assert (Hne : i <> j).
      { intros ->. apply Hi. by eapply list_elem_of_lookup_2. }
      rewrite list_lookup_alter_ne by done. f_equal. f_equal.
      destruct k as [|k]; simpl; by rewrite name_at_alter.
Qed.

Lemma min_by_elem {A} (key : A -> geometry float) best rest :
  min_by nearer key best rest ∈ best :: rest.
Proof.
  revert best. induction rest as [|x rest IH]; intros best; simpl; [by left|].
  specialize (IH (if nearer (key x) (key best) then x else best)).
  apply elem_of_cons in IH as [->|IH]; [|by do 2 right].
  destruct (nearer (key x) (key best)); [right|]; by left.
Qed.

(** The name written as representative: that of the first route that
    holds the depot, or of the first nearest one when none does. *)
Definition representative_of (routes : list (staged float))
  (geoms : list (geometry float)) : string :=
  match filter (fun rg => contains_depot rg.2) (zip_with pair routes geoms),
        zip_with pair routes geoms with
  | rg :: _, _ => name (staged_route rg.1)
  | [], first :: rest => name (staged_route (min_by nearer snd first rest).1)
  | [], [] => EmptyString
  end.

Lemma representative_of_elem routes geoms :
  length routes = length geoms -> routes <> [] ->
  representative_of routes geoms ∈ map (name ∘ staged_route) routes.
Proof.
  intros Hlen Hne. unfold representative_of.
  assert (Hk : forall rg, rg ∈ zip_with pair routes geoms ->
                 name (staged_route rg.1) ∈ map (name ∘ staged_route) routes).
  { intros [r g] Hrg. apply elem_of_zip_l in Hrg.
    by apply (list_elem_of_fmap_2 (name ∘ staged_route)). }
  destruct (filter _ _) as [|rg l] eqn:Hf.
  - destruct (zip_with pair routes geoms) as [|first rest] eqn:Hz.
    + destruct routes, geoms; simplify_eq/=.
    + apply Hk. apply min_by_elem.
  - apply Hk. assert (Hin : rg ∈ rg :: l) by (by left).
    rewrite <- Hf in Hin. by apply list_elem_of_filter in Hin as [_ ?].
Qed.

(** A route before and after the relations were written to it. *)
Definition related (rep : string) (s s' : staged float) : Prop :=
  _geom s' = None
  /\ name (staged_route s') = name (staged_route s)
  /\ RemapProps.cargo (staged_route s') = RemapProps.cargo (staged_route s)
  /\ representative (staged_route s') = RepName rep.

(** What [compute_relations] writes. *)
Lemma compute_relations_chain (routes : list (staged float))
    (geoms : list (geometry float)) :
  mapM _geom routes = Some geoms ->
  routes <> [] ->
  exists routes',
    relations routes = inr routes'
    /\ order_of geoms ≡ₚ seq 0 (length routes)
    /\ representative_of routes geoms ∈ map (name ∘ staged_route) routes
    /\ Forall2 (related (representative_of routes geoms)) routes routes'
    /\ forall k i, order_of geoms !! k = Some i ->
         (adjacentRoutes ∘ staged_route <$> routes' !! i)
         = Some (match k with
                 | O => EmptyString
                 | S k' => name_at routes (default O (order_of geoms !! k'))
                 end).
Proof.
  intros Hg Hne. pose proof (length_mapM _ _ _ Hg) as Hlen.
  unfold compute_relations. rewrite Hg. eexists. split; [done|].
  fold (order_of geoms). fold (representative_of routes geoms).
  pose proof (order_of_perm geoms) as Hperm. rewrite <- Hlen in Hperm.
  assert (Hnd : NoDup (order_of geoms)).
  { rewrite Hperm. apply NoDup_seq. }
  destruct (assign_spec (representative_of routes geoms) (order_of geoms) None
              routes Hnd) as (Hl & _ & Hin).
  split; [done|]. split; [by apply representative_of_elem|]. split.
  - apply Forall2_same_length_lookup. split; [done|].
    intros i s s' Hs Hs'.
    assert (Hi : i ∈ order_of geoms).
    { rewrite Hperm. apply elem_of_seq. apply lookup_lt_Some in Hs. lia. }
    apply list_elem_of_lookup in Hi as [k Hk].
    rewrite (Hin k i Hk), Hs in Hs'. by simplify_eq/=.
  - intros k i Hk. rewrite (Hin k i Hk).
    assert (Hi : i ∈ order_of geoms) by (by eapply list_elem_of_lookup_2).
    rewrite Hperm in Hi. apply elem_of_seq in Hi.
    destruct (lookup_lt_is_Some_2 routes i) as [s Hs]; [lia|].
    rewrite Hs. simpl. by destruct k.
Qed.

(** *** The order by distance *)

Section Distances.
(** Distances are numbers: of two geometries one at most is nearer than
    the other, and "not nearer" is transitive. *)
Hypothesis nearer_asym : forall a b, nearer a b = true -> nearer b a = false.
Hypothesis not_nearer_trans :
  forall a b c, nearer a b = false -> nearer b c = false -> nearer a c = false.

Lemma nearer_then_not_nearer a b c :
  nearer a b = true -> nearer c b = false -> nearer a c = true.
Proof.
  intros Hab Hcb. destruct (nearer a c) eqn:E; [done|].
  by rewrite (not_nearer_trans a c b E Hcb) in Hab.
Qed.

Lemma nearer_trans a b c :
  nearer a b = true -> nearer b c = true -> nearer a c = true.
Proof.
  intros Hab Hbc. apply (nearer_then_not_nearer a b c Hab). by apply nearer_asym.
Qed.

(** A route, given by its position and its geometry, goes before another:
    it is nearer, or as near and earlier in the session list. *)
Definition before (a b : nat * geometry float) : Prop :=
  nearer a.2 b.2 = true \/ (nearer b.2 a.2 = false /\ (a.1 < b.1)%nat).

(** The routes in the order of their distance, equal distances in the
    order of the session list: [order] lists the positions. *)
Definition by_distance (geoms : list (geometry float)) (order : list nat) : Prop :=
  order ≡ₚ seq 0 (length geoms)
  /\ forall k k' i i' g g',
       (k < k')%nat -> order !! k = Some i -> order !! k' = Some i' ->
       geoms !! i = Some g -> geoms !! i' = Some g' ->
       before (i, g) (i', g').

(** The position of the route whose name is written as representative:
    the first route that holds the depot or, when none does, the first of
    the order. *)
Definition representative_at (geoms : list (geometry float)) (order : list nat)
  : nat :=
  match list_find (fun g => contains_depot g = true) geoms with
  | Some (i, _) => i
  | None => default O (head order)
  end.

Lemma insert_by_sorted (x : nat * geometry float) acc :
  StronglySorted before acc ->
  Forall (fun y => (y.1 < x.1)%nat) acc ->
  StronglySorted before (insert_by nearer snd x acc).
Proof.
  induction acc as [|y l IH]; intros Hs Hi; simpl.
  - repeat constructor.
  - apply StronglySorted_cons in Hs as [Hy Hs].
    apply Forall_cons in Hi as [Hyx Hi].
    destruct (nearer x.2 y.2) eqn:E.
    + apply StronglySorted_cons. split; [|by apply StronglySorted_cons].
      constructor; [by left|].
      eapply Forall_impl; [exact Hy|]. intros z [Hz|[Hz _]]; left.
      * by eapply nearer_trans.
      * by eapply nearer_then_not_nearer.
    + apply StronglySorted_cons. split; [|by apply IH].
      rewrite insert_by_perm. constructor; [by right|done].
Qed.

Lemma fold_insert_sorted (l acc : list (nat * geometry float)) :
  StronglySorted before acc ->
  StronglySorted (fun a b : nat * geometry float => (a.1 < b.1)%nat) l ->
  Forall (fun y => Forall (fun x => (y.1 < x.1)%nat) l) acc ->
  StronglySorted before
    (fold_left (fun acc x => insert_by nearer snd x acc) l acc).
Proof.
  revert acc. induction l as [|x l IH]; intros acc Hs Hl Ha; [done|]. simpl.
  apply StronglySorted_cons in Hl as [Hx Hl]. apply IH; [|done|].
  - apply insert_by_sorted; [done|].
    eapply Forall_impl; [exact Ha|]. intros y Hy.
    by apply Forall_cons in Hy as [? _].
  - rewrite insert_by_perm. constructor; [done|].
    eapply Forall_impl; [exact Ha|]. intros y Hy.
    by apply Forall_cons in Hy as [_ ?].
Qed.

Lemma positions_increase (l : list (geometry float)) n :
  StronglySorted (fun a b : nat * geometry float => (a.1 < b.1)%nat)
                 (imap (fun i g => ((n + i)%nat, g)) l).
Proof.
  revert n. induction l as [|g l IH]; intros n; [constructor|].
  rewrite imap_cons. apply StronglySorted_cons. split.
  - apply Forall_forall. intros [j h] Hj.
    apply elem_of_lookup_imap in Hj as (i & y & Hy & _).
    simpl in *. simplify_eq. simpl. lia.
  - rewrite (imap_ext _ (fun i g => ((S n + i)%nat, g))); [apply IH|].
    intros i x _. simpl. f_equal. lia.
Qed.

Lemma sorted_lookup {A} (R : A -> A -> Prop) (l : list A) k k' a b :
  StronglySorted R l -> (k < k')%nat ->
  l !! k = Some a -> l !! k' = Some b -> R a b.
Proof.
  intros Hs Hk Ha Hb. rewrite <- (take_drop k' l) in Hs.
  apply (StronglySorted_app_1_elem_of _ _ _ a b Hs).
  - apply list_elem_of_lookup. exists k. by rewrite lookup_take_lt.
  - apply list_elem_of_lookup. exists O. rewrite lookup_drop.
    by rewrite Nat.add_0_r.
Qed.

Lemma order_of_by_distance geoms : by_distance geoms (order_of geoms).
Proof.
  split; [apply order_of_perm|].
  set (L := sorted_by nearer snd (imap pair geoms)).
  assert (HL : StronglySorted before L).
  { unfold L, sorted_by. apply fold_insert_sorted; [constructor| |constructor].
    apply (positions_increase geoms 0). }
  assert (Hel : forall p, p ∈ L -> geoms !! p.1 = Some p.2).
  { intros [i g] Hp. unfold L in Hp. rewrite sorted_by_perm in Hp.
    apply elem_of_lookup_imap in Hp as (j & y & Hy & Hj). by simplify_eq. }
  intros k k' i i' g g' Hk Hi Hi' Hg Hg'.
  unfold order_of in Hi, Hi'. fold L in Hi, Hi'.
  rewrite list_lookup_fmap in Hi, Hi'.
  destruct (L !! k) as [[a ga]|] eqn:Ea; simplify_eq/=.
  destruct (L !! k') as [[b gb]|] eqn:Eb; simplify_eq/=.
  pose proof (Hel _ (list_elem_of_lookup_2 _ _ _ Ea)) as H1.
  pose proof (Hel _ (list_elem_of_lookup_2 _ _ _ Eb)) as H2.
  simpl in *. simplify_eq.
  exact (sorted_lookup before L k k' _ _ HL Hk Ea Eb).
Qed.

(** [min]: the first of the least elements. *)
Lemma min_by_first_least {A} (key : A -> geometry float) A0 best B rest :
  Forall (fun y => nearer (key best) (key y) = true) A0 ->
  Forall (fun y => nearer (key y) (key best) = false) B ->
  exists A' B',
    A0 ++ best :: B ++ rest = A' ++ min_by nearer key best rest :: B'
    /\ Forall (fun y => nearer (key (min_by nearer key best rest)) (key y) = true) A'
    /\ Forall (fun y => nearer (key y) (key (min_by nearer key best rest)) = false) B'.
Proof.
  revert A0 best B. induction rest as [|x rest IH]; intros A0 best B HA HB; simpl.
  - exists A0, B. by rewrite app_nil_r.
  - destruct (nearer (key x) (key best)) eqn:E.
    + destruct (IH (A0 ++ best :: B) x []) as (A' & B' & Heq & HA' & HB').
      * apply Forall_app. split.
        -- eapply Forall_impl; [exact HA|]. intros y Hy. by eapply nearer_trans.
        -- constructor; [done|].
           eapply Forall_impl; [exact HB|]. intros y Hy.
           by eapply nearer_then_not_nearer.
      * constructor.
      * exists A', B'. split; [|done]. rewrite <- Heq.
        by rewrite <- app_assoc.
    + destruct (IH A0 best (B ++ [x])) as (A' & B' & Heq & HA' & HB'); [done| |].
      * apply Forall_app. split; [done|]. by constructor.
      * exists A', B'. split; [|done]. rewrite <- Heq.
        by rewrite <- app_assoc.
Qed.

(** [containing[0]]: the first route that holds the depot. *)
Lemma first_holding (routes : list (staged float)) geoms :
  length routes = length geoms ->
  match filter (fun rg => contains_depot rg.2) (zip_with pair routes geoms) with
  | rg :: _ =>
      exists i g,
        list_find (fun g => contains_depot g = true) geoms = Some (i, g)
        /\ routes !! i = Some rg.1
  | [] => list_find (fun g => contains_depot g = true) geoms = None
  end.
Proof.
  revert geoms. induction routes as [|r routes IH]; intros [|g geoms] Hl;
    simplify_eq/=; [done|].
  rewrite filter_cons. simpl. destruct (contains_depot g) eqn:Eg.
  - rewrite decide_True by done. rewrite decide_True by done.
    by exists O, g.
  - destruct (decide (Is_true false)) as [[]|_].
    destruct (decide (false = true)) as [|_]; [done|].
    specialize (IH geoms Hl).
    destruct (filter _ (zip_with pair routes geoms)) as [|rg l].
    + by rewrite IH.
    + destruct IH as (i & g' & -> & Hi). by exists (S i), g'.
Qed.

Lemma representative_of_at (routes : list (staged float)) geoms order :
  length routes = length geoms -> routes <> [] ->
  by_distance geoms order ->
  representative_of routes geoms = name_at routes (representative_at geoms order).
Proof.
  intros Hlen Hne [Hperm Hsorted]. unfold representative_of, representative_at.
  pose proof (first_holding routes geoms Hlen) as Hf.
  destruct (filter _ (zip_with pair routes geoms)) as [|rg l].
  2:{ destruct Hf as (i & g & -> & Hi). unfold name_at. by rewrite Hi. }
  rewrite Hf.
  destruct (zip_with pair routes geoms) as [|first rest] eqn:Hz.
  { destruct routes, geoms; simplify_eq/=. }
  destruct (min_by_first_least snd [] first [] rest) as (A' & B' & Heq & HA & HB);
    [constructor|constructor|].
  simpl in Heq. set (m := min_by nearer snd first rest) in *.
  set (j := length A').
  assert (Hzj : zip_with pair routes geoms !! j = Some m).
  { rewrite Hz, Heq. by apply list_lookup_middle. }
  apply lookup_zip_with_Some in Hzj as (rm & gm & Hm & Hrj & Hgj).
  assert (Hjn : (j < length geoms)%nat) by (by eapply lookup_lt_Some).
  assert (Hnd : NoDup order) by (rewrite Hperm; apply NoDup_seq).
  assert (Hj : j ∈ order) by (rewrite Hperm; apply elem_of_seq; lia).
  apply list_elem_of_lookup in Hj as [k Hk].
  assert (Hhead : head order = Some j).
  { rewrite head_lookup. destruct k as [|k]; [done|].
    destruct (order !! O) as [i0|] eqn:E0.
    2:{ apply lookup_ge_None in E0. apply lookup_lt_Some in Hk. lia. }
    assert (Hi0 : (i0 < length geoms)%nat).
    { assert (Hin : i0 ∈ order) by (by eapply list_elem_of_lookup_2).
      rewrite Hperm in Hin. apply elem_of_seq in Hin. lia. }
    destruct (lookup_lt_is_Some_2 geoms i0 Hi0) as [g0 Hg0].
    destruct (lookup_lt_is_Some_2 routes i0) as [r0 Hr0]; [lia|].
    assert (Hz0 : (A' ++ m :: B') !! i0 = Some (r0, g0)).
    { rewrite <- Heq, <- Hz. apply lookup_zip_with_Some. by exists r0, g0. }
    pose proof (Hsorted O (S k) i0 j g0 gm ltac:(lia) E0 Hk Hg0 Hgj) as Hb.
    unfold before in Hb. simpl in Hb.
    rewrite Hm in HA, HB. simpl in HA, HB.
    destruct (decide (i0 < j)%nat) as [Hlt|Hge].
    - rewrite lookup_app_l in Hz0 by done.
      eapply Forall_lookup_1 in HA; [|exact Hz0]. simpl in HA.
      destruct Hb as [Hb|[Hb _]]; [|congruence].
      apply nearer_asym in Hb. congruence.
    - destruct (decide (i0 = j)) as [->|Hne0].
      + pose proof (NoDup_lookup _ _ _ _ Hnd E0 Hk). lia.
      + rewrite lookup_app_r in Hz0 by (fold j; lia). fold j in Hz0.
        destruct (i0 - j)%nat as [|d] eqn:Ed; [lia|]. simpl in Hz0.
        eapply Forall_lookup_1 in HB; [|exact Hz0]. simpl in HB.
        destruct Hb as [Hb|[_ Hb]]; [congruence|]. lia. }
  rewrite Hhead. simpl. unfold name_at. rewrite Hrj. simpl. by rewrite Hm.
Qed.

(** X21: [compute_relations] on routes that all carry their geometry, the
    distances being numbers. Take the routes in the order of their distance
    to the depot, equal distances in the order of the session list. Every
    route keeps its name, identifier and preferences, loses its geometry
    and gets one and the same representative: the name of the first route
    that holds the depot or, when none does, of the nearest route. The
    nearest route gets no adjacency; every other route gets as adjacency
    the name of the route just before it in the order. *)
Theorem relations_form_a_chain (routes : list (staged float))
    (geoms : list (geometry float)) :
  mapM _geom routes = Some geoms ->
  routes <> [] ->
  exists routes' order,
    relations routes = inr routes'
    /\ by_distance geoms order
    /\ Forall2 (related (name_at routes (representative_at geoms order)))
               routes routes'
    /\ forall k i, order !! k = Some i ->
         (adjacentRoutes ∘ staged_route <$> routes' !! i)
         = Some (match k with
                 | O => EmptyString
                 | S k' => name_at routes (default O (order !! k'))
                 end).
Proof.
  intros Hg Hne.
  destruct (compute_relations_chain routes geoms Hg Hne)
    as (routes' & Hrel & _ & _ & Hall & Hadj).
  exists routes', (order_of geoms). split; [done|].
  split; [apply order_of_by_distance|]. split; [|done].
  rewrite <- representative_of_at; [done| |done|apply order_of_by_distance].
  by eapply length_mapM.
Qed.

End Distances.

(** X22: the relations can be computed once. The routes they were written
    to have lost their geometry, so the next call, on these routes and any
    routes added since, raises [KeyError] for the key [_geom]; the button
    then leaves the session list as it is and builds no document. *)
Theorem relations_only_once (routes : list (staged float)) routes' more
    network_id admissible_patterns route_number_gap :
  relations routes = inr routes' ->
  routes <> [] ->
  relations (routes' ++ more) = inl (KeyError "_geom")
  /\ generate contains_depot nearer network_id admissible_patterns
       route_number_gap (routes' ++ more)
     = (routes' ++ more, Broke (KeyError "_geom")).
Proof.
  intros H Hne. unfold compute_relations in H.
  destruct (mapM _geom routes) as [geoms|] eqn:Hg; [|done].
  destruct (compute_relations_chain routes geoms Hg Hne)
    as (r2 & Hr2 & _ & _ & Hall & _).
  unfold compute_relations in Hr2. rewrite Hg in Hr2.
  rewrite Hr2 in H. injection H as ->.
  assert (Hnone : mapM _geom (routes' ++ more) = None).
  { apply mapM_None. inversion Hall as [|s s' l l' (Hs' & _) _ E1 E2];
      [by subst|]. by left. }
  assert (Hrel : relations (routes' ++ more) = inl (KeyError "_geom")).
  { unfold compute_relations. by rewrite Hnone. }
  split; [done|]. unfold generate. rewrite Hrel.
  inversion Hall; [by subst|]. done.
Qed.

End Relations.
(** *** On two staged routes *)

(** Two routes of the session, the second nearer to the depot than the
    first; the depot in neither, and "nearer" told by the number of
    corners. *)
Definition far_route : staged Binary64.float :=
  mk_staged (Samples.zoned_route "152400" "MONT1500" "" "Zone A" "H9S")
            (Some (GPolygon Samples.unit_square)).

Definition near_route : staged Binary64.float :=
  mk_staged (Samples.zoned_route "152405" "MONT1505" "" "Zone B" "H9T")
            (Some (GPolygon ScratchProps.corner)).

Definition two_staged : list (staged Binary64.float) := [far_route; near_route].

Definition two_geoms : list (geometry Binary64.float) :=
  [GPolygon Samples.unit_square; GPolygon ScratchProps.corner].

Definition depot_nowhere (_ : geometry Binary64.float) : bool := false.

Definition fewer_corners (a b : geometry Binary64.float) : bool :=
  (length (concat (rings a)) <? length (concat (rings b)))%nat.

Definition related_once : list (staged Binary64.float) :=
  match compute_relations depot_nowhere fewer_corners two_staged with
  | inr l => l
  | inl _ => []
  end.

Example related_once_chain :
  map (fun s => (name (staged_route s), adjacentRoutes (staged_route s),
                 representative (staged_route s)))
      related_once
  = [("MONT1500", "MONT1505", RepName "MONT1505");
     ("MONT1505", "", RepName "MONT1505")].
Proof. vm_compute. reflexivity. Qed.

Lemma relations_form_a_chain_witness :
  exists routes' order,
    compute_relations depot_nowhere fewer_corners two_staged = inr routes'
    /\ by_distance fewer_corners two_geoms order
    /\ Forall2 (related (name_at two_staged
                           (representative_at depot_nowhere two_geoms order)))
               two_staged routes'
    /\ forall k i, order !! k = Some i ->
         (adjacentRoutes ∘ staged_route <$> routes' !! i)
         = Some (match k with
                 | O => EmptyString
                 | S k' => name_at two_staged (default O (order !! k'))
                 end).
Proof.
  apply (relations_form_a_chain depot_nowhere fewer_corners).
  - unfold fewer_corners. intros a b Hab.
    apply Nat.ltb_lt in Hab. apply Nat.ltb_ge. lia.
  - unfold fewer_corners. intros a b c Hab Hbc.
    apply Nat.ltb_ge in Hab, Hbc. apply Nat.ltb_ge. lia.
  - reflexivity.
  - discriminate.
Defined.

Lemma relations_only_once_witness :
  compute_relations depot_nowhere fewer_corners (related_once ++ [far_route])
  = inl (KeyError "_geom")
  /\ generate depot_nowhere fewer_corners "4485" "MONT|1500|1999" 5
       (related_once ++ [far_route])
     = (related_once ++ [far_route], Broke (KeyError "_geom")).
Proof.
  apply (relations_only_once depot_nowhere fewer_corners two_staged
           related_once [far_route] "4485" "MONT|1500|1999" 5).
  - vm_compute. reflexivity.
  - discriminate.
Defined.


End RelationsProps.

(** ** The document made from scratch *)

Module ScratchDocProps.
Import Py Text TextMore Geometry Document Relations RelationsProps.
Import BulkProps ClosureProps.

(** A reference that is one clean name reads as that name. *)
Lemma adj_tokens_name t : clean t -> Bulk.adj_tokens t = [t].
Proof.
  intros (Hne & Hc & Hs). rewrite adj_tokens_single by done.
  rewrite Hs. by rewrite decide_False.
Qed.

(** A document whose adjacencies and representatives are names of its
    routes, with one node for each route. *)
Lemma named_relations_consistent id pat gap (rs : list route) (nodes : list node) :
  Forall clean (map name rs) ->
  Forall (fun r =>
            (adjacentRoutes r = EmptyString \/ adjacentRoutes r ∈ map name rs)
            /\ exists rep, rep ∈ map name rs /\ representative r = RepName rep) rs ->
  map label nodes = map name rs ->
  self_consistent (mk_document id pat gap rs (Some nodes)).
Proof.
  intros Hclean Hrs Hnodes. unfold self_consistent. simpl.
  assert (Hc : forall t, t ∈ map name rs -> clean t).
  { intros t Ht. by eapply Forall_forall in Hclean. }
  split.
  - eapply Forall_impl; [exact Hrs|]. intros r (_ & rep & Hrep & Hr).
    unfold single_representative. rewrite Hr. by destruct (Hc rep Hrep) as (_ & ? & _).
  - intros t Ht. unfold refs_of in Ht. apply elem_of_app in Ht as [Ht|Ht].
    + apply list_elem_of_In, in_flat_map in Ht as (r & Hr & Ht).
      apply list_elem_of_In in Hr, Ht.
      eapply Forall_forall in Hrs; [|exact Hr].
      destruct Hrs as (Hadj & rep & Hrep & Hr').
      unfold refs_of_route in Ht. rewrite Hr' in Ht.
      apply elem_of_app in Ht as [Ht|Ht].
      * destruct Hadj as [E|Hin]; [rewrite E in Ht; by inversion Ht|].
        rewrite adj_tokens_name in Ht by (by apply Hc).
        by apply list_elem_of_singleton in Ht as ->.
      * rewrite adj_tokens_name in Ht by (by apply Hc).
        by apply list_elem_of_singleton in Ht as ->.
    + simpl in Ht. apply list_elem_of_In, in_flat_map in Ht as (n & Hn & Ht).
      apply list_elem_of_In in Hn, Ht.
      assert (Hl : label n ∈ map name rs).
      { rewrite <- Hnodes. by apply list_elem_of_fmap_2. }
      rewrite adj_tokens_name in Ht by (by apply Hc).
      by apply list_elem_of_singleton in Ht as ->.
Qed.

(** The remapper on a self-consistent by-name document reports nothing. *)
Lemma consistent_remaps_clean data new_min new_max :
  is_Some (parse_pattern (admissibleRoutePatterns data)) ->
  Bulk.valid_range new_min new_max = true ->
  by_name (routingParameterUiVehicleDTOs data) ->
  self_consistent data ->
  exists r,
    Bulk.apply_changes data new_min new_max true = Done r
    /\ Bulk.broken_refs r = ∅.
Proof.
  intros Hp Hv Hb [Hs Hc].
  destruct (apply_changes_by_name data new_min new_max Hp Hv Hb)
    as (r & Hr & _ & _ & Hbroken).
  exists r. split; [done|]. rewrite Hbroken. apply set_eq. intros t.
  rewrite elem_of_closure_of, refs_of_out, names_of_out by done.
  split; [|set_solver]. intros [Ht Hn]. exfalso. apply Hn.
  apply list_elem_of_fmap in Ht as (u & -> & Hu).
  apply list_elem_of_fmap_2. by apply Hc.
Qed.

Lemma omap_length_filter {A B} (h : A -> option B) (P : A -> Prop)
    `{!forall x, Decision (P x)} (l : list A) :
  (forall x, x ∈ l -> is_Some (h x) <-> P x) ->
  length (omap h l) = length (filter P l).
Proof.
  induction l as [|x l IH]; intros Hl; [done|]. simpl. rewrite filter_cons.
  assert (IH' : length (omap h l) = length (filter P l)).
  { apply IH. intros y Hy. apply Hl. by right. }
  specialize (Hl x (list_elem_of_here _ _)).
  destruct (h x) as [y|] eqn:E.
  - rewrite decide_True by (apply Hl; by eexists). simpl. f_equal. exact IH'.
  - rewrite decide_False; [exact IH'|]. intros HP. apply Hl in HP. by destruct HP.
Qed.

Lemma name_to_id_covers (nodes : list node) (n : node) :
  n ∈ nodes -> is_Some (name_to_id nodes !! label n).
Proof.
  unfold name_to_id.
  cut (forall acc : gmap string Z,
         is_Some (acc !! label n) \/ n ∈ nodes ->
         is_Some (fold_left (fun m x => <[label x := node_id x]> m) nodes acc
                  !! label n)).
  { intros H Hn. apply H. by right. }
  induction nodes as [|x nodes IH]; intros acc [Hacc|Hn]; simpl.
  - done.
  - by apply elem_of_nil in Hn.
  - apply IH. left. destruct (decide (label x = label n)) as [->|Hne].
    + rewrite lookup_insert_eq. by eexists.
    + by rewrite lookup_insert_ne.
  - apply elem_of_cons in Hn as [->|Hn].
    + apply IH. left. rewrite lookup_insert_eq. by eexists.
    + apply IH. by right.
Qed.

(** In a list of adjacencies written along an order, one is blank. *)
Lemma one_blank (B : list string) (order : list nat) (N : nat -> string) :
  order ≡ₚ seq 0 (length B) ->
  (forall k i, order !! k = Some i ->
     B !! i = Some (match k with O => EmptyString | S k' => N k' end)) ->
  (forall k', (S k' < length B)%nat -> N k' <> EmptyString) ->
  B <> [] ->
  (length (filter (fun a => a <> EmptyString) B) + 1 = length B)%nat.
Proof.
  intros Hperm Hat HN Hne.
  set (C := map (fun i => default EmptyString (B !! i)) order).
  assert (HB : B ≡ₚ C).
  { unfold C. rewrite Hperm. clear. 
    assert (H : map (fun i => default EmptyString (B !! i)) (seq 0 (length B)) = B).
    { apply list_eq. intros i. rewrite list_lookup_fmap.
      destruct (decide (i < length B)%nat) as [Hi|Hi].
      - rewrite lookup_seq_lt by done. simpl.
        destruct (lookup_lt_is_Some_2 B i Hi) as [x Hx]. by rewrite Hx.
      - rewrite lookup_seq_ge by lia. simpl. symmetry.
        apply lookup_ge_None. lia. }
    by rewrite H. }
  assert (Hlen : length order = length B).
  { by rewrite Hperm, length_seq. }
  assert (HC : C = match length B with
                   | O => []
                   | S m => EmptyString :: map N (seq 0 m)
                   end).
  { apply list_eq. intros k. unfold C. rewrite list_lookup_fmap.
    destruct (decide (k < length B)%nat) as [Hk|Hk].
    - destruct (lookup_lt_is_Some_2 order k) as [i Hi]; [lia|].
      rewrite Hi. simpl. rewrite (Hat k i Hi). simpl.
      destruct (length B) as [|m] eqn:E; [lia|].
      destruct k as [|k']; [done|]. simpl.
      rewrite list_lookup_fmap, lookup_seq_lt by lia. done.
    - rewrite (proj2 (lookup_ge_None order k)) by lia. simpl.
      destruct (length B) as [|m] eqn:E; [done|].
      destruct k as [|k']; [lia|]. simpl. symmetry.
      apply lookup_ge_None. rewrite length_map, length_seq. lia. }
  rewrite HB at 1. rewrite HC.
  destruct (length B) as [|m] eqn:E; [by destruct B|].
  rewrite filter_cons_False by (by intros H; apply H).
  assert (Hall : filter (fun a => a <> EmptyString) (map N (seq 0 m))
                 = map N (seq 0 m)).
  { clear -HN. assert (H : forall k, k ∈ seq 0 m -> N k <> EmptyString).
    { intros k Hk%elem_of_seq. apply HN. lia. }
    induction (seq 0 m) as [|k l IH]; [done|]. simpl.
    rewrite filter_cons_True by (apply H; by left).
    f_equal. apply IH. intros k' Hk'. apply H. by right. }
  rewrite Hall, length_map, length_seq. lia.
Qed.

Section Session.
Context {float : Type} {float_eq : EqDecision float}.
Variable fmt12 : float -> string.
Variable unary_union : list string -> geometry float.
Variable area_lt : polygon float -> polygon float -> bool.
Variable network_id : string.
Variable contains_depot : geometry float -> bool.
Variable nearer : geometry float -> geometry float -> bool.

Local Abbreviation press := (Relations.add_route fmt12 unary_union area_lt network_id).
Local Abbreviation button := (generate contains_depot nearer network_id).
Local Abbreviation made := (ScratchProps.route_made network_id).

(** The session after a run of presses of "Ajouter la route". *)
Definition run_presses (ps : list App9.press) : stage float :=
  fold_left (fun st p => (press p st).1) ps (App9.initial, []).

(** A session list as the presses leave it: every route was made by a
    press and carries its geometry. *)
Definition fresh (routes : list (staged float)) : Prop :=
  Forall (fun s => is_Some (_geom s)
                   /\ exists p num text, staged_route s = made p num text) routes.

Lemma press_fresh p (st : stage float) :
  length st.2 = length (App9.routes st.1) ->
  fresh (staged_routes st) ->
  length (press p st).1.2 = length (App9.routes (press p st).1.1)
  /\ fresh (staged_routes (press p st).1).
Proof.
  destruct st as [[routes used] geoms]. intros Hlen Hf.
  unfold Relations.add_route.
  destruct (App9.add_route fmt12 unary_union area_lt network_id p
              (App9.mk_session routes used)) as [session' o] eqn:E.
  unfold App9.add_route in E. cbn [App9.routes App9.used_nums] in E.
  destruct (App9.selected_fsas p) as [|z zs] eqn:Hsel.
  { by simplify_eq. }
  destruct (App9.union_to_polygon area_lt (unary_union (z :: zs)))
    as [g| | |] eqn:Hu; try (by simplify_eq).
  destruct (App9.next_num _ _ _ _) as [num|]; [|by simplify_eq].
  destruct (App9.polygon_to_str fmt12 g) as [text| | |] eqn:Ht;
    try (by simplify_eq).
  simplify_eq. cbn [fst snd App9.routes] in *.
  split; [rewrite !length_app; simpl; lia|].
  unfold staged_routes, fresh in *. cbn [fst snd App9.routes] in *.
  rewrite zip_with_app by done. apply Forall_app. split; [done|].
  constructor; [|done]. split; [by eexists|].
  exists p, num, text. unfold ScratchProps.route_made, ScratchProps.name_of_num.
  by rewrite Hsel.
Qed.

Lemma run_presses_fresh ps :
  length (run_presses ps).2 = length (App9.routes (run_presses ps).1)
  /\ fresh (staged_routes (run_presses ps)).
Proof.
  unfold run_presses.
  assert (H : length (App9.initial, [] : list (option (geometry float))).2
              = length (App9.routes (App9.initial, [] : list (option (geometry float))).1)
              /\ fresh (staged_routes (App9.initial, []))).
  { split; [done|]. constructor. }
  revert H. generalize ((App9.initial, []) : stage float).
  induction ps as [|p ps IH]; intros st [Hlen Hf]; [done|].
  simpl. apply IH. by apply press_fresh.
Qed.

Lemma related_names rep (l l' : list (staged float)) :
  Forall2 (related rep) l l' ->
  map (name ∘ staged_route) l' = map (name ∘ staged_route) l.
Proof.
  induction 1 as [|s s' l l' (_ & Hn & _) _ IH]; [done|].
  simpl. by rewrite Hn, IH.
Qed.

Lemma related_made rep (l l' : list (staged float)) :
  fresh l -> Forall2 (related rep) l l' ->
  Forall (fun r => exists p num text,
            name r = ScratchProps.name_of_num num
            /\ RemapProps.cargo r = RemapProps.cargo (made p num text)
            /\ representative r = RepName rep)
         (map staged_route l').
Proof.
  intros Hf Hall. induction Hall as [|s s' l l' (_ & Hn & Hc & Hr) _ IH]; [done|].
  apply Forall_cons in Hf as [(_ & p & num & text & Hs) Hf].
  simpl. constructor; [|by apply IH]. exists p, num, text.
  by rewrite Hn, Hc, Hr, Hs.
Qed.

Lemma collect_all {A B} (f : A -> failure + B) (g : A -> B) (l : list A) :
  Forall (fun x => f x = inr (g x)) l -> collect f l = inr (map g l).
Proof.
  induction 1 as [|x l Hx Hl IH]; [done|]. simpl. by rewrite Hx, IH.
Qed.

(** The zone and the number of the route a press made. *)
Definition zone_made (r : route) : zone :=
  match routingParameterUiVehiclePreferenceDTOs r with
  | pref :: _ =>
      default (mk_zone EmptyString EmptyString EmptyString EmptyString)
              (routingParameterUiPolygonDTO pref)
  | [] => mk_zone EmptyString EmptyString EmptyString EmptyString
  end.

Definition node_made (r : route) : node :=
  mk_node (default 0 (int_of_str (id r))) (name r).

(** The button "Générer la structure JSON complète" on a session that
    presses of "Ajouter la route" have filled, pressed for the first time. *)
Lemma button_on_fresh_session (ps : list App9.press)
    admissible_patterns route_number_gap :
  App9.routes (run_presses ps).1 <> [] ->
  exists routes' net,
    button admissible_patterns route_number_gap (staged_routes (run_presses ps))
    = (routes', Built net)
    /\ map name (routingParameterUiVehicleDTOs (net_document net))
       = map name (App9.routes (run_presses ps).1)
    /\ (map label <$> routingParameterNodeDTOs (net_document net))
       = Some (map name (App9.routes (run_presses ps).1))
    /\ nbVehicle net = length (App9.routes (run_presses ps).1)
    /\ (length (routingParameterEdgeDTOs net) + 1
        = length (App9.routes (run_presses ps).1))%nat
    /\ admissibleRoutePatterns (net_document net) = admissible_patterns
    /\ by_name (routingParameterUiVehicleDTOs (net_document net))
    /\ self_consistent (net_document net).
Proof.
  intros Hne. destruct (run_presses_fresh ps) as [Hlen Hf].
  set (st := run_presses ps) in *. clearbody st.
  set (staged0 := staged_routes st) in *.
  assert (Hnames0 : map (name ∘ staged_route) staged0 = map name (App9.routes st.1)).
  { unfold staged0, staged_routes. clear -Hlen.
    revert Hlen. generalize (st.2). induction (App9.routes st.1) as [|r rs IH];
      intros [|g gs] Hl; simplify_eq/=; [done|]. f_equal. by apply IH. }
  assert (Hne0 : staged0 <> []).
  { intros E. rewrite E in Hnames0. simpl in Hnames0.
    by destruct (App9.routes st.1). }
  destruct (mapM_is_Some_2 _geom staged0) as [geoms Hg].
  { eapply Forall_impl; [exact Hf|]. by intros s [? _]. }
  destruct (compute_relations_chain contains_depot nearer staged0 geoms Hg Hne0)
    as (routes' & Hrel & Hperm & Hrep & Hall & Hadj).
  set (rep := representative_of contains_depot nearer staged0 geoms) in *.
  set (order := order_of nearer geoms) in *.
  set (rs := map staged_route routes').
  assert (Hnames : map name rs = map name (App9.routes st.1)).
  { rewrite <- Hnames0. unfold rs. rewrite map_map.
    by apply (related_names rep). }
  assert (Hlens : length rs = length staged0).
  { unfold rs. rewrite length_map. symmetry. by eapply Forall2_length. }
  assert (Hmade : Forall (fun r => exists p num text,
            name r = ScratchProps.name_of_num num
            /\ RemapProps.cargo r = RemapProps.cargo (made p num text)
            /\ representative r = RepName rep) rs).
  { by apply (related_made rep staged0). }
  assert (Hclean : forall t, t ∈ map name rs -> clean t).
  { intros t (r & -> & Hr)%list_elem_of_fmap.
    eapply Forall_forall in Hmade as (_ & num & _ & Hn & _); [|exact Hr].
    rewrite Hn. by apply new_name_clean. }
  (* the adjacency of the route at each position of the order *)
  set (N := fun k' : nat => name_at staged0 (default O (order !! k'))).
  assert (HN : forall k', (S k' < length rs)%nat -> N k' ∈ map name rs).
  { intros k' Hk'. unfold N.
    destruct (lookup_lt_is_Some_2 order k') as [j Hj].
    { rewrite Hperm, length_seq. lia. }
    rewrite Hj. simpl.
    assert (Hjn : (j < length staged0)%nat).
    { assert (Hjo : j ∈ order) by (by eapply list_elem_of_lookup_2).
      rewrite Hperm in Hjo. apply elem_of_seq in Hjo. lia. }
    destruct (lookup_lt_is_Some_2 staged0 j Hjn) as [sj Hsj].
    unfold name_at. rewrite Hsj. simpl. rewrite Hnames, <- Hnames0.
    apply (list_elem_of_fmap_2 (name ∘ staged_route)).
    by eapply list_elem_of_lookup_2. }
  assert (Hat : forall k i, order !! k = Some i ->
            map adjacentRoutes rs !! i
            = Some (match k with O => EmptyString | S k' => N k' end)).
  { intros k i Hk. unfold rs. rewrite map_map, list_lookup_fmap.
    exact (Hadj k i Hk). }
  assert (Hadjs : Forall (fun r => adjacentRoutes r = EmptyString
                                   \/ adjacentRoutes r ∈ map name rs) rs).
  { apply Forall_lookup. intros i r Hi.
    assert (Hio : i ∈ order).
    { rewrite Hperm. apply elem_of_seq.
      apply lookup_lt_Some in Hi. lia. }
    apply list_elem_of_lookup in Hio as [k Hk].
    pose proof (Hat k i Hk) as Ha. rewrite list_lookup_fmap, Hi in Ha.
    injection Ha as Ha. rewrite Ha. destruct k as [|k']; [by left|right].
    apply HN. apply lookup_lt_Some in Hk.
    rewrite Hperm, length_seq in Hk. lia. }
  assert (Hpoly : collect first_polygon rs = inr (map zone_made rs)).
  { apply collect_all. eapply Forall_impl; [exact Hmade|].
    intros r (p & num & text & _ & Hc & _). unfold first_polygon, zone_made.
    unfold RemapProps.cargo in Hc. injection Hc as _ _ _ ->. done. }
  assert (Hnode : collect node_of rs = inr (map node_made rs)).
  { apply collect_all. eapply Forall_impl; [exact Hmade|].
    intros r (p & num & text & _ & Hc & _). unfold node_of, node_made.
    unfold RemapProps.cargo in Hc. injection Hc as -> _ _ _. simpl.
    by rewrite int_of_str_pretty. }
  assert (Hedges :
    (length (omap (fun '(r, n) => edge_of (name_to_id (map node_made rs)) r n)
                  (zip_with pair rs (map node_made rs))) + 1
     = length rs)%nat).
  { assert (Hzip : zip_with pair rs (map node_made rs)
                   = map (fun r => (r, node_made r)) rs).
    { clear. induction rs as [|r rs IH]; [done|]. simpl. by rewrite IH. }
    rewrite Hzip.
    assert (Homap : forall l : list route,
      omap (fun '(r, n) => edge_of (name_to_id (map node_made rs)) r n)
           (map (fun r => (r, node_made r)) l)
      = omap (fun r => edge_of (name_to_id (map node_made rs)) r (node_made r)) l).
    { intros l. induction l as [|r l IH]; [done|]. csimpl.
      by destruct (edge_of _ r _); rewrite IH. }
    rewrite Homap.
    rewrite (omap_length_filter _ (fun r => adjacentRoutes r <> EmptyString)).
    2:{ intros r Hr. unfold edge_of.
        eapply Forall_forall in Hadjs; [|exact Hr].
        destruct (adjacentRoutes r) as [|c a] eqn:Ea.
        - simpl. split; [by intros [? ?]|done].
        - simpl. split; [done|]. intros _.
          destruct Hadjs as [|Hin]; [done|].
          apply list_elem_of_fmap in Hin as (r' & Hr' & Hin').
          destruct (name_to_id_covers (map node_made rs) (node_made r')) as [t Ht].
          { by apply list_elem_of_fmap_2. }
          simpl in Ht. rewrite <- Hr' in Ht. rewrite Ht. by eexists. }
    assert (Hfm : forall l : list route,
      length (filter (fun r => adjacentRoutes r <> EmptyString) l)
      = length (filter (fun a => a <> EmptyString) (map adjacentRoutes l))).
    { intros l. induction l as [|r l IH]; [done|]. simpl.
      rewrite !filter_cons. destruct (decide _); simpl; by rewrite IH. }
    rewrite Hfm, <- (length_map adjacentRoutes rs).
    apply (one_blank _ order N).
    - by rewrite Hperm, length_map, Hlens.
    - done.
    - intros k' Hk'. rewrite length_map in Hk'.
      by destruct (Hclean _ (HN k' Hk')) as (? & _).
    - intros E. apply (f_equal length) in E. rewrite length_map in E.
      simpl in E. destruct staged0; simpl in *; [done|lia]. }
  eexists routes', _. split.
  { unfold generate. destruct staged0 as [|s0 l0] eqn:E0; [done|].
    rewrite Hrel. fold rs. by rewrite Hpoly, Hnode. }
  simpl. fold rs. split; [done|]. split.
  { by rewrite map_map, <- Hnames. }
  split.
  { pose proof (f_equal length Hnames) as Hl. by rewrite !length_map in Hl. }
  split.
  { pose proof (f_equal length Hnames) as Hl. rewrite !length_map in Hl.
    by rewrite <- Hl. }
  split; [done|]. split.
  { apply Forall_forall. intros r Hr.
    eapply Forall_forall in Hmade as (_ & _ & _ & _ & _ & Hrp); [|exact Hr].
    by rewrite Hrp. }
  apply named_relations_consistent.
  - apply Forall_forall. exact Hclean.
  - apply Forall_forall. intros r Hr. split.
    + by eapply Forall_forall in Hadjs.
    + exists rep. split.
      * by rewrite Hnames, <- Hnames0.
      * by eapply Forall_forall in Hmade as (_ & _ & _ & _ & _ & Hrp).
  - by rewrite !map_map.
Qed.

(** X23: the button "Générer la structure JSON complète", pressed for the
    first time on a session that presses of "Ajouter la route" have filled,
    builds a document. It holds the routes of the session in the order they
    were made and under their names, one node for each route labelled with
    its name, the count of the routes, and one edge less than there are
    routes; every adjacency and every representative in it is the name of
    one of its routes. *)
Theorem scratch_document_consistent (ps : list App9.press)
    admissible_patterns route_number_gap :
  App9.routes (run_presses ps).1 <> [] ->
  exists routes' net,
    button admissible_patterns route_number_gap (staged_routes (run_presses ps))
    = (routes', Built net)
    /\ map name (routingParameterUiVehicleDTOs (net_document net))
       = map name (App9.routes (run_presses ps).1)
    /\ (map label <$> routingParameterNodeDTOs (net_document net))
       = Some (map name (App9.routes (run_presses ps).1))
    /\ nbVehicle net = length (App9.routes (run_presses ps).1)
    /\ (length (routingParameterEdgeDTOs net) + 1
        = length (App9.routes (run_presses ps).1))%nat
    /\ self_consistent (net_document net).
Proof.
  intros Hne.
  destruct (button_on_fresh_session ps admissible_patterns route_number_gap Hne)
    as (routes' & net & Hb & Hn & Hl & Hc & He & _ & _ & Hs).
  by exists routes', net.
Qed.

(** X24: such a document goes through the range remapper without a single
    unresolved reference: created from scratch, then renumbered, the
    adjacencies, representatives and node labels all name routes of the
    document. *)
Theorem scratch_document_remaps_clean (ps : list App9.press)
    admissible_patterns route_number_gap new_min new_max :
  App9.routes (run_presses ps).1 <> [] ->
  is_Some (parse_pattern admissible_patterns) ->
  Bulk.valid_range new_min new_max = true ->
  exists routes' net r,
    button admissible_patterns route_number_gap (staged_routes (run_presses ps))
    = (routes', Built net)
    /\ Bulk.apply_changes (net_document net) new_min new_max true = Done r
    /\ Bulk.broken_refs r = ∅.
Proof.
  intros Hne Hp Hv.
  destruct (button_on_fresh_session ps admissible_patterns route_number_gap Hne)
    as (routes' & net & Hb & _ & _ & _ & _ & Hpat & Hby & Hc).
  destruct (consistent_remaps_clean (net_document net) new_min new_max)
    as (r & Hr & Hbr); [by rewrite Hpat|done|done|done|].
  by exists routes', net, r.
Qed.

End Session.
(** *** On two presses *)

Definition pressed_twice : stage Binary64.float :=
  run_presses Binary64.fmt12 App9Props.square_union App9Props.no_area "4485"
    ScratchProps.two_presses.

Lemma scratch_document_consistent_witness :
  exists routes' net,
    generate RelationsProps.depot_nowhere RelationsProps.fewer_corners "4485"
      "MONT|1500|1999" 5 (staged_routes pressed_twice)
    = (routes', Built net)
    /\ map name (routingParameterUiVehicleDTOs (net_document net))
       = map name (App9.routes pressed_twice.1)
    /\ (map label <$> routingParameterNodeDTOs (net_document net))
       = Some (map name (App9.routes pressed_twice.1))
    /\ nbVehicle net = length (App9.routes pressed_twice.1)
    /\ (length (routingParameterEdgeDTOs net) + 1
        = length (App9.routes pressed_twice.1))%nat
    /\ self_consistent (net_document net).
Proof.
  apply (scratch_document_consistent Binary64.fmt12 App9Props.square_union
           App9Props.no_area "4485" RelationsProps.depot_nowhere
           RelationsProps.fewer_corners ScratchProps.two_presses
           "MONT|1500|1999" 5).
  vm_compute. discriminate.
Defined.

Lemma scratch_document_remaps_clean_witness :
  exists routes' net r,
    generate RelationsProps.depot_nowhere RelationsProps.fewer_corners "4485"
      "MONT|1500|1999" 5 (staged_routes pressed_twice)
    = (routes', Built net)
    /\ Bulk.apply_changes (net_document net) 2000 2499 true = Done r
    /\ Bulk.broken_refs r = ∅.
Proof.
  apply (scratch_document_remaps_clean Binary64.fmt12 App9Props.square_union
           App9Props.no_area "4485" RelationsProps.depot_nowhere
           RelationsProps.fewer_corners ScratchProps.two_presses
           "MONT|1500|1999" 5 2000 2499).
  - vm_compute. discriminate.
  - vm_compute. eauto.
  - reflexivity.
Defined.


End ScratchDocProps.

(** ** The restructuring page: what a run rewrites and what it counts *)

Module ReshapeProps.
Import Py Geometry Document Reshape.

Section Reshape.
Context {float : Type}.
Variable fmt8 : float -> string.
Variable upper : string -> string.
Variable union_all : list string -> option (geometry float).

Local Abbreviation recalculate := (Reshape.recalculate fmt8 upper union_all).
Local Abbreviation reshape_prefs := (Reshape.reshape_prefs fmt8 upper union_all).
Local Abbreviation reshape_routes := (Reshape.reshape_routes fmt8 upper union_all).
Local Abbreviation reshape := (Reshape.reshape fmt8 upper union_all).

(** The fields of the polygon object a rewrite starts from. *)
Definition fields_before (d : dto) : gmap string string :=
  match d with Object fields => fields | _ => ∅ end.

(** A preference whose zone would be rewritten while the value under
    [routingParameterUiPolygonDTO] cannot take an item. *)
Definition blocked (p : pref) : Prop :=
  pref_dto p = NotObject
  /\ match recalculate p with Rewritten _ _ => True | _ => False end.

(** A preference before and after the run. *)
Definition rewritten_or_kept (p p' : pref) : Prop :=
  match recalculate p with
  | Rewritten poly_text _ =>
      p' = mk_pref (pref_zip p)
             (Object (<["polygonCoordinates" := poly_text]>
                        (fields_before (pref_dto p))))
  | _ => p' = p
  end.

Definition route_after (r r' : route) : Prop :=
  route_name r' = route_name r
  /\ Forall2 rewritten_or_kept (route_prefs r) (route_prefs r').

(** The preferences of a route by what the loop body does with them. *)
Definition is_rewritten (p : pref) : bool :=
  match recalculate p with Rewritten _ _ => true | _ => false end.
Definition is_errored (p : pref) : bool :=
  match recalculate p with Errored => true | _ => false end.

Definition count (f : pref -> bool) (routes : list route) : nat :=
  length (filter (fun p => f p = true) (concat (map route_prefs routes))).

(** The entries of the new map a list of routes gives: one for each
    rewritten preference, under the name of its route. *)
Definition drawn_of (rname : string) (p : pref)
  : option (string * geometry float) :=
  match recalculate p with
  | Rewritten _ merged_norm => Some (rname, merged_norm)
  | _ => None
  end.

Definition drawn (routes : list route) : list (string * geometry float) :=
  concat (map (fun r => omap (drawn_of (route_name r)) (route_prefs r)) routes).

Lemma recalculate_zip p q : pref_zip p = pref_zip q -> recalculate p = recalculate q.
Proof. intros E. unfold Reshape.recalculate. by rewrite E. Qed.

Lemma write_coordinates_spec p poly_text :
  write_coordinates p poly_text
  = if decide (pref_dto p = NotObject) then None
    else Some (mk_pref (pref_zip p)
                 (Object (<["polygonCoordinates" := poly_text]>
                            (fields_before (pref_dto p))))).
Proof.
  unfold write_coordinates. destruct (pref_dto p); simpl; try done.
Qed.

Lemma is_rewritten_eq p :
  is_rewritten p = match recalculate p with Rewritten _ _ => true | _ => false end.
Proof. done. Qed.

Lemma is_errored_eq p :
  is_errored p = match recalculate p with Errored => true | _ => false end.
Proof. done. Qed.

Lemma drawn_of_eq rname p :
  drawn_of rname p
  = match recalculate p with
    | Rewritten _ merged_norm => Some (rname, merged_norm)
    | _ => None
    end.
Proof. done. Qed.

Lemma reshape_prefs_Done rname prefs t prefs' t' :
  reshape_prefs rname prefs t = Done (prefs', t') ->
  Forall2 rewritten_or_kept prefs prefs'
  /\ new_polygons t' = new_polygons t ++ omap (drawn_of rname) prefs
  /\ updated t' = (updated t + length (filter (fun p => is_rewritten p = true) prefs))%nat
  /\ errors t' = (errors t + length (filter (fun p => is_errored p = true) prefs))%nat.
Proof.
  revert t prefs' t'. induction prefs as [|p rest IH]; intros t prefs' t' H.
  - simpl in H. simplify_eq. simpl. rewrite app_nil_r.
    repeat split; [constructor|lia|lia].
  - simpl in H. rewrite !filter_cons. csimpl.
    pose proof (is_rewritten_eq p) as Hr. pose proof (is_errored_eq p) as He.
    pose proof (drawn_of_eq rname p) as Hd.
    assert (Hk : forall p', rewritten_or_kept p p' <->
              match recalculate p with
              | Rewritten poly_text _ =>
                  p' = mk_pref (pref_zip p)
                         (Object (<["polygonCoordinates" := poly_text]>
                                    (fields_before (pref_dto p))))
              | _ => p' = p
              end) by done.
    destruct (recalculate p) as [| |poly_text merged_norm] eqn:Ep;
      rewrite Hr, He, Hd.
    + destruct (reshape_prefs rname rest t) as [[rest' t1]| | |] eqn:E;
        simpl in H; simplify_eq.
      destruct (IH _ _ _ E) as (IH1 & IH2 & IH3 & IH4).
      repeat case_decide; try done.
      repeat split; try done. constructor; [|done]. by apply Hk.
    + destruct (reshape_prefs rname rest _) as [[rest' t1]| | |] eqn:E;
        simpl in H; simplify_eq.
      destruct (IH _ _ _ E) as (IH1 & IH2 & IH3 & IH4). simpl in *.
      repeat case_decide; try done.
      repeat split; try done; [|simpl; lia]. constructor; [|done]. by apply Hk.
    + rewrite write_coordinates_spec in H.
      destruct (decide (pref_dto p = NotObject)) as [|Hn]; [done|].
      destruct (reshape_prefs rname rest _) as [[rest' t1]| | |] eqn:E;
        simpl in H; simplify_eq.
      destruct (IH _ _ _ E) as (IH1 & IH2 & IH3 & IH4). simpl in *.
      repeat case_decide; try done.
      repeat split; [|by rewrite IH2, <- app_assoc|simpl; lia|done].
      constructor; [|done]. by apply Hk.
Qed.

Lemma reshape_routes_Done routes t routes' t' :
  reshape_routes routes t = Done (routes', t') ->
  Forall2 route_after routes routes'
  /\ new_polygons t' = new_polygons t ++ drawn routes
  /\ updated t' = (updated t + count is_rewritten routes)%nat
  /\ errors t' = (errors t + count is_errored routes)%nat.
Proof.
  unfold count, drawn.
  revert t routes' t'. induction routes as [|r rest IH]; intros t routes' t' H.
  - simpl in H. simplify_eq. simpl. rewrite app_nil_r.
    repeat split; [constructor|lia|lia].
  - simpl in H.
    destruct (reshape_prefs (route_name r) (route_prefs r) t)
      as [[prefs' t1]| | |] eqn:Ep; simpl in H; try done.
    destruct (reshape_routes rest t1) as [[rest' t2]| | |] eqn:Er;
      simpl in H; simplify_eq.
    destruct (reshape_prefs_Done _ _ _ _ _ Ep) as (P1 & P2 & P3 & P4).
    destruct (IH _ _ _ Er) as (R1 & R2 & R3 & R4).
    simpl. rewrite !filter_app, !length_app.
    repeat split; [by constructor| |lia|lia].
    by rewrite R2, P2, <- app_assoc.
Qed.




Lemma reshape_prefs_raises rname prefs t :
  match reshape_prefs rname prefs t with
  | Done _ => ~ Exists blocked prefs
  | Raised TypeError => Exists blocked prefs
  | _ => False
  end.
Proof.
  revert t. induction prefs as [|p rest IH]; intros t.
  - simpl. by intros ?%Exists_nil.
  - simpl. destruct (recalculate p) as [| |poly_text merged_norm] eqn:Ep.
    + specialize (IH t).
      destruct (reshape_prefs rname rest t) as [[rest' t1]| |[]|]; simpl; try done.
      * intros [[_ Hb]|Hb]%Exists_cons; [by rewrite Ep in Hb|done].
      * by apply Exists_cons_tl.
    + specialize (IH (mk_tally (new_polygons t) (updated t) (S (errors t)))).
      destruct (reshape_prefs rname rest _) as [[rest' t1]| |[]|]; simpl; try done.
      * intros [[_ Hb]|Hb]%Exists_cons; [by rewrite Ep in Hb|done].
      * by apply Exists_cons_tl.
    + rewrite write_coordinates_spec.
      destruct (decide (pref_dto p = NotObject)) as [Hd|Hd].
      { apply Exists_cons_hd. split; [done|]. by rewrite Ep. }
      specialize (IH (mk_tally (new_polygons t ++ [(rname, merged_norm)])
                               (S (updated t)) (errors t))).
      destruct (reshape_prefs rname rest _) as [[rest' t1]| |[]|]; simpl; try done.
      * intros [[Hb _]|Hb]%Exists_cons; done.
      * by apply Exists_cons_tl.
Qed.

Lemma reshape_routes_raises routes t :
  match reshape_routes routes t with
  | Done _ => ~ Exists (fun r => Exists blocked (route_prefs r)) routes
  | Raised TypeError => Exists (fun r => Exists blocked (route_prefs r)) routes
  | _ => False
  end.
Proof.
  revert t. induction routes as [|r rest IH]; intros t.
  - simpl. by intros ?%Exists_nil.
  - simpl. pose proof (reshape_prefs_raises (route_name r) (route_prefs r) t) as Hp.
    destruct (reshape_prefs (route_name r) (route_prefs r) t)
      as [[prefs' t1]| |[]|]; simpl; try done.
    + specialize (IH t1).
      destruct (reshape_routes rest t1) as [[rest' t2]| |[]|]; simpl; try done.
      * intros [Hb|Hb]%Exists_cons; done.
      * by apply Exists_cons_tl.
    + by apply Exists_cons_hd.
Qed.


Lemma reshape_prefs_again rname prefs prefs' t :
  Forall2 rewritten_or_kept prefs prefs' ->
  ~ Exists blocked prefs ->
  reshape_prefs rname prefs' t
  = Done (prefs',
          mk_tally (new_polygons t ++ omap (drawn_of rname) prefs)
            (updated t + length (filter (fun p => is_rewritten p = true) prefs))
            (errors t + length (filter (fun p => is_errored p = true) prefs))).
Proof.
  intros H. revert t. induction H as [|p p' prefs prefs' Hp _ IH]; intros t Hb.
  - simpl. rewrite app_nil_r, !Nat.add_0_r. by destruct t.
  - assert (Hb1 : ~ blocked p) by (intros ?; apply Hb; by apply Exists_cons_hd).
    assert (Hb2 : ~ Exists blocked prefs)
      by (intros ?; apply Hb; by apply Exists_cons_tl).
    assert (Hz : pref_zip p' = pref_zip p).
    { unfold rewritten_or_kept in Hp. destruct (recalculate p); by subst. }
    simpl. rewrite !filter_cons. csimpl.
    pose proof (is_rewritten_eq p) as Hr. pose proof (is_errored_eq p) as He.
    pose proof (drawn_of_eq rname p) as Hd.
    rewrite (recalculate_zip p' p Hz).
    unfold rewritten_or_kept in Hp. unfold blocked in Hb1.
    destruct (recalculate p) as [| |poly_text merged_norm] eqn:Ep;
      rewrite Hd; repeat case_decide; try congruence.
    + rewrite IH by done. simpl. by subst p'.
    + rewrite IH by done. simpl. subst p'.
      do 2 f_equal. f_equal. simpl. lia.
    + rewrite write_coordinates_spec. subst p'. simpl.
      rewrite IH by done. simpl.
      rewrite insert_insert_eq. simpl. do 2 f_equal.
      rewrite <- app_assoc. simpl. f_equal. lia.
Qed.

Lemma reshape_routes_again routes routes' t :
  Forall2 route_after routes routes' ->
  ~ Exists (fun r => Exists blocked (route_prefs r)) routes ->
  reshape_routes routes' t
  = Done (routes',
          mk_tally (new_polygons t ++ drawn routes)
            (updated t + count is_rewritten routes)
            (errors t + count is_errored routes)).
Proof.
  unfold count, drawn.
  intros H. revert t. induction H as [|r r' routes routes' [Hn Hp] _ IH]; intros t Hb.
  - simpl. rewrite app_nil_r, !Nat.add_0_r. by destruct t.
  - simpl. rewrite Hn.
    rewrite (reshape_prefs_again _ (route_prefs r)); [|done|].
    2:{ intros ?. apply Hb. by apply Exists_cons_hd. }
    simpl. rewrite IH.
    2:{ intros ?. apply Hb. by apply Exists_cons_tl. }
    simpl. destruct r' as [n' ps']. simpl in *. subst n'.
    rewrite !filter_app, !length_app, <- !app_assoc. do 3 f_equal; lia.
Qed.

(** X27: a second run on the document a run has written changes nothing and
    counts the same. *)
Theorem reshape_twice_is_once routes routes' t :
  reshape routes = Done (routes', t) ->
  reshape routes' = Done (routes', t).
Proof.
  intros H. pose proof (reshape_routes_raises routes no_tally) as Hb.
  unfold Reshape.reshape in *. rewrite H in Hb.
  apply reshape_routes_Done in H as (H1 & H2 & H3 & H4).
  rewrite (reshape_routes_again routes routes' no_tally H1 Hb).
  simpl in *. destruct t as [np u e]. simpl in *. by subst.
Qed.

End Reshape.
(** *** On the loaded sample *)

(** The two zoned routes of the sample, a third route whose postal code the
    boundary table does not know, and a boundary table that knows the codes
    that start with H. *)
Definition H_table (zips : list string) : option (geometry Binary64.float) :=
  match filter (fun z => bool_decide (String.prefix "H" z = true)) zips with
  | [] => None
  | _ => Some (GPolygon Samples.unit_square)
  end.

Definition sample_routes : list route :=
  map of_route (routingParameterUiVehicleDTOs Samples.loaded)
  ++ [mk_route "MONT1510" [mk_pref "J4B" Absent; mk_pref " , " NotObject]].

Definition reshaped : list route * tally (float := Binary64.float) :=
  match Reshape.reshape Binary64.fmt8 Samples.upper_ascii H_table sample_routes with
  | Done res => res
  | _ => ([], no_tally)
  end.

Example reshaped_counts :
  (updated reshaped.2, errors reshaped.2, map fst (new_polygons reshaped.2))
  = (2%nat, 1%nat, ["MONT1500"; "MONT1505"]).
Proof. vm_compute. reflexivity. Qed.


Lemma reshape_twice_is_once_witness :
  Reshape.reshape Binary64.fmt8 Samples.upper_ascii H_table reshaped.1
  = Done (reshaped.1, reshaped.2).
Proof.
  apply (reshape_twice_is_once Binary64.fmt8 Samples.upper_ascii H_table
           sample_routes).
  vm_compute. reflexivity.
Defined.


End ReshapeProps.
